(** * Revlog index codec, docket and upgrade engine of Mercurial

    A shallow embedding of
      - [mercurial/pure/parsers.py]        (index objects, v1 and v2 codecs,
                                            inline scan, strip, sidedata rewrite,
                                            header and entry records, dirstate),
      - [mercurial/revlogutils/docket.py]  (the revlog docket),
      - [mercurial/upgrade_utils/engine.py] (delta-reuse choice, cloning and
                                            copying of revlogs, store file
                                            filter, the swap of the stores),
    followed by the properties established about them.

    Python integers are unbounded and are modelled by [Z]; [bytes] objects are
    lists of [Byte.byte]; paths are strings; dictionaries and sets are stdpp's
    [gmap] and [gset].  Exceptions are an explicit result type, and methods
    that mutate [self] are written in a state-and-exception monad so that a
    mutation performed before a [raise] stays visible. *)

From Stdlib Require Import ZArith Lia List Strings.Byte Strings.String Strings.Ascii.
From stdpp Require Import base option list gmap strings sorting.

Local Open Scope Z_scope.

(** ** Python prelude *)

Module Py.

Inductive exn : Type :=
| TypeError
| IndexError
| KeyError
| ValueError
| AssertionError
| StructError
| ProgrammingError
| RevlogError
| IOError.

Inductive result (A : Type) : Type :=
| Ok (a : A)
| Raise (e : exn).
Arguments Ok {A} a.
Arguments Raise {A} e.

Definition rbind {A B : Type} (r : result A) (k : A -> result B) : result B :=
  match r with
  | Ok a => k a
  | Raise e => Raise e
  end.

(** State-and-exception monad: the state is returned on both outcomes. *)
Definition M (S A : Type) : Type := S -> result A * S.

Definition ret {S A : Type} (a : A) : M S A := fun s => (Ok a, s).
Definition raise {S A : Type} (e : exn) : M S A := fun s => (Raise e, s).
Definition bind {S A B : Type} (m : M S A) (k : A -> M S B) : M S B :=
  fun s => match m s with
           | (Ok a, s') => k a s'
           | (Raise e, s') => (Raise e, s')
           end.
Definition get {S : Type} : M S S := fun s => (Ok s, s).
Definition gets {S A : Type} (f : S -> A) : M S A := fun s => (Ok (f s), s).
Definition put {S : Type} (s : S) : M S unit := fun _ => (Ok tt, s).
Definition modify {S : Type} (f : S -> S) : M S unit := fun s => (Ok tt, f s).
Definition lift {S A : Type} (r : result A) : M S A := fun s => (r, s).

(** [bytes] and [len]. *)
Abbreviation bytes := (list byte).

Definition len {A : Type} (l : list A) : Z := Z.of_nat (length l).

(** Bounds of a slice component, as [slice.indices] computes them for a
    step of [None]. *)
Definition clamp (n i : Z) : Z :=
  if i <? 0 then Z.max 0 (i + n) else Z.min i n.

(** [l[a:b]] *)
Definition slice {A : Type} (l : list A) (a b : Z) : list A :=
  let n := len l in
  let a' := clamp n a in
  let b' := clamp n b in
  take (Z.to_nat (b' - a')) (drop (Z.to_nat a') l).

(** [l[:b]] *)
Definition slice_to {A : Type} (l : list A) (b : Z) : list A :=
  slice l 0 b.

(** [l[a:]] *)
Definition slice_from {A : Type} (l : list A) (a : Z) : list A :=
  slice l a (len l).

(** [l[i]] on a list: negative indexes count from the end. *)
Definition getitem {A : Type} (l : list A) (i : Z) : result A :=
  let j := if i <? 0 then i + len l else i in
  if (0 <=? j) && (j <? len l) then
    match l !! Z.to_nat j with
    | Some a => Ok a
    | None => Raise IndexError
    end
  else Raise IndexError.

(** [l[i] = a] on a list. *)
Definition setitem {A : Type} (l : list A) (i : Z) (a : A) : result (list A) :=
  let j := if i <? 0 then i + len l else i in
  if (0 <=? j) && (j <? len l) then Ok (<[Z.to_nat j := a]> l)
  else Raise IndexError.

(** [range(a, b)] *)
Definition range (a b : Z) : list Z :=
  map (fun k => a + Z.of_nat k) (seq 0 (Z.to_nat (b - a))).

(** [s.startswith(p)] and [s.endswith(p)] *)
Definition startswith (s p : string) : bool := String.prefix p s.

Definition endswith (s p : string) : bool :=
  let n := String.length s in
  let m := String.length p in
  if (m <=? n)%nat then String.eqb (String.substring (n - m) m s) p
  else false.

(** [s[:-n]] on a path, for a literal [n > 0]. *)
Definition strip_suffix (s : string) (n : nat) : string :=
  String.substring 0 (String.length s - n) s.

(** [s[a:-n]] on a path, for literals [a >= 0] and [n > 0]. *)
Definition strip_both (s : string) (a n : nat) : string :=
  String.substring a (String.length s - n - a) s.

End Py.

Export Py.

Declare Scope py_scope.
Delimit Scope py_scope with py.
Notation "x <- m ;; k" := (Py.bind m (fun x => k))
  (at level 100, m at next level, right associativity) : py_scope.
Notation "m ;;; k" := (Py.bind m (fun _ => k))
  (at level 100, right associativity) : py_scope.
Notation "x <~ r ;; k" := (Py.rbind r (fun x => k))
  (at level 100, r at next level, right associativity) : py_scope.

(** ** The [struct] module, big-endian standard-size mode ([>]) *)

Module struct.

(** Format characters used by the revlog code. *)
Inductive code : Type :=
| fmt_Q            (* unsigned long long, 8 bytes *)
| fmt_i            (* int, 4 bytes, signed *)
| fmt_I            (* unsigned int, 4 bytes *)
| fmt_L            (* unsigned long, 4 bytes in standard size *)
| fmt_B            (* unsigned char, 1 byte *)
| fmt_c            (* char: a bytes object of length one *)
| fmt_s (n : nat)  (* [n]s: a bytes object, truncated or zero padded *)
| fmt_x (n : nat). (* [n]x: pad bytes, no value *)

Inductive value : Type :=
| VInt (z : Z)
| VBytes (b : bytes).

Definition code_size (c : code) : nat :=
  match c with
  | fmt_Q => 8
  | fmt_i | fmt_I | fmt_L => 4
  | fmt_B | fmt_c => 1
  | fmt_s n | fmt_x n => n
  end.

Fixpoint calcsize (fmt : list code) : nat :=
  match fmt with
  | [] => 0
  | c :: fmt' => (code_size c + calcsize fmt')%nat
  end.

Definition Z_of_byte (b : byte) : Z := Z.of_N (Byte.to_N b).

Definition byte_of_Z (z : Z) : byte :=
  match Byte.of_N (Z.to_N (z mod 256)) with
  | Some b => b
  | None => x00
  end.

(** The [n] low-order bytes of [v], most significant first. *)
Fixpoint be_encode (n : nat) (v : Z) : bytes :=
  match n with
  | O => []
  | S k => be_encode k (v / 256) ++ [byte_of_Z (v mod 256)]
  end.

Definition be_decode (bs : bytes) : Z :=
  fold_left (fun acc b => acc * 256 + Z_of_byte b) bs 0.

(** Width in bytes and signedness of the integer codes. *)
Definition int_code (c : code) : option (nat * bool) :=
  match c with
  | fmt_Q => Some (8%nat, false)
  | fmt_i => Some (4%nat, true)
  | fmt_I | fmt_L => Some (4%nat, false)
  | fmt_B => Some (1%nat, false)
  | _ => None
  end.

Definition int_min (n : nat) (signed : bool) : Z :=
  if signed then - 2 ^ (8 * Z.of_nat n - 1) else 0.

Definition int_max (n : nat) (signed : bool) : Z :=
  if signed then 2 ^ (8 * Z.of_nat n - 1) - 1 else 2 ^ (8 * Z.of_nat n) - 1.

Definition pack_int (n : nat) (signed : bool) (v : Z) : result bytes :=
  if (int_min n signed <=? v) && (v <=? int_max n signed)
  then Ok (be_encode n (v mod 2 ^ (8 * Z.of_nat n)))
  else Raise StructError.

Definition unpack_int (signed : bool) (bs : bytes) : Z :=
  let u := be_decode bs in
  let w := 8 * Z.of_nat (length bs) in
  if signed && (2 ^ (w - 1) <=? u) then u - 2 ^ w else u.

(** One value packed for one value-carrying code. *)
Definition pack_one (c : code) (v : value) : result bytes :=
  match c, v with
  | fmt_s n, VBytes b => Ok (take n (b ++ replicate n x00))
  | fmt_c, VBytes b => if (length b =? 1)%nat then Ok b else Raise StructError
  | fmt_x _, _ => Raise StructError
  | _, VInt z =>
      match int_code c with
      | Some (n, signed) => pack_int n signed z
      | None => Raise StructError
      end
  | _, _ => Raise StructError
  end.

Fixpoint pack (fmt : list code) (vs : list value) : result bytes :=
  match fmt with
  | [] =>
      match vs with
      | [] => Ok []
      | _ :: _ => Raise StructError
      end
  | fmt_x n :: fmt' =>
      (rest <~ pack fmt' vs ;; Ok (replicate n x00 ++ rest))%py
  | c :: fmt' =>
      match vs with
      | [] => Raise StructError
      | v :: vs' =>
          (b <~ pack_one c v ;;
           rest <~ pack fmt' vs' ;;
           Ok (b ++ rest))%py
      end
  end.

Definition unpack_one (c : code) (bs : bytes) : option value :=
  match c with
  | fmt_x _ => None
  | fmt_s _ | fmt_c => Some (VBytes bs)
  | fmt_Q | fmt_I | fmt_L | fmt_B => Some (VInt (unpack_int false bs))
  | fmt_i => Some (VInt (unpack_int true bs))
  end.

Fixpoint unpack_items (fmt : list code) (bs : bytes) : list value :=
  match fmt with
  | [] => []
  | c :: fmt' =>
      let n := code_size c in
      match unpack_one c (take n bs) with
      | Some v => v :: unpack_items fmt' (drop n bs)
      | None => unpack_items fmt' (drop n bs)
      end
  end.

Definition unpack (fmt : list code) (bs : bytes) : result (list value) :=
  if (length bs =? calcsize fmt)%nat then Ok (unpack_items fmt bs)
  else Raise StructError.

(** When a value suits a format code: integers lie in the range of the
    code, byte strings have the width of the field. *)
Definition fits (c : code) (v : value) : Prop :=
  match int_code c, v with
  | Some (n, signed), VInt z => int_min n signed <= z <= int_max n signed
  | None, VBytes b =>
      match c with
      | fmt_s n => length b = n
      | fmt_c => length b = 1%nat
      | _ => False
      end
  | _, _ => False
  end.

Fixpoint fits_all (fmt : list code) (vs : list value) : Prop :=
  match fmt with
  | [] => vs = []
  | fmt_x _ :: fmt' => fits_all fmt' vs
  | c :: fmt' =>
      match vs with
      | [] => False
      | v :: vs' => fits c v /\ fits_all fmt' vs'
      end
  end.

(** A code other than [s]: what [pack] accepts for it is stored as it is. *)
Definition no_bytes_field (c : code) : Prop :=
  match c with
  | fmt_s _ => False
  | _ => True
  end.

(** The ranges of the integer codes, spelled out. *)
Definition is_Q (z : Z) : Prop := 0 <= z <= 18446744073709551615.
Definition is_i (z : Z) : Prop := -2147483648 <= z <= 2147483647.
Definition is_L (z : Z) : Prop := 0 <= z <= 4294967295.
Definition is_B (z : Z) : Prop := 0 <= z <= 255.

(** A [Struct] object: its format, [size], [pack] and [unpack]. *)
Record Struct : Type := mkStruct { format : list code }.

Definition size (st : Struct) : Z := Z.of_nat (calcsize (format st)).

End struct.

Export struct.

(** Keys of a [gmap] indexed by nodes: bytes are countable. *)
#[global] Instance byte_eq_dec : EqDecision byte := Byte.byte_eq_dec.
#[global] Instance byte_countable : Countable byte :=
  inj_countable Byte.to_N Byte.of_N Byte.of_to_N.

(** ** Constants of [mercurial/node.py] and [mercurial/revlogutils/constants.py] *)

Module revlog_constants.

(** Modelled from the spec: [nullrev], the synthetic revision number of the
    null revision ("[-1] is reserved for null"); [node.py] is not part of
    the sources at hand. *)
Definition nullrev : Z := -1.

(** Modelled from the spec: [sha1nodeconstants.nullid], the 20-byte
    all-zero node ("the all-zero value denotes the null revision"). *)
Definition nullid : bytes := replicate 20 x00.

(** Modelled from the spec: [INDEX_HEADER], the 4-byte header word of an
    index ([>I]); [constants.py] is not part of the sources at hand. *)
Definition INDEX_HEADER : Struct := mkStruct [fmt_I].

(** Modelled from the spec: [INDEX_ENTRY_V1], the 64-byte big-endian v1
    record: 8 bytes of offset and flags, six 4-byte integers (compressed
    length, uncompressed length, base, link, parent 1, parent 2), 20 bytes
    of node and 12 reserved bytes ([>Qiiiiii20s12x]).  The lengths are
    signed 4-byte integers, which is how [_inline_scan] reads them. *)
Definition INDEX_ENTRY_V1 : Struct :=
  mkStruct [fmt_Q; fmt_i; fmt_i; fmt_i; fmt_i; fmt_i; fmt_i; fmt_s 20; fmt_x 12].

(** Modelled from the spec: [INDEX_ENTRY_V2], the 96-byte v2 record, which
    adds the sidedata offset (8 bytes, at 64), the sidedata length (4 bytes,
    at 72, where [_inline_scan] reads it), one byte of compression modes
    and padding ([>Qiiiiii20s12xQiB19x]). *)
Definition INDEX_ENTRY_V2 : Struct :=
  mkStruct [fmt_Q; fmt_i; fmt_i; fmt_i; fmt_i; fmt_i; fmt_i; fmt_s 20; fmt_x 12;
            fmt_Q; fmt_i; fmt_B; fmt_x 19].

(** The numeric code of the [inline] compression mode is not given by the
    sources at hand: it is a parameter of the development. *)
Class CompModes : Type := { COMP_MODE_INLINE : Z }.

End revlog_constants.

Export revlog_constants.

(** ** [mercurial/pure/parsers.py] *)

Module parsers.

Local Open Scope py_scope.

(** The arguments of [__getitem__] and [__delitem__]. *)
Inductive pyobj : Type :=
| PyNone
| PyInt (z : Z)
| PyBytes (b : bytes)
| PySlice (start stop step : pyobj).

(** An index entry: the 12-tuple the index hands out, field [k] of the
    record being item [k] of the tuple. *)
Record entry : Type := mkEntry {
  offset_flags : Z;            (* entry[0] *)
  compressed_length : Z;       (* entry[1] *)
  uncompressed_length : Z;     (* entry[2] *)
  base_rev : Z;                (* entry[3] *)
  link_rev : Z;                (* entry[4] *)
  parent1_rev : Z;             (* entry[5] *)
  parent2_rev : Z;             (* entry[6] *)
  node_id : bytes;             (* entry[7] *)
  sidedata_offset : Z;         (* entry[8] *)
  sidedata_length : Z;         (* entry[9] *)
  data_comp_mode : Z;          (* entry[10] *)
  sidedata_comp_mode : Z       (* entry[11] *)
}.

Definition gettype (q : Z) : Z := Z.land q 65535.

Definition offset_type (offset type : Z) : Z :=
  Z.lor (Z.shiftl offset 16) type.

(** The four concrete index classes. *)
Inductive index_class : Type :=
| IndexObject
| InlinedIndexObject
| IndexObject2
| InlinedIndexObject2.

Definition is_v2 (c : index_class) : bool :=
  match c with
  | IndexObject2 | InlinedIndexObject2 => true
  | _ => false
  end.

Definition is_inlined (c : index_class) : bool :=
  match c with
  | InlinedIndexObject | InlinedIndexObject2 => true
  | _ => false
  end.

(** The attributes of an index object; [_nodemap] is the cached property,
    [None] while it is not in [vars(self)]. *)
Record index : Type := mkIndex {
  cls : index_class;
  _data : bytes;
  _lgt : Z;
  _extra : list bytes;
  _offsets : list Z;
  _nodemap : option (gmap bytes Z)
}.

Definition set_nodemap (nm : option (gmap bytes Z)) (self : index) : index :=
  mkIndex (cls self) (_data self) (_lgt self) (_extra self) (_offsets self) nm.

Definition set_extra (ex : list bytes) (self : index) : index :=
  mkIndex (cls self) (_data self) (_lgt self) ex (_offsets self) (_nodemap self).

Definition set_offsets (offs : list Z) (self : index) : index :=
  mkIndex (cls self) (_data self) (_lgt self) (_extra self) offs (_nodemap self).

Definition index_format (c : index_class) : Struct :=
  if is_v2 c then INDEX_ENTRY_V2 else INDEX_ENTRY_V1.

Definition big_int_size : Z := size (mkStruct [fmt_Q]).
Definition int_size : Z := size (mkStruct [fmt_i]).

Definition entry_size (c : index_class) : Z := size (index_format c).

Definition entry_values8 (e : entry) : list value :=
  [VInt (offset_flags e); VInt (compressed_length e);
   VInt (uncompressed_length e); VInt (base_rev e); VInt (link_rev e);
   VInt (parent1_rev e); VInt (parent2_rev e); VBytes (node_id e)].

Definition entry_values10 (e : entry) : list value :=
  entry_values8 e ++ [VInt (sidedata_offset e); VInt (sidedata_length e)].

(** An entry is well typed for the v1 record when its eight stored fields
    have the widths of the record; for the v2 record the two sidedata
    fields are stored as well. *)
Definition wf_entry_v1 (e : entry) : Prop :=
  is_Q (offset_flags e) /\ is_i (compressed_length e)
  /\ is_i (uncompressed_length e) /\ is_i (base_rev e) /\ is_i (link_rev e)
  /\ is_i (parent1_rev e) /\ is_i (parent2_rev e)
  /\ length (node_id e) = 20%nat.

Definition wf_entry_v2 (e : entry) : Prop :=
  wf_entry_v1 e /\ is_Q (sidedata_offset e) /\ is_i (sidedata_length e).

Definition with_comp_modes (dm sm : Z) (e : entry) : entry :=
  mkEntry (offset_flags e) (compressed_length e) (uncompressed_length e)
          (base_rev e) (link_rev e) (parent1_rev e) (parent2_rev e)
          (node_id e) (sidedata_offset e) (sidedata_length e) dm sm.

(** Position of the byte of compression modes in a v2 record. *)
Definition comp_mode_pos : nat := 76.

Section WithModes.
Context {modes : CompModes}.

Definition null_item : entry :=
  mkEntry 0 0 0 (-1) (-1) (-1) (-1) nullid 0 0
          COMP_MODE_INLINE COMP_MODE_INLINE.

(** [BaseIndexObject._unpack_entry] *)
Definition _unpack_entry_v1 (data : bytes) : result entry :=
  (r <~ unpack (format INDEX_ENTRY_V1) data ;;
   match r with
   | [VInt a0; VInt a1; VInt a2; VInt a3; VInt a4; VInt a5; VInt a6; VBytes n] =>
       Ok (mkEntry a0 a1 a2 a3 a4 a5 a6 n 0 0
                   COMP_MODE_INLINE COMP_MODE_INLINE)
   | _ => Raise TypeError
   end).

(** [Index2Mixin._unpack_entry] *)
Definition _unpack_entry_v2 (data : bytes) : result entry :=
  (data <~ unpack (format INDEX_ENTRY_V2) data ;;
   match data with
   | [VInt a0; VInt a1; VInt a2; VInt a3; VInt a4; VInt a5; VInt a6; VBytes n;
      VInt a8; VInt a9; VInt a10] =>
       let data_comp := Z.land a10 3 in
       let sidedata_comp := Z.shiftr (Z.land a10 (Z.shiftl 3 2)) 2 in
       Ok (mkEntry a0 a1 a2 a3 a4 a5 a6 n a8 a9 data_comp sidedata_comp)
   | _ => Raise TypeError
   end).

Definition _unpack_entry (c : index_class) (data : bytes) : result entry :=
  if is_v2 c then _unpack_entry_v2 data else _unpack_entry_v1 data.

(** [BaseIndexObject._pack_entry] *)
Definition _pack_entry_v1 (e : entry) : result bytes :=
  if negb (sidedata_offset e =? 0) then Raise AssertionError
  else if negb (sidedata_length e =? 0) then Raise AssertionError
  else pack (format INDEX_ENTRY_V1) (entry_values8 e).

(** [Index2Mixin._pack_entry] *)
Definition _pack_entry_v2 (e : entry) : result bytes :=
  let data := entry_values10 e in
  let data_comp := Z.land (data_comp_mode e) 3 in
  let sidedata_comp := Z.shiftl (Z.land (sidedata_comp_mode e) 3) 2 in
  let data := data ++ [VInt (Z.lor data_comp sidedata_comp)] in
  pack (format INDEX_ENTRY_V2) data.

Definition _pack_entry (c : index_class) (e : entry) : result bytes :=
  if is_v2 c then _pack_entry_v2 e else _pack_entry_v1 e.

(** [BaseIndexObject.__len__] *)
Definition __len__ (self : index) : Z := _lgt self + len (_extra self).

(** [BaseIndexObject._check_index]; the integer is handed back. *)
Definition _check_index (self : index) (i : pyobj) : result Z :=
  match i with
  | PyInt i =>
      if (i <? 0) || (i >=? __len__ self) then Raise IndexError else Ok i
  | _ => Raise TypeError
  end.

(** [IndexObject._calculate_index] and [InlinedIndexObject._calculate_index] *)
Definition _calculate_index (self : index) (i : Z) : result Z :=
  if is_inlined (cls self) then getitem (_offsets self) i
  else Ok (i * entry_size (cls self)).

Definition with_offset_flags (q : Z) (r : entry) : entry :=
  mkEntry q (compressed_length r) (uncompressed_length r) (base_rev r)
          (link_rev r) (parent1_rev r) (parent2_rev r) (node_id r)
          (sidedata_offset r) (sidedata_length r) (data_comp_mode r)
          (sidedata_comp_mode r).

(** The bytes [data] that [__getitem__] hands to [_unpack_entry]: an item
    of [_extra], or a slice of [_data]. *)
Definition _entry_data (self : index) (i : Z) : result bytes :=
  if i >=? _lgt self then getitem (_extra self) (i - _lgt self)
  else (index <~ _calculate_index self i ;;
        Ok (slice (_data self) index (index + entry_size (cls self)))).

(** [BaseIndexObject.__getitem__] *)
Definition __getitem__ (self : index) (i : pyobj) : result entry :=
  match i with
  | PyInt (-1) => Ok null_item
  | _ =>
      (i <~ _check_index self i ;;
       data <~ _entry_data self i ;;
       r <~ _unpack_entry (cls self) data ;;
       if negb (_lgt self =? 0) && (i =? 0)
       then Ok (with_offset_flags (offset_type 0 (gettype (offset_flags r))) r)
       else Ok r)
  end.

(** The loop of the [_nodemap] property: [nodemap[self[r][7]] = r]. *)
Fixpoint _nodemap_fill (self : index) (revs : list Z) (nodemap : gmap bytes Z)
  : result (gmap bytes Z) :=
  match revs with
  | [] => Ok nodemap
  | r :: revs' =>
      (e <~ __getitem__ self (PyInt r) ;;
       _nodemap_fill self revs' (<[node_id e := r]> nodemap))
  end.

Definition _nodemap_build (self : index) : result (gmap bytes Z) :=
  _nodemap_fill self (range 0 (__len__ self)) {[ nullid := nullrev ]}.

(** [BaseIndexObject._nodemap], a [propertycache]: computed on first use
    and stored in the object. *)
Definition _nodemap_get : M index (gmap bytes Z) :=
  self <- get ;;
  match _nodemap self with
  | Some nm => ret nm
  | None =>
      nm <- lift (_nodemap_build self) ;;
      modify (set_nodemap (Some nm)) ;;;
      ret nm
  end.

(** [BaseIndexObject.has_node] *)
Definition has_node (node : bytes) : M index bool :=
  nm <- _nodemap_get ;;
  ret (bool_decide (is_Some (nm !! node))).

(** [BaseIndexObject.rev]: "If the node is unknown, raise a RevlogError". *)
Definition rev (node : bytes) : M index Z :=
  nm <- _nodemap_get ;;
  match nm !! node with
  | Some r => ret r
  | None => raise RevlogError
  end.

(** [BaseIndexObject.get_rev]: an unknown node gives [None]. *)
Definition get_rev (node : bytes) : M index (option Z) :=
  nm <- _nodemap_get ;;
  ret (nm !! node).

(** [del self._nodemap[n]] on the cached map. *)
Definition _nodemap_del (n : bytes) : M index unit :=
  self <- get ;;
  match _nodemap self with
  | Some nm =>
      match nm !! n with
      | Some _ => put (set_nodemap (Some (delete n nm)) self)
      | None => raise KeyError
      end
  | None => raise KeyError
  end.

Fixpoint _stripnodes_loop (revs : list Z) : M index unit :=
  match revs with
  | [] => ret tt
  | r :: revs' =>
      self <- get ;;
      e <- lift (__getitem__ self (PyInt r)) ;;
      _nodemap_del (node_id e) ;;;
      _stripnodes_loop revs'
  end.

(** [BaseIndexObject._stripnodes] *)
Definition _stripnodes (start : Z) : M index unit :=
  self <- get ;;
  match _nodemap self with
  | Some _ => _stripnodes_loop (range start (__len__ self))
  | None => ret tt
  end.

(** [BaseIndexObject.clearcaches] *)
Definition clearcaches : M index unit := modify (set_nodemap None).

(** [BaseIndexObject.append] *)
Definition append (tup : entry) : M index unit :=
  self <- get ;;
  match _nodemap self with
  | Some nm =>
      put (set_nodemap (Some (<[node_id tup := __len__ self]> nm)) self)
  | None => ret tt
  end ;;;
  self <- get ;;
  data <- lift (_pack_entry (cls self) tup) ;;
  modify (fun self => set_extra (_extra self ++ [data]) self).

(** [IndexObject.__delitem__] and [InlinedIndexObject.__delitem__] *)
Definition __delitem__ (i : pyobj) : M index unit :=
  match i with
  | PySlice start (PyInt (-1)) PyNone =>
      self <- get ;;
      i <- lift (_check_index self start) ;;
      _stripnodes i ;;;
      self <- get ;;
      if i <? _lgt self then
        if is_inlined (cls self) then
          put (mkIndex (cls self) (_data self) i []
                       (slice_to (_offsets self) i) (_nodemap self))
        else
          put (mkIndex (cls self)
                       (slice_to (_data self) (i * entry_size (cls self)))
                       i [] (_offsets self) (_nodemap self))
      else
        put (set_extra (slice_to (_extra self) (i - _lgt self)) self)
  | _ => raise ValueError
  end.

(** [Index2Mixin.replace_sidedata_info] *)
Definition replace_sidedata_info
  (rev sidedata_offset' sidedata_length' offset_flags' : Z) : M index unit :=
  if rev <? 0 then raise KeyError
  else
    self <- get ;;
    _ <- lift (_check_index self (PyInt rev)) ;;
    if rev <? _lgt self then raise KeyError
    else
      entry <- lift (__getitem__ self (PyInt rev)) ;;
      let entry :=
        mkEntry offset_flags' (compressed_length entry)
                (uncompressed_length entry) (base_rev entry)
                (link_rev entry) (parent1_rev entry) (parent2_rev entry)
                (node_id entry) sidedata_offset' sidedata_length'
                (data_comp_mode entry) (sidedata_comp_mode entry) in
      new <- lift (_pack_entry_v2 entry) ;;
      extra <- lift (setitem (_extra self) (rev - _lgt self) new) ;;
      put (set_extra extra self).

(** [BaseIndexObject.pack_header] and [Index2Mixin.pack_header] *)
Definition pack_header (c : index_class) (header : Z) : result bytes :=
  if is_v2 c then Raise ProgrammingError
  else pack (format INDEX_HEADER) [VInt header].

(** [BaseIndexObject.entry_binary] and [Index2Mixin.entry_binary] *)
Definition entry_binary (self : index) (rev : Z) : result bytes :=
  (entry <~ __getitem__ self (PyInt rev) ;;
   if is_v2 (cls self) then _pack_entry_v2 entry
   else
     (p <~ pack (format INDEX_ENTRY_V1) (entry_values8 entry) ;;
      if rev =? 0 then Ok (slice_from p (size INDEX_HEADER)) else Ok p)).

(** [IndexObject.__init__] *)
Definition IndexObject__init__ (c : index_class) (data : bytes) : result index :=
  if negb (len data mod entry_size c =? 0) then Raise AssertionError
  else Ok (mkIndex c data (len data / entry_size c) [] [] None).

(** One [struct.unpack(b'>i', data[start : start + int_size])]. *)
Definition unpack_i (data : bytes) (start : Z) : result Z :=
  (r <~ unpack [fmt_i] (slice data start (start + int_size)) ;;
   match r with
   | [VInt s] => Ok s
   | _ => Raise TypeError
   end).

(** The [while] loop of [InlinedIndexObject._inline_scan] and of
    [InlinedIndexObject2._inline_scan]; [None] when the fuel runs out.
    The offsets written so far are returned on both outcomes. *)
Fixpoint _inline_scan_loop (fuel : nat) (c : index_class) (data : bytes)
  (lgt : option Z) (offsets : list Z) (count off : Z)
  : option (result (Z * Z) * list Z) :=
  match fuel with
  | O => None
  | S fuel' =>
      if off <=? len data - entry_size c then
        let start := off + big_int_size in
        match unpack_i data start with
        | Raise e => Some (Raise e, offsets)
        | Ok s =>
            let side :=
              if is_v2 c then
                let sidedata_length_pos := 72 in
                let start := off + sidedata_length_pos in
                unpack_i data start
              else Ok 0 in
            match side with
            | Raise e => Some (Raise e, offsets)
            | Ok side_data_size =>
                let written :=
                  match lgt with
                  | Some _ => setitem offsets count off
                  | None => Ok offsets
                  end in
                match written with
                | Raise e => Some (Raise e, offsets)
                | Ok offsets' =>
                    _inline_scan_loop fuel' c data lgt offsets' (count + 1)
                      (off + (entry_size c + s + side_data_size))
                end
            end
        end
      else Some (Ok (count, off), offsets)
  end.

(** [_inline_scan(lgt)]: the count of entries, with [self._offsets]
    updated when [lgt] is not [None]. *)
Definition _inline_scan (fuel : nat) (lgt : option Z) (self : index)
  : option (result Z * index) :=
  let offsets :=
    match lgt with
    | Some n => replicate (Z.to_nat n) 0
    | None => _offsets self
    end in
  match _inline_scan_loop fuel (cls self) (_data self) lgt offsets 0 0 with
  | None => None
  | Some (Raise e, offsets') => Some (Raise e, set_offsets offsets' self)
  | Some (Ok (count, off), offsets') =>
      if negb (off =? len (_data self))
      then Some (Raise ValueError, set_offsets offsets' self)
      else Some (Ok count, set_offsets offsets' self)
  end.

(** [InlinedIndexObject.__init__]: a first scan counts the entries, a
    second one records their offsets. *)
Definition InlinedIndexObject__init__ (fuel : nat) (c : index_class)
  (data : bytes) : option (result index) :=
  let self := mkIndex c data 0 [] [] None in
  match _inline_scan fuel None self with
  | None => None
  | Some (Raise e, _) => Some (Raise e)
  | Some (Ok lgt, self) =>
      let self := mkIndex c data lgt (_extra self) (_offsets self) None in
      match _inline_scan fuel (Some lgt) self with
      | None => None
      | Some (Raise e, _) => Some (Raise e)
      | Some (Ok _, self) =>
          Some (Ok (mkIndex c data lgt [] (_offsets self) None))
      end
  end.

(** [parse_index2]: the index object (the second component of the pair
    returned by the source is the chunk cache, [(0, data)] or [None]). *)
Definition parse_index2 (fuel : nat) (data : bytes) (inline revlogv2 : bool)
  : option (result index) :=
  if negb inline then
    Some (IndexObject__init__ (if revlogv2 then IndexObject2 else IndexObject) data)
  else
    InlinedIndexObject__init__ fuel
      (if revlogv2 then InlinedIndexObject2 else InlinedIndexObject) data.

(** The forward walk the inline scan is meant to perform from offset [off]:
    the offsets of the records met, and where the walk stops. *)
Inductive inline_walk (c : index_class) (data : bytes) : Z -> list Z -> Z -> Prop :=
| inline_walk_end (off : Z) :
    len data - entry_size c < off ->
    inline_walk c data off [] off
| inline_walk_entry (off s side : Z) (offs : list Z) (stop : Z) :
    0 <= off -> off <= len data - entry_size c ->
    unpack_i data (off + big_int_size) = Ok s ->
    (if is_v2 c then unpack_i data (off + 72) else Ok 0) = Ok side ->
    inline_walk c data (off + (entry_size c + s + side)) offs stop ->
    inline_walk c data off (off :: offs) stop.

(** *** Invariants of an index object *)

(** The attributes are coherent: every item of [_extra] is one packed
    record, and the first [_lgt] records lie within [_data]. *)
Definition wf_index (self : index) : Prop :=
  0 <= _lgt self
  /\ Forall (fun raw => len raw = entry_size (cls self)) (_extra self)
  /\ (if is_inlined (cls self) then
        _lgt self <= len (_offsets self)
        /\ Forall (fun off => 0 <= off /\ off + entry_size (cls self) <= len (_data self))
                  (_offsets self)
      else _lgt self * entry_size (cls self) <= len (_data self)).

(** The entries the index hands out for a list of revisions. *)
Definition entries_at (self : index) (revs : list Z) (es : list entry) : Prop :=
  Forall2 (fun r e => __getitem__ self (PyInt r) = Ok e) revs es.

(** The map [_nodemap_fill] arrives at, given the entries. *)
Definition fill_pure (nm : gmap bytes Z) (revs : list Z) (es : list entry)
  : gmap bytes Z :=
  foldl (fun m p => <[node_id p.2 := p.1]> m) nm (zip revs es).

(** The map [_stripnodes_loop] arrives at, given the entries. *)
Definition strip_pure (nm : gmap bytes Z) (es : list entry) : gmap bytes Z :=
  foldl (fun m e => delete (node_id e) m) nm es.

(** The cached node map, when present, is the one [_nodemap] would build. *)
Definition nodemap_consistent (self : index) : Prop :=
  match _nodemap self with
  | Some nm => _nodemap_build self = Ok nm
  | None => True
  end.

(** The attributes [__delitem__] leaves for [del index[i:-1]], the cached
    node map aside. *)
Definition stripped (self : index) (i : Z) (nm : option (gmap bytes Z)) : index :=
  if i <? _lgt self then
    if is_inlined (cls self) then
      mkIndex (cls self) (_data self) i [] (slice_to (_offsets self) i) nm
    else
      mkIndex (cls self) (slice_to (_data self) (i * entry_size (cls self)))
              i [] (_offsets self) nm
  else
    mkIndex (cls self) (_data self) (_lgt self)
            (slice_to (_extra self) (i - _lgt self)) (_offsets self) nm.

(** The index [append tup] leaves when [tup] packs to [raw]. *)
Definition appended (self : index) (tup : entry) (raw : bytes) : index :=
  let self1 :=
    match _nodemap self with
    | Some nm => set_nodemap (Some (<[node_id tup := __len__ self]> nm)) self
    | None => self
    end in
  set_extra (_extra self1 ++ [raw]) self1.

(** No two stored revisions share a node (I7 of the data model). *)
Definition nodes_distinct (self : index) : Prop :=
  forall i j ei ej,
    0 <= i < __len__ self -> 0 <= j < __len__ self ->
    __getitem__ self (PyInt i) = Ok ei -> __getitem__ self (PyInt j) = Ok ej ->
    node_id ei = node_id ej -> i = j.

(** No stored revision has the null node (I4 of the data model). *)
Definition no_null_entry (self : index) : Prop :=
  forall i e,
    0 <= i < __len__ self -> __getitem__ self (PyInt i) = Ok e ->
    node_id e <> nullid.

End WithModes.

(** *** The dirstate: [parse_dirstate] and [pack_dirstate] *)

(** A Python [dict]: its items in insertion order, each key once. *)
Definition pydict (K V : Type) : Type := list (K * V).

(** [d.get(k)] *)
Fixpoint dict_get {K V : Type} `{EqDecision K} (k : K) (d : pydict K V)
  : option V :=
  match d with
  | [] => None
  | (k', v) :: d' => if decide (k' = k) then Some v else dict_get k d'
  end.

(** [d[k] = v]: the value of a key that is present is replaced where it
    stands, a new key goes to the end. *)
Fixpoint dict_set {K V : Type} `{EqDecision K} (k : K) (v : V) (d : pydict K V)
  : pydict K V :=
  match d with
  | [] => [(k, v)]
  | (k', v') :: d' =>
      if decide (k' = k) then (k, v) :: d' else (k', v') :: dict_set k v d'
  end.

(** [f.split(sep)] for a separator of one byte. *)
Fixpoint bytes_split (sep : byte) (f : bytes) : list bytes :=
  match f with
  | [] => [[]]
  | b :: f' =>
      if decide (b = sep) then [] :: bytes_split sep f'
      else
        match bytes_split sep f' with
        | p :: ps => (b :: p) :: ps
        | [] => [[b]]
        end
  end.

(** The format character [l]: in standard-size mode a signed integer of
    4 bytes, as [i]. *)
Definition fmt_l : code := fmt_i.

(** [b">cllll"]: state, mode, size, mtime and the length of the name. *)
Definition dirstate_format : list code := [fmt_c; fmt_l; fmt_l; fmt_l; fmt_l].

(** A dirstate entry [(state, mode, size, mtime)]. *)
Definition dirstate_entry : Type := bytes * Z * Z * Z.

(** [dirstatetuple] *)
Definition dirstatetuple (state : bytes) (mode size mtime : Z) : dirstate_entry :=
  (state, mode, size, mtime).

(** The [while] loop of [parse_dirstate]; [None] when the fuel runs out.
    The two dictionaries are returned as the loop leaves them, on both
    outcomes. *)
Fixpoint parse_dirstate_loop (fuel : nat) (st : bytes) (pos1 : Z)
  (dmap : pydict bytes dirstate_entry) (copymap : pydict bytes bytes)
  : option (result unit * (pydict bytes dirstate_entry * pydict bytes bytes)) :=
  match fuel with
  | O => None
  | S fuel' =>
      let e_size := Z.of_nat (calcsize dirstate_format) in
      let l := len st in
      if pos1 <? l then
        let pos2 := pos1 + e_size in
        match unpack dirstate_format (slice st pos1 pos2) with
        | Raise e => Some (Raise e, (dmap, copymap))
        | Ok [VBytes e0; VInt e1; VInt e2; VInt e3; VInt e4] =>
            let pos1 := pos2 + e4 in
            let f := slice st pos2 pos1 in
            if bool_decide (x00 ∈ f) then
              match bytes_split x00 f with
              | [f; c] =>
                  parse_dirstate_loop fuel' st pos1
                    (dict_set f (e0, e1, e2, e3) dmap) (dict_set f c copymap)
              | _ => Some (Raise ValueError, (dmap, copymap))
              end
            else
              parse_dirstate_loop fuel' st pos1
                (dict_set f (e0, e1, e2, e3) dmap) copymap
        | Ok _ => Some (Raise TypeError, (dmap, copymap))
        end
      else Some (Ok tt, (dmap, copymap))
  end.

(** [parse_dirstate]: the two parents, with [dmap] and [copymap] filled. *)
Definition parse_dirstate (fuel : nat) (dmap : pydict bytes dirstate_entry)
  (copymap : pydict bytes bytes) (st : bytes)
  : option (result (list bytes)
            * (pydict bytes dirstate_entry * pydict bytes bytes)) :=
  let parents := [slice_to st 20; slice st 20 40] in
  match parse_dirstate_loop fuel st 40 dmap copymap with
  | None => None
  | Some (Raise e, s) => Some (Raise e, s)
  | Some (Ok _, s) => Some (Ok parents, s)
  end.

(** The entry [pack_dirstate] writes for [e]: an entry of state [n] last
    modified at [now] loses its mtime. *)
Definition invalidated (now : Z) (e : dirstate_entry) : dirstate_entry :=
  let '(e0, e1, e2, e3) := e in
  if bool_decide (e0 = [x6e]) && (e3 =? now) then dirstatetuple e0 e1 e2 (-1)
  else e.

(** The body of the [for] loop of [pack_dirstate] over the items of
    [dmap]; the state is [dmap], the value what was written so far. *)
Fixpoint pack_dirstate_loop (items : list (bytes * dirstate_entry))
  (copymap : pydict bytes bytes) (now : Z) (cs : bytes)
  : M (pydict bytes dirstate_entry) bytes :=
  match items with
  | [] => ret cs
  | (f, e) :: items' =>
      let '(e0, e1, e2, e3) := e in
      e <- (if bool_decide (e0 = [x6e]) && (e3 =? now) then
              let e := dirstatetuple e0 e1 e2 (-1) in
              modify (dict_set f e) ;;; ret e
            else ret e) ;;
      let '(e0, e1, e2, e3) := e in
      let f :=
        match dict_get f copymap with
        | Some c => f ++ [x00] ++ c
        | None => f
        end in
      e <- lift (pack dirstate_format
                   [VBytes e0; VInt e1; VInt e2; VInt e3; VInt (len f)]) ;;
      pack_dirstate_loop items' copymap now (cs ++ e ++ f)
  end.

(** [pack_dirstate]; [now] is the integer [int(now)]. *)
Definition pack_dirstate (copymap : pydict bytes bytes) (pl : list bytes)
  (now : Z) : M (pydict bytes dirstate_entry) bytes :=
  dmap <- get ;;
  pack_dirstate_loop dmap copymap now (concat pl).

(** The name [pack_dirstate] writes for [f]: the copy source follows it. *)
Definition written_name (copymap : pydict bytes bytes) (f : bytes) : bytes :=
  match dict_get f copymap with
  | Some c => f ++ [x00] ++ c
  | None => f
  end.

(** The records [pack_dirstate] writes for a list of items. *)
Fixpoint dirstate_records (copymap : pydict bytes bytes)
  (items : list (bytes * dirstate_entry)) : result bytes :=
  match items with
  | [] => Ok []
  | (f, (e0, e1, e2, e3)) :: items' =>
      (hdr <~ pack dirstate_format
                [VBytes e0; VInt e1; VInt e2; VInt e3;
                 VInt (len (written_name copymap f))] ;;
       rest <~ dirstate_records copymap items' ;;
       Ok (hdr ++ written_name copymap f ++ rest))
  end.

(** The items of [dmap] as [pack_dirstate] leaves them. *)
Definition invalidated_items (now : Z) (dmap : pydict bytes dirstate_entry)
  : pydict bytes dirstate_entry :=
  map (fun kv => (kv.1, invalidated now kv.2)) dmap.

(** The copies of the files of [dmap], in the order of [dmap]. *)
Definition tracked_copies (dmap : pydict bytes dirstate_entry)
  (copymap : pydict bytes bytes) : pydict bytes bytes :=
  omap (fun kv => match dict_get kv.1 copymap with
                  | Some c => Some (kv.1, c)
                  | None => None
                  end) dmap.

(** What [pack_dirstate] can write and [parse_dirstate] read back: the
    state is one byte, the numbers have the width of [l], no name holds a
    NUL byte, and the written name has a length that [l] can hold. *)
Definition packable (copymap : pydict bytes bytes)
  (item : bytes * dirstate_entry) : Prop :=
  let '(f, (e0, e1, e2, e3)) := item in
  length e0 = 1%nat /\ is_i e1 /\ is_i e2 /\ is_i e3
  /\ (x00 ∉ f)
  /\ (forall c : bytes, dict_get f copymap = Some c -> (x00 ∉ c))
  /\ len (written_name copymap f) <= 2147483647.

End parsers.

(** ** [mercurial/revlogutils/docket.py] *)

Module docket.

Local Open Scope py_scope.

(** [S_HEADER = struct.Struct(constants.INDEX_HEADER.format + 'BBLLLLc')] *)
Definition S_HEADER : Struct :=
  mkStruct (format INDEX_HEADER ++ [fmt_B; fmt_B; fmt_L; fmt_L; fmt_L; fmt_L; fmt_c]).

(** The attributes of a [RevlogDocket].  Arguments whose default is [None]
    are options. *)
Record RevlogDocket : Type := mkDocket {
  _version_header : option Z;
  _read_only : bool;
  _dirty : bool;
  _radix : string;
  _path : string;
  _index_uuid : option bytes;
  _data_uuid : option bytes;
  _initial_index_end : Z;
  _pending_index_end : Z;
  _initial_data_end : Z;
  _pending_data_end : Z;
  _index_end : Z;
  _data_end : Z;
  default_compression_header : option bytes
}.

(** What the docket needs of its revlog: [radix] and [_docket_file]. *)
Record revlog_ref : Type := mkRevlogRef {
  radix : string;
  _docket_file : string
}.

(** The collaborators of [write]: the files reachable through the opener
    and the backups registered with the transaction, as
    [(path, location)]. *)
Record world : Type := mkWorld {
  files : gmap string bytes;
  backups : list (string * string)
}.

(** [RevlogDocket.__init__] *)
Definition RevlogDocket__init__ (revlog : revlog_ref) (use_pending : bool)
  (version_header : option Z) (index_uuid data_uuid : option bytes)
  (index_end pending_index_end data_end pending_data_end : Z)
  (default_compression_header : option bytes) : result RevlogDocket :=
  if negb (index_end <=? pending_index_end) then Raise AssertionError
  else if negb (data_end <=? pending_data_end) then Raise AssertionError
  else
    Ok (mkDocket version_header use_pending false (radix revlog)
                 (_docket_file revlog) index_uuid data_uuid
                 index_end pending_index_end data_end pending_data_end
                 (if use_pending then pending_index_end else index_end)
                 (if use_pending then pending_data_end else data_end)
                 default_compression_header).

Definition set_index_end_dirty (n : Z) (dirty : bool) (d : RevlogDocket) : RevlogDocket :=
  mkDocket (_version_header d) (_read_only d) dirty (_radix d) (_path d)
           (_index_uuid d) (_data_uuid d) (_initial_index_end d)
           (_pending_index_end d) (_initial_data_end d) (_pending_data_end d)
           n (_data_end d) (default_compression_header d).

Definition set_data_end_dirty (n : Z) (dirty : bool) (d : RevlogDocket) : RevlogDocket :=
  mkDocket (_version_header d) (_read_only d) dirty (_radix d) (_path d)
           (_index_uuid d) (_data_uuid d) (_initial_index_end d)
           (_pending_index_end d) (_initial_data_end d) (_pending_data_end d)
           (_index_end d) n (default_compression_header d).

Definition set_dirty (dirty : bool) (d : RevlogDocket) : RevlogDocket :=
  set_index_end_dirty (_index_end d) dirty d.

(** The [index_end] property and its setter. *)
Definition index_end (d : RevlogDocket) : Z := _index_end d.

Definition index_end_setter (new_size : Z) (d : RevlogDocket) : RevlogDocket :=
  if negb (new_size =? _index_end d) then set_index_end_dirty new_size true d
  else d.

(** The [data_end] property and its setter. *)
Definition data_end (d : RevlogDocket) : Z := _data_end d.

Definition data_end_setter (new_size : Z) (d : RevlogDocket) : RevlogDocket :=
  if negb (new_size =? _data_end d) then set_data_end_dirty new_size true d
  else d.

(** [len(x)] of an attribute that may be [None]. *)
Definition len_opt (x : option bytes) : result Z :=
  match x with
  | Some b => Ok (len b)
  | None => Raise TypeError
  end.

(** A field handed to [pack]: [None] is no fit for any format code. *)
Definition int_field (x : option Z) : result value :=
  match x with
  | Some z => Ok (VInt z)
  | None => Raise StructError
  end.

Definition bytes_field (x : option bytes) : result value :=
  match x with
  | Some b => Ok (VBytes b)
  | None => Raise StructError
  end.

(** The tuple [data] built by [_serialize]. *)
Definition _serialize_data (pending : bool) (d : RevlogDocket)
  : result (list value) :=
  let official_index_end := if pending then _initial_index_end d else _index_end d in
  let official_data_end := if pending then _initial_data_end d else _data_end d in
  if negb (official_data_end <=? _data_end d) then Raise AssertionError
  else
    (liu <~ len_opt (_index_uuid d) ;;
     ldu <~ len_opt (_data_uuid d) ;;
     vh <~ int_field (_version_header d) ;;
     dch <~ bytes_field (default_compression_header d) ;;
     Ok [vh; VInt liu; VInt ldu; VInt official_index_end; VInt (_index_end d);
         VInt official_data_end; VInt (_data_end d); dch]).

(** [RevlogDocket._serialize] *)
Definition _serialize (pending : bool) (d : RevlogDocket) : result bytes :=
  (data <~ _serialize_data pending d ;;
   header <~ pack (format S_HEADER) data ;;
   iu <~ match _index_uuid d with Some b => Ok b | None => Raise TypeError end ;;
   du <~ match _data_uuid d with Some b => Ok b | None => Raise TypeError end ;;
   Ok (header ++ iu ++ du)).

(** [RevlogDocket.write]; the state is the docket together with the opener's
    files and the transaction.  The file opened with [atomictemp=True]
    replaces the target when the [with] block ends normally, and is
    discarded when the block raises. *)
Definition write (pending stripping : bool) : M (RevlogDocket * world) bool :=
  s <- get ;;
  let '(self, w) := s in
  if negb (_dirty self) then ret false
  else
    if _read_only self then raise ProgrammingError
    else
      (if negb stripping
       then modify (fun '(self, w) =>
              (self, mkWorld (files w) (backups w ++ [(_path self, "store"%string)])))
       else ret tt) ;;;
      content <- lift (_serialize pending self) ;;
      modify (fun '(self, w) =>
        (self, mkWorld (<[_path self := content]> (files w)) (backups w))) ;;;
      modify (fun '(self, w) => (set_dirty pending self, w)) ;;;
      ret true.

(** [parse_docket] *)
Definition parse_docket (revlog : revlog_ref) (data : bytes) (use_pending : bool)
  : result RevlogDocket :=
  (header <~ unpack (format S_HEADER) (slice_to data (size S_HEADER)) ;;
   let offset := size S_HEADER in
   match header with
   | [VInt version_header; VInt index_uuid_size; VInt data_uuid_size;
      VInt index_size; VInt pending_index_size; VInt data_size;
      VInt pending_data_size; VBytes default_compression_header] =>
       let index_uuid := slice data offset (offset + index_uuid_size) in
       let offset := offset + index_uuid_size in
       let data_uuid := slice data offset (offset + data_uuid_size) in
       RevlogDocket__init__ revlog use_pending (Some version_header)
         (Some index_uuid) (Some data_uuid) index_size pending_index_size
         data_size pending_data_size (Some default_compression_header)
   | _ => Raise TypeError
   end).

End docket.

(** ** [mercurial/upgrade_utils/engine.py] *)

Module engine.

Local Open Scope py_scope.
Local Open Scope string_scope.

(** A virtual file system, as far as the engine uses it: [join]. *)
Record vfs : Type := mkVfs { join : string -> string }.

(** A revlog object, as far as the engine uses it: its opener, its file
    names, and the [revisionscount] entry of [storageinfo()]. *)
Record revlog : Type := mkRevlog {
  opener : vfs;
  indexfile : string;
  datafile : string;
  revisionscount : option Z
}.

(** A repository, as far as the engine uses it: [repo.svfs],
    [repo.store.rawvfs], [repo.vfs], [repo.path], [repo.spath],
    [repo.requirements], and whether [repo.currentwlock()] gives a lock. *)
Record repo : Type := mkRepo {
  svfs : vfs;
  store_rawvfs : vfs;
  repo_vfs : vfs;
  repo_path : string;
  repo_spath : string;
  repo_requirements : gset string;
  currentwlock : bool
}.

(** The delta-reuse modes of [revlog.revlog]. *)
Inductive deltareuse_mode : Type :=
| DELTAREUSEALWAYS
| DELTAREUSESAMEREVS
| DELTAREUSENEVER
| DELTAREUSEFULLADD.

(** One call of [oldrl.clone(tr, newrl, deltareuse=..., forcedeltabothparents=...)]. *)
Record clone_call : Type := mkClone {
  clone_old : revlog;
  clone_new : revlog;
  clone_deltareuse : deltareuse_mode;
  clone_forcedeltabothparents : bool
}.

(** What the engine acts on: the files, the destination's [fncache], and
    the calls of [clone] made so far. *)
Record world : Type := mkWorld {
  files : gmap string bytes;
  fncache : gset string;
  clones : list clone_call
}.

Record upgrade_operation : Type := mkUpgradeOp {
  actions : gset string;
  revlogs_to_process : gset string;
  requirements : gset string
}.

Definition UPGRADE_CHANGELOG : string := "changelog".
Definition UPGRADE_MANIFEST : string := "manifest".
Definition UPGRADE_FILELOGS : string := "all-filelogs".

Definition UPGRADE_ALL_REVLOGS : gset string :=
  {[ UPGRADE_CHANGELOG; UPGRADE_MANIFEST; UPGRADE_FILELOGS ]}.

(** [stat.S_IFREG] *)
Definition S_IFREG : Z := 32768.

(** [matchrevlog] *)
Definition matchrevlog (revlogfilter : gset string) (entry : string) : bool :=
  if endswith entry "00changelog.i" then bool_decide (UPGRADE_CHANGELOG ∈ revlogfilter)
  else if endswith entry "00manifest.i" then bool_decide (UPGRADE_MANIFEST ∈ revlogfilter)
  else bool_decide (UPGRADE_FILELOGS ∈ revlogfilter).

(** [_filterstorefile]; [srcrepo], [dstrepo], [requirements] and [st] are
    not looked at by the source. *)
Definition _filterstorefile (path : string) (mode : Z) : bool :=
  if endswith path ".i" || endswith path ".d" || endswith path ".n"
     || endswith path ".nd" then false
  else if startswith path "undo" then false
  else if negb (mode =? S_IFREG)%Z then false
  else if String.eqb path "lock" || String.eqb path "fncache" then false
  else true.

(** The choice of [deltareuse] at the head of [upgrade]. *)
Definition upgrade_deltareuse (acts : gset string) : deltareuse_mode :=
  if bool_decide ("re-delta-all" ∈ acts) then DELTAREUSENEVER
  else if bool_decide ("re-delta-parent" ∈ acts) then DELTAREUSESAMEREVS
  else if bool_decide ("re-delta-multibase" ∈ acts) then DELTAREUSESAMEREVS
  else if bool_decide ("re-delta-fulladd" ∈ acts) then DELTAREUSEFULLADD
  else DELTAREUSEALWAYS.

(** [util.copyfile(src, dest)]: the destination receives the bytes of the
    source. *)
Definition copyfile (src dest : string) : M world unit :=
  w <- get ;;
  match files w !! src with
  | Some content =>
      put (mkWorld (<[dest := content]> (files w)) (fncache w) (clones w))
  | None => raise IOError
  end.

(** [with vfs(name, b'w'): pass]: the file is created empty. *)
Definition create_empty (v : vfs) (name : string) : M world unit :=
  modify (fun w => mkWorld (<[join v name := []]> (files w)) (fncache w) (clones w)).

(** [vfs.exists(name)] *)
Definition exists_ (v : vfs) (name : string) : M world bool :=
  gets (fun w => bool_decide (is_Some (files w !! join v name))).

(** [destrepo.svfs.fncache.add(name)] *)
Definition fncache_add (name : string) : M world unit :=
  modify (fun w => mkWorld (files w) ({[ name ]} ∪ fncache w) (clones w)).

(** The order in which [sorted] puts the directory listing: by name. *)
Definition listing_le (a b : string * Z * Z) : Prop :=
  String.leb a.1.1 b.1.1 = true.

#[global] Instance listing_le_dec : RelDecision listing_le.
Proof. intros a b. unfold listing_le. apply _. Defined.

Section WithRevlogs.

(** The revlog classes opened by [_revlogfrompath]; [filelog.filelog]
    stands for the revlog it wraps ([getattr(rl, '_revlog', rl)]). *)
Variable changelog_changelog : vfs -> revlog.
Variable manifest_manifestrevlog : vfs -> string -> revlog.
Variable filelog_filelog : vfs -> string -> revlog.

(** The effect of [Revlog.clone] on the files. *)
Variable revlog_clone : clone_call -> gmap string bytes -> result (gmap string bytes).

(** [_revlogfrompath] *)
Definition _revlogfrompath (r : repo) (path : string) : revlog :=
  if String.eqb path "00changelog.i" then changelog_changelog (svfs r)
  else if endswith path "00manifest.i" then
    let mandir := strip_suffix path (String.length "00manifest.i") in
    manifest_manifestrevlog (svfs r) mandir
  else filelog_filelog (svfs r) (strip_both path 5 2).

(** [_copyrevlog] *)
Definition _copyrevlog (destrepo : repo) (oldrl : revlog) (unencodedname : string)
  : M world unit :=
  let newrl := _revlogfrompath destrepo unencodedname in
  let oldvfs := opener oldrl in
  let newvfs := opener newrl in
  let oldindex := join oldvfs (indexfile oldrl) in
  let newindex := join newvfs (indexfile newrl) in
  let olddata := join oldvfs (datafile oldrl) in
  let newdata := join newvfs (datafile newrl) in
  create_empty newvfs (indexfile newrl) ;;;
  copyfile oldindex newindex ;;;
  copydata <- exists_ (opener oldrl) (datafile oldrl) ;;
  (if copydata then copyfile olddata newdata else ret tt) ;;;
  if negb (endswith unencodedname "00changelog.i"
           || endswith unencodedname "00manifest.i")
  then
    fncache_add unencodedname ;;;
    if copydata then fncache_add (strip_suffix unencodedname 2 ++ ".d")
    else ret tt
  else ret tt.

(** [oldrl.clone(...)]: the call is recorded and its effect applied. *)
Definition do_clone (call : clone_call) : M world unit :=
  w <- get ;;
  fs <- lift (revlog_clone call (files w)) ;;
  put (mkWorld fs (fncache w) (clones w ++ [call])).

(** The first pass of [_clonerevlogs]: the total [revcount]. *)
Fixpoint _clonerevlogs_revcount (srcrepo : repo)
  (alldatafiles : list (string * string * Z)) (revcount : Z) : Z :=
  match alldatafiles with
  | [] => revcount
  | (unencoded, _, _) :: rest =>
      if endswith unencoded ".d" then _clonerevlogs_revcount srcrepo rest revcount
      else
        let rl := _revlogfrompath srcrepo unencoded in
        _clonerevlogs_revcount srcrepo rest
          (revcount + default 0 (revisionscount rl))
  end.

(** The body of the copying loop of [_clonerevlogs] for one store entry. *)
Definition _clonerevlogs_step (srcrepo dstrepo : repo)
  (deltareuse : deltareuse_mode) (forcedeltabothparents : bool)
  (revlogs : gset string) (unencoded : string) : M world unit :=
  if endswith unencoded ".d" then ret tt
  else
    let oldrl := _revlogfrompath srcrepo unencoded in
    if matchrevlog revlogs unencoded then
      let newrl := _revlogfrompath dstrepo unencoded in
      do_clone (mkClone oldrl newrl deltareuse forcedeltabothparents)
    else
      _copyrevlog dstrepo oldrl unencoded.

Fixpoint _clonerevlogs_loop (srcrepo dstrepo : repo)
  (deltareuse : deltareuse_mode) (forcedeltabothparents : bool)
  (revlogs : gset string) (alldatafiles : list (string * string * Z))
  : M world unit :=
  match alldatafiles with
  | [] => ret tt
  | (unencoded, _, _) :: rest =>
      _clonerevlogs_step srcrepo dstrepo deltareuse forcedeltabothparents
                         revlogs unencoded ;;;
      _clonerevlogs_loop srcrepo dstrepo deltareuse forcedeltabothparents
                         revlogs rest
  end.

(** [_clonerevlogs]; [alldatafiles] is [list(srcrepo.store.walk())].
    Progress bars, status lines and size statistics are left out. *)
Definition _clonerevlogs (srcrepo dstrepo : repo)
  (alldatafiles : list (string * string * Z))
  (deltareuse : deltareuse_mode) (forcedeltabothparents : bool)
  (revlogs : gset string) : M world unit :=
  let revcount := _clonerevlogs_revcount srcrepo alldatafiles 0 in
  if (revcount =? 0)%Z then ret tt
  else _clonerevlogs_loop srcrepo dstrepo deltareuse forcedeltabothparents
                          revlogs alldatafiles.

(** The loop over the other files of the store directory; an element
    of the listing is [(p, kind, st)]. *)
Fixpoint _copy_store_files (srcrepo dstrepo : repo)
  (listing : list (string * Z * Z)) : M world unit :=
  match listing with
  | [] => ret tt
  | (p, kind, st) :: rest =>
      (if negb (_filterstorefile p kind) then ret tt
       else
         let src := join (store_rawvfs srcrepo) p in
         let dst := join (store_rawvfs dstrepo) p in
         copyfile src dst) ;;;
      _copy_store_files srcrepo dstrepo rest
  end.

(** Operations that record no call of [clone], whatever their outcome. *)
Definition keeps_clones {A : Type} (m : M world A) : Prop :=
  forall w r w', m w = (r, w') -> clones w' = clones w.

(** Operations that leave the file at path [k] as it is, whatever their
    outcome. *)
Definition keeps_file (k : string) {A : Type} (m : M world A) : Prop :=
  forall w r w', m w = (r, w') -> files w' !! k = files w !! k.

(** The names of a listing that pass [_filterstorefile], in order. *)
Definition store_copies (listing : list (string * Z * Z)) : list string :=
  map (fun x => x.1.1)
      (filter (fun x => _filterstorefile x.1.1 x.1.2 = true) listing).

(** The store entries that name a revlog: those that are no [.d] file. *)
Definition revlog_entries (alldatafiles : list (string * string * Z))
  : list string :=
  filter (fun u => endswith u ".d" = false) (map (fun x => x.1.1) alldatafiles).

(** The store entries a pass of [_clonerevlogs] clones, in order. *)
Definition cloned_entries (revlogs : gset string)
  (alldatafiles : list (string * string * Z)) : list string :=
  filter (fun u => endswith u ".d" = false /\ matchrevlog revlogs u = true)
         (map (fun x => x.1.1) alldatafiles).

(** The store entries a pass of [_clonerevlogs] copies, in order. *)
Definition copied_entries (revlogs : gset string)
  (alldatafiles : list (string * string * Z)) : list string :=
  filter (fun u => endswith u ".d" = false /\ matchrevlog revlogs u = false)
         (map (fun x => x.1.1) alldatafiles).

(** The paths of the index file and of the data file of the revlog that
    [_revlogfrompath] opens for a store entry. *)
Definition index_path (r : repo) (unencoded : string) : string :=
  let rl := _revlogfrompath r unencoded in join (opener rl) (indexfile rl).

Definition data_path (r : repo) (unencoded : string) : string :=
  let rl := _revlogfrompath r unencoded in join (opener rl) (datafile rl).

(** [clone] returns, and writes no file but the index file and the data
    file of the new revlog. *)
Definition clone_writes_new_revlog : Prop :=
  forall call fs,
    exists fs',
      revlog_clone call fs = Ok fs'
      /\ (forall k,
            k <> join (opener (clone_new call)) (indexfile (clone_new call)) ->
            k <> join (opener (clone_new call)) (datafile (clone_new call)) ->
            fs' !! k = fs !! k).

(** The files of the destination revlogs of the entries are apart from the
    files of the source revlogs, an index file is no data file, and two
    entries do not share a destination file. *)
Definition revlog_paths_apart (srcrepo dstrepo : repo) (entries : list string)
  : Prop :=
  forall u u', u ∈ entries -> u' ∈ entries ->
    index_path dstrepo u <> index_path srcrepo u'
    /\ index_path dstrepo u <> data_path srcrepo u'
    /\ data_path dstrepo u <> index_path srcrepo u'
    /\ data_path dstrepo u <> data_path srcrepo u'
    /\ index_path dstrepo u <> data_path dstrepo u'
    /\ (u <> u' ->
        index_path dstrepo u <> index_path dstrepo u'
        /\ data_path dstrepo u <> data_path dstrepo u').

(** The call of [clone] that [_clonerevlogs] makes for a store entry. *)
Definition clone_of (srcrepo dstrepo : repo) (deltareuse : deltareuse_mode)
  (forcedeltabothparents : bool) (unencoded : string) : clone_call :=
  mkClone (_revlogfrompath srcrepo unencoded) (_revlogfrompath dstrepo unencoded)
          deltareuse forcedeltabothparents.

(** Operations that add to the recorded calls of [clone] only calls that
    satisfy [P], whatever their outcome. *)
Definition clones_only (P : clone_call -> Prop) {A : Type} (m : M world A)
  : Prop :=
  forall w r w', m w = (r, w') ->
    exists calls, clones w' = (clones w ++ calls)%list /\ Forall P calls.

(** *** [upgrade] *)

(** The collaborators of [upgrade] that are not part of the sources at
    hand.  Each of them acts on the files: the transaction of the
    destination repository (what entering and leaving the [with] block
    does, the flag telling whether the block raised), [pycompat.mkdtemp]
    (the directory made), [vfsmod.vfs], [scmutil.writereporequirements],
    [util.rename] and [vfs.unlink]. *)
Variable transaction_enter : repo -> gmap string bytes -> result (gmap string bytes).
Variable transaction_exit :
  repo -> bool -> gmap string bytes -> result (gmap string bytes).
Variable mkdtemp : string -> string -> gmap string bytes -> string.
Variable vfsmod_vfs : string -> vfs.
Variable writereporequirements :
  repo -> gset string -> gmap string bytes -> result (gmap string bytes).
Variable util_rename :
  string -> string -> gmap string bytes -> result (gmap string bytes).
Variable vfs_unlink : vfs -> string -> gmap string bytes -> result (gmap string bytes).

(** A call of a collaborator that acts on the files. *)
Definition fs_call (f : gmap string bytes -> result (gmap string bytes))
  : M world unit :=
  w <- get ;;
  fs <- lift (f (files w)) ;;
  put (mkWorld fs (fncache w) (clones w)).

(** [with r.transaction(b'upgrade') as tr: body].  The block is left
    through the transaction whether it raised or not; an exception of the
    block goes on after it, unless leaving raised itself. *)
Definition with_transaction {A : Type} (r : repo) (body : M world A)
  : M world A :=
  fs_call (transaction_enter r) ;;;
  fun w =>
    match body w with
    | (Ok a, w1) => (fs_call (transaction_exit r false) ;;; ret a) w1
    | (Raise e, w1) =>
        match fs_call (transaction_exit r true) w1 with
        | (Ok _, w2) => (Raise e, w2)
        | (Raise e', w2) => (Raise e', w2)
        end
    end.

(** [_finishdatamigration]: a hook point, with no action of its own. *)
Definition _finishdatamigration : M world unit := ret tt.

(** [upgrade]; [alldatafiles] is [list(srcrepo.store.walk())] and [readdir]
    is [srcrepo.store.vfs.readdir(b'', stat=True)].  The status lines and
    the timer are left out.  The value is [backuppath]. *)
Definition upgrade (srcrepo dstrepo : repo) (upgrade_op : upgrade_operation)
  (alldatafiles : list (string * string * Z))
  (readdir : list (string * Z * Z)) : M world string :=
  if negb (currentwlock srcrepo) then raise AssertionError
  else if negb (currentwlock dstrepo) then raise AssertionError
  else
    let deltareuse := upgrade_deltareuse (actions upgrade_op) in
    with_transaction dstrepo
      (_clonerevlogs srcrepo dstrepo alldatafiles deltareuse
         (bool_decide ("re-delta-multibase" ∈ actions upgrade_op))
         (revlogs_to_process upgrade_op)) ;;;
    _copy_store_files srcrepo dstrepo (merge_sort listing_le readdir) ;;;
    _finishdatamigration ;;;
    w <- get ;;
    let backuppath := mkdtemp "upgradebackup." (repo_path srcrepo) (files w) in
    let backupvfs := vfsmod_vfs backuppath in
    copyfile (join (repo_vfs srcrepo) "requires") (join backupvfs "requires") ;;;
    fs_call (writereporequirements srcrepo
               (repo_requirements srcrepo ∪ {[ "upgradeinprogress" ]})) ;;;
    fs_call (util_rename (repo_spath srcrepo) (join backupvfs "store")) ;;;
    fs_call (util_rename (repo_spath dstrepo) (repo_spath srcrepo)) ;;;
    fs_call (writereporequirements srcrepo (requirements upgrade_op)) ;;;
    fs_call (vfs_unlink backupvfs "store/lock") ;;;
    ret backuppath.

End WithRevlogs.

End engine.

(** ** Concrete values used to exercise the definitions *)

Module samples.

Import parsers.

Definition sample_modes : CompModes := {| COMP_MODE_INLINE := 2 |}.

Definition sample_node : bytes :=
  [x01; x02; x03; x04; x05; x06; x07; x08; x09; x0a;
   x0b; x0c; x0d; x0e; x0f; x10; x11; x12; x13; x14].

Definition other_node : bytes :=
  [x21; x22; x23; x24; x25; x26; x27; x28; x29; x2a;
   x2b; x2c; x2d; x2e; x2f; x30; x31; x32; x33; x34].

Definition sample_entry_v1 : entry :=
  mkEntry 65537 11 30 0 0 (-1) (-1) sample_node 0 0 2 2.

Definition other_entry_v1 : entry :=
  mkEntry 4915201 12 40 0 1 0 (-1) other_node 0 0 2 2.

Definition sample_entry_v2 : entry :=
  mkEntry 65537 11 30 0 0 (-1) (-1) sample_node 640 17 1 3.

Definition packed (r : result bytes) : bytes :=
  match r with
  | Ok b => b
  | Raise _ => []
  end.

Definition sample_record_v1 : bytes :=
  Eval vm_compute in packed (_pack_entry_v1 sample_entry_v1).

Definition other_record_v1 : bytes :=
  Eval vm_compute in packed (_pack_entry_v1 other_entry_v1).

Definition sample_record_v2 : bytes :=
  Eval vm_compute in packed (_pack_entry_v2 sample_entry_v2).

(** A split v1 index of two revisions. *)
Definition sample_index : index :=
  mkIndex IndexObject (sample_record_v1 ++ other_record_v1) 2 [] [] None.

(** A split v1 index whose two revisions carry the same node. *)
Definition twin_index : index :=
  mkIndex IndexObject (sample_record_v1 ++ sample_record_v1) 2 [] [] None.

(** A split v1 index of one all-zero record. *)
Definition zero_index : index :=
  mkIndex IndexObject (replicate 64 x00) 1 [] [] None.

(** A v2 index with one revision appended in memory. *)
Definition sample_index_v2 : index :=
  mkIndex IndexObject2 [] 0 [sample_record_v2] [] None.

(** An inline v1 index of two revisions: a record announcing 3 bytes of
    payload, the payload, and a record announcing none. *)
Definition inline_entry_3 : entry :=
  mkEntry 65536 3 3 0 0 (-1) (-1) sample_node 0 0 2 2.

Definition inline_entry_0 : entry :=
  mkEntry 4390912 0 0 1 1 0 (-1) other_node 0 0 2 2.

Definition sample_inline_data : bytes :=
  Eval vm_compute in
    packed (_pack_entry_v1 inline_entry_3) ++ [x75; x61; x62]
    ++ packed (_pack_entry_v1 inline_entry_0).

(** One inline v1 record whose compressed length field holds -64. *)
Definition looping_inline_data : bytes :=
  replicate 8 x00 ++ [xff; xff; xff; xc0] ++ replicate 52 x00.

Import docket.

Definition sample_revlog : revlog_ref :=
  mkRevlogRef "00changelog" "00changelog.i".

Definition sample_index_uuid : bytes := [x30; x31; x32; x33; x34; x35; x36; x37].
Definition sample_data_uuid : bytes := [x61; x62; x63; x64; x65; x66; x67; x68].

(** A docket as [parse_docket] builds it, ends [640 <= 640] and
    [4096 <= 4096]. *)
Definition sample_docket (use_pending : bool) : RevlogDocket :=
  mkDocket (Some 57347) use_pending false "00changelog" "00changelog.i"
           (Some sample_index_uuid) (Some sample_data_uuid)
           640 640 4096 4096 640 4096 (Some [x75]).

Definition empty_world : world := mkWorld ∅ [].

(** The docket after the index was cut back to 320 bytes. *)
Definition cut_docket : RevlogDocket := index_end_setter 320 (sample_docket false).

Definition cut_docket_content : bytes :=
  Eval vm_compute in packed (_serialize true cut_docket).

(** A v1 entry that [_pack_entry] refuses: its sidedata offset is not 0. *)
Definition unpackable_entry_v1 : entry :=
  mkEntry 8388608 12 40 1 2 1 (-1) other_node 1 0 2 2.

(** The sample index once its node map was computed. *)
Definition sample_nodemap : gmap bytes Z :=
  <[other_node := 1]> (<[sample_node := 0]> {[ nullid := nullrev ]}).

Definition cached_index : index := set_nodemap (Some sample_nodemap) sample_index.

(** The docket after the index grew to 704 bytes. *)
Definition grown_docket : RevlogDocket := index_end_setter 704 (sample_docket false).

Definition grown_docket_pending : bytes :=
  Eval vm_compute in packed (_serialize true grown_docket).

Definition grown_docket_final : bytes :=
  Eval vm_compute in packed (_serialize false grown_docket).

(** The grown docket once a final write has made it clean, and the index
    grown again to 768 bytes. *)
Definition regrown_docket : RevlogDocket :=
  index_end_setter 768 (set_dirty false grown_docket).

Definition regrown_docket_pending : bytes :=
  Eval vm_compute in packed (_serialize true regrown_docket).

(** A dirstate of three files: [a], clean and last modified at the time
    of writing, [b], copied from [a], and [c], added. *)
Definition sample_now : Z := 1700000000.

Definition sample_dmap : pydict bytes dirstate_entry :=
  [([x61], ([x6e], 33188, 5, 1700000000));
   ([x62], ([x6e], 33188, 7, 1600000000));
   ([x63], ([x61], 0, -1, -1))].

Definition sample_copymap : pydict bytes bytes := [([x62], [x61])].

Definition sample_p1 : bytes := replicate 20 x11.
Definition sample_p2 : bytes := replicate 20 x00.

(** A dirstate whose first record announces a name of [-17] bytes. *)
Definition looping_dirstate : bytes :=
  replicate 40 x00 ++ [x6e] ++ replicate 12 x00 ++ [xff; xff; xff; xef].

End samples.

Module engine_samples.

Import engine.
Local Open Scope string_scope.

Definition src_vfs : vfs := mkVfs (fun p => "src/" ++ p).
Definition dst_vfs : vfs := mkVfs (fun p => "dst/" ++ p).

Definition sample_srcrepo : repo :=
  mkRepo src_vfs src_vfs (mkVfs (fun p => "repo/" ++ p)) "repo" "src"
         {[ "revlogv1" ]} true.
Definition sample_dstrepo : repo :=
  mkRepo dst_vfs dst_vfs (mkVfs (fun p => "tmp/" ++ p)) "tmp" "dst"
         {[ "revlogv2" ]} true.

Definition sample_changelog (v : vfs) : revlog :=
  mkRevlog v "00changelog.i" "00changelog.d" (Some 3%Z).

Definition sample_manifest (v : vfs) (tree : string) : revlog :=
  mkRevlog v (tree ++ "00manifest.i") (tree ++ "00manifest.d") (Some 3%Z).

(** File logs that report [revs] revisions each. *)
Definition sample_filelog (revs : Z) (v : vfs) (name : string) : revlog :=
  mkRevlog v ("data/" ++ name ++ ".i") ("data/" ++ name ++ ".d") (Some revs).

Definition sample_clone (call : clone_call) (fs : gmap string bytes)
  : result (gmap string bytes) := Ok fs.

(** A store with one file log of two revisions and one other file. *)
Definition sample_store : world :=
  mkWorld (<["src/data/a.i" := [x01; x02]]> (<["src/phaseroots" := [x03]]> ∅)) ∅ [].

(** A store whose only file log is empty. *)
Definition empty_store : world :=
  mkWorld (<["src/data/a.i" := []]> ∅) ∅ [].

Definition sample_op : upgrade_operation :=
  mkUpgradeOp {[ "re-delta-parent" ]} {[ UPGRADE_CHANGELOG ]} ∅.

Definition sample_datafiles : list (string * string * Z) :=
  [("data/a.i", "data/a.i", 2%Z)].

(** A store with a changelog and one file log that has a data file. *)
Definition full_store : world :=
  mkWorld (<["src/00changelog.i" := [x04]]>
             (<["src/data/a.i" := [x01; x02]]>
                (<["src/data/a.d" := [x05]]> ∅))) ∅ [].

Definition full_datafiles : list (string * string * Z) :=
  [("00changelog.i", "00changelog.i", 3%Z); ("data/a.i", "data/a.i", 2%Z);
   ("data/a.d", "data/a.d", 5%Z)].

Definition sample_readdir : list (string * Z * Z) :=
  [("phaseroots", S_IFREG, 1%Z); ("lock", S_IFREG, 0%Z);
   ("undo.backupfiles", S_IFREG, 0%Z); ("data", 16384%Z, 0%Z);
   ("00changelog.i", S_IFREG, 64%Z)].

End engine_samples.

(** * Properties *)

Module struct_facts.

Lemma Z_of_byte_range (b : byte) : 0 <= Z_of_byte b < 256.
Proof.
  unfold Z_of_byte. pose proof (Byte.to_N_bounded b). lia.
Qed.

Lemma Z_of_byte_of_Z (z : Z) : Z_of_byte (byte_of_Z z) = z mod 256.
Proof.
  unfold byte_of_Z, Z_of_byte.
  assert (Hr : 0 <= z mod 256 < 256) by (apply Z.mod_pos_bound; lia).
  destruct (Byte.of_N (Z.to_N (z mod 256))) as [b|] eqn:E.
  - apply Byte.to_of_N in E. rewrite E. lia.
  - exfalso.
    assert (Hn : (Z.to_N (z mod 256) < 256)%N) by lia.
    destruct (Byte.of_N (Z.to_N (z mod 256))) eqn:E'; [congruence|].
    clear E. revert E'. generalize (Z.to_N (z mod 256)) Hn. intros n Hn'.
    destruct (N.ltb_spec n 256) as [Hlt|]; [|lia].
    intros E'. pose proof (Byte.of_N_None_iff n) as Hi. apply Hi in E'. lia.
Qed.

Lemma byte_of_Z_of_byte (b : byte) : byte_of_Z (Z_of_byte b) = b.
Proof.
  unfold byte_of_Z. rewrite Z.mod_small by apply Z_of_byte_range.
  unfold Z_of_byte. rewrite N2Z.id, Byte.of_to_N. reflexivity.
Qed.

Lemma be_decode_snoc (l : bytes) (b : byte) :
  be_decode (l ++ [b]) = be_decode l * 256 + Z_of_byte b.
Proof. unfold be_decode. rewrite fold_left_app. reflexivity. Qed.

Lemma length_be_encode (n : nat) (v : Z) : length (be_encode n v) = n.
Proof.
  revert v. induction n as [|n IH]; intros v; simpl; [reflexivity|].
  rewrite length_app, IH. simpl. lia.
Qed.

Lemma be_decode_encode (n : nat) (v : Z) :
  be_decode (be_encode n v) = v mod 2 ^ (8 * Z.of_nat n).
Proof.
  revert v. induction n as [|n IH]; intros v.
  - simpl. rewrite Z.mod_1_r. reflexivity.
  - cbn [be_encode]. rewrite be_decode_snoc, IH, Z_of_byte_of_Z.
    replace (8 * Z.of_nat (S n)) with (8 + 8 * Z.of_nat n) by lia.
    rewrite Z.pow_add_r by lia. change (2 ^ 8) with 256.
    rewrite Z.mod_mod by lia.
    rewrite (Z.rem_mul_r v 256 (2 ^ (8 * Z.of_nat n))) by lia. lia.
Qed.

Lemma be_decode_range (bs : bytes) :
  0 <= be_decode bs < 2 ^ (8 * Z.of_nat (length bs)).
Proof.
  induction bs as [|b bs IH] using rev_ind.
  - change (0 <= 0 < 1). lia.
  - rewrite be_decode_snoc, length_app. simpl length.
    replace (8 * Z.of_nat (length bs + 1)) with (8 + 8 * Z.of_nat (length bs)) by lia.
    rewrite Z.pow_add_r by lia. change (2 ^ 8) with 256.
    pose proof (Z_of_byte_range b). lia.
Qed.


Lemma pow2_split (n : nat) :
  2 ^ (8 * Z.of_nat (S n)) = 2 * 2 ^ (8 * Z.of_nat (S n) - 1).
Proof.
  rewrite <- Z.pow_succ_r by lia. f_equal. lia.
Qed.

Lemma unpack_pack_int (n : nat) (signed : bool) (v : Z) :
  int_min n signed <= v <= int_max n signed ->
  unpack_int signed (be_encode n (v mod 2 ^ (8 * Z.of_nat n))) = v.
Proof.
  intros Hv. unfold unpack_int.
  rewrite be_decode_encode, length_be_encode, Z.mod_mod
    by (apply Z.pow_nonzero; lia).
  unfold int_min, int_max in Hv. destruct signed; simpl.
  - destruct n as [|n].
    + simpl in Hv. lia.
    + pose proof (pow2_split n) as Hp.
      assert (0 < 2 ^ (8 * Z.of_nat (S n) - 1)) by (apply Z.pow_pos_nonneg; lia).
      destruct (Z_lt_le_dec v 0) as [Hneg|Hpos].
      * replace (v mod 2 ^ (8 * Z.of_nat (S n)))
          with (v + 2 ^ (8 * Z.of_nat (S n))).
        -- destruct (Z.leb_spec (2 ^ (8 * Z.of_nat (S n) - 1))
                                (v + 2 ^ (8 * Z.of_nat (S n)))); lia.
        -- symmetry. rewrite <- (Z_mod_plus_full _ 1).
           rewrite Z.mul_1_l. apply Z.mod_small. lia.
      * rewrite Z.mod_small by lia.
        destruct (Z.leb_spec (2 ^ (8 * Z.of_nat (S n) - 1)) v); lia.
  - apply Z.mod_small. lia.
Qed.

Lemma unpack_int_range (signed : bool) (bs : bytes) :
  (1 <= length bs)%nat ->
  int_min (length bs) signed <= unpack_int signed bs <= int_max (length bs) signed.
Proof.
  intros Hl. unfold unpack_int, int_min, int_max.
  pose proof (be_decode_range bs) as Hr.
  destruct (length bs) as [|n] eqn:El; [lia|].
  pose proof (pow2_split n) as Hp.
  destruct signed; simpl; [|lia].
  destruct (Z.leb_spec (2 ^ (8 * Z.of_nat (S n) - 1)) (be_decode bs)); lia.
Qed.

Lemma pack_int_fits (n : nat) (signed : bool) (v : Z) :
  int_min n signed <= v <= int_max n signed ->
  pack_int n signed v = Ok (be_encode n (v mod 2 ^ (8 * Z.of_nat n))).
Proof.
  intros Hv. unfold pack_int.
  destruct (Z.leb_spec (int_min n signed) v); [|lia].
  destruct (Z.leb_spec v (int_max n signed)); [|lia].
  reflexivity.
Qed.

Lemma pack_int_ok (n : nat) (signed : bool) (v : Z) (bs : bytes) :
  pack_int n signed v = Ok bs ->
  int_min n signed <= v <= int_max n signed.
Proof.
  unfold pack_int.
  destruct (Z.leb_spec (int_min n signed) v);
    destruct (Z.leb_spec v (int_max n signed)); simpl; intros E;
    try discriminate; lia.
Qed.

Lemma int_code_size (c : code) (n : nat) (signed : bool) :
  int_code c = Some (n, signed) -> code_size c = n /\ (1 <= n)%nat.
Proof. destruct c; simpl; intros E; inversion E; subst; lia. Qed.

Lemma int_code_unpack_one (c : code) (n : nat) (signed : bool) (bs : bytes) :
  int_code c = Some (n, signed) ->
  unpack_one c bs = Some (VInt (unpack_int signed bs)).
Proof. destruct c; simpl; intros E; inversion E; subst; reflexivity. Qed.

Lemma pack_one_fits (c : code) (v : value) :
  fits c v ->
  exists bs, pack_one c v = Ok bs /\ length bs = code_size c
             /\ unpack_one c bs = Some v.
Proof.
  unfold fits. destruct (int_code c) as [[n signed]|] eqn:Ec.
  - destruct v as [z|b]; [|tauto]. intros Hz.
    exists (be_encode n (z mod 2 ^ (8 * Z.of_nat n))).
    destruct (int_code_size _ _ _ Ec) as [Hs _].
    split; [|split].
    + destruct c; simpl in Ec; try discriminate; simpl; rewrite ?Ec;
        inversion Ec; subst; apply pack_int_fits; assumption.
    + rewrite length_be_encode. congruence.
    + rewrite (int_code_unpack_one _ _ _ _ Ec). f_equal. f_equal.
      apply unpack_pack_int. assumption.
  - destruct v as [z|b]; [tauto|].
    destruct c; simpl in Ec; try discriminate; try tauto; intros Hb.
    + exists b. simpl. rewrite Hb. simpl. auto.
    + exists b. simpl. split; [|split]; [|assumption|reflexivity].
      f_equal. subst n. apply take_app_length.
Qed.

Lemma pack_int_length (n : nat) (signed : bool) (v : Z) (bs : bytes) :
  pack_int n signed v = Ok bs -> length bs = n.
Proof.
  unfold pack_int.
  destruct ((int_min n signed <=? v) && (v <=? int_max n signed));
    intros E; inversion E; subst. apply length_be_encode.
Qed.

Lemma pack_one_length (c : code) (v : value) (bs : bytes) :
  pack_one c v = Ok bs -> length bs = code_size c.
Proof.
  destruct c as [| | | | | |n|n], v as [z|b]; simpl; try discriminate;
    try apply pack_int_length.
  - destruct (length b =? 1)%nat eqn:E1; intros E; inversion E; subst.
    apply Nat.eqb_eq in E1. assumption.
  - intros E; inversion E. rewrite length_take, length_app, length_replicate. lia.
Qed.

Lemma pack_length (fmt : list code) (vs : list value) (bs : bytes) :
  pack fmt vs = Ok bs -> length bs = calcsize fmt.
Proof.
  revert vs bs. induction fmt as [|c fmt IH]; intros vs bs.
  - destruct vs; simpl; intros E; inversion E. reflexivity.
  - assert (Hgen : forall v vs',
      vs = v :: vs' ->
      (b <~ pack_one c v ;; rest <~ pack fmt vs' ;; Ok (b ++ rest))%py = Ok bs ->
      length bs = calcsize (c :: fmt)).
    { intros v vs' _ E. destruct (pack_one c v) as [b|] eqn:E1; [|discriminate].
      simpl in E. destruct (pack fmt vs') as [rest|] eqn:E2; [|discriminate].
      simpl in E. inversion E; subst. rewrite length_app.
      rewrite (pack_one_length _ _ _ E1), (IH _ _ E2). reflexivity. }
    destruct c; cbn [pack]; try (destruct vs as [|v vs']; [discriminate|];
                                 apply (Hgen v vs' eq_refl)).
    destruct (pack fmt vs) as [rest|] eqn:E2; [|discriminate].
    simpl. intros E; inversion E; subst.
    rewrite length_app, length_replicate, (IH _ _ E2). reflexivity.
Qed.

Lemma unpack_items_app_one (c : code) (fmt : list code) (b rest : bytes) (v : value) :
  length b = code_size c -> unpack_one c b = Some v ->
  unpack_items (c :: fmt) (b ++ rest) = v :: unpack_items fmt rest.
Proof.
  intros Hl Hu. cbn [unpack_items]. rewrite <- Hl.
  rewrite take_app_length, drop_app_length, Hu. reflexivity.
Qed.

Lemma pack_fits (fmt : list code) (vs : list value) :
  fits_all fmt vs ->
  exists bs, pack fmt vs = Ok bs /\ length bs = calcsize fmt
             /\ unpack_items fmt bs = vs.
Proof.
  revert vs. induction fmt as [|c fmt IH]; intros vs Hf.
  - simpl in Hf. subst. exists []. auto.
  - assert (Hgen : forall v vs', vs = v :: vs' -> fits c v -> fits_all fmt vs' ->
      (forall n, c <> fmt_x n) ->
      exists bs, (b <~ pack_one c v ;; rest <~ pack fmt vs' ;; Ok (b ++ rest))%py = Ok bs
                 /\ length bs = calcsize (c :: fmt)
                 /\ unpack_items (c :: fmt) bs = vs).
    { intros v vs' -> H1 H2 _.
      destruct (pack_one_fits _ _ H1) as (b & Eb & Lb & Ub).
      destruct (IH _ H2) as (rest & Er & Lr & Ur).
      exists (b ++ rest). rewrite Eb, Er. cbn [rbind]. split; [reflexivity|].
      split; [rewrite length_app; cbn [calcsize]; lia|].
      rewrite (unpack_items_app_one _ _ _ _ _ Lb Ub), Ur. reflexivity. }
    destruct c; cbn [fits_all pack] in *;
      try (destruct vs as [|v vs']; [tauto|]; destruct Hf as [H1 H2];
           apply (Hgen v vs' eq_refl H1 H2); congruence).
    destruct (IH _ Hf) as (rest & Er & Lr & Ur).
    exists (replicate n x00 ++ rest). rewrite Er. cbn [rbind].
    split; [reflexivity|].
    split; [rewrite length_app, length_replicate; cbn [calcsize code_size]; lia|].
    cbn [unpack_items unpack_one code_size].
    replace (drop n (replicate n x00 ++ rest)) with rest; [assumption|].
    rewrite <- (length_replicate n x00) at 1. symmetry. apply drop_app_length.
Qed.

Lemma unpack_pack (fmt : list code) (vs : list value) :
  fits_all fmt vs ->
  exists bs, pack fmt vs = Ok bs /\ length bs = calcsize fmt
             /\ unpack fmt bs = Ok vs.
Proof.
  intros Hf. destruct (pack_fits _ _ Hf) as (bs & E & L & U).
  exists bs. split; [assumption|]. split; [assumption|].
  unfold unpack. rewrite L, Nat.eqb_refl, U. reflexivity.
Qed.

Lemma unpack_items_fits (fmt : list code) (bs : bytes) :
  length bs = calcsize fmt -> fits_all fmt (unpack_items fmt bs).
Proof.
  revert bs. induction fmt as [|c fmt IH]; intros bs Hl.
  - reflexivity.
  - cbn [calcsize] in Hl.
    assert (Hd : length (drop (code_size c) bs) = calcsize fmt)
      by (rewrite length_drop; lia).
    assert (Ht : length (take (code_size c) bs) = code_size c)
      by (rewrite length_take; lia).
    specialize (IH _ Hd).
    destruct (int_code c) as [[n signed]|] eqn:Ec.
    + destruct (int_code_size _ _ _ Ec) as [Hs Hn].
      cbn [unpack_items]. rewrite (int_code_unpack_one _ _ _ _ Ec).
      assert (fits c (VInt (unpack_int signed (take (code_size c) bs)))).
      { unfold fits. rewrite Ec.
        assert (Hln : length (take (code_size c) bs) = n) by congruence.
        pose proof (unpack_int_range signed (take (code_size c) bs)) as Hr.
        rewrite Hln in Hr. apply Hr. lia. }
      destruct c; simpl in Ec; try discriminate; cbn [fits_all]; auto.
    + destruct c; simpl in Ec; try discriminate; cbn [unpack_items unpack_one fits_all];
        try (split; [|assumption]; unfold fits; simpl; assumption).
      assumption.
Qed.

Lemma unpack_fits (fmt : list code) (bs : bytes) (vs : list value) :
  unpack fmt bs = Ok vs -> fits_all fmt vs /\ length bs = calcsize fmt.
Proof.
  unfold unpack. destruct (length bs =? calcsize fmt)%nat eqn:E; [|discriminate].
  apply Nat.eqb_eq in E. intros H; inversion H; subst.
  split; [apply unpack_items_fits|]; assumption.
Qed.

Lemma unpack_ok (fmt : list code) (bs : bytes) :
  length bs = calcsize fmt -> unpack fmt bs = Ok (unpack_items fmt bs).
Proof. intros E. unfold unpack. rewrite E, Nat.eqb_refl. reflexivity. Qed.

End struct_facts.

Module codec_facts.
Import struct_facts parsers samples.

Lemma fits_Q (z : Z) : fits fmt_Q (VInt z) <-> is_Q z.
Proof. reflexivity. Qed.

Lemma fits_i (z : Z) : fits fmt_i (VInt z) <-> is_i z.
Proof. reflexivity. Qed.

Lemma fits_L (z : Z) : fits fmt_L (VInt z) <-> is_L z.
Proof. reflexivity. Qed.

Lemma fits_I (z : Z) : fits fmt_I (VInt z) <-> is_L z.
Proof. reflexivity. Qed.

Lemma fits_B (z : Z) : fits fmt_B (VInt z) <-> is_B z.
Proof. reflexivity. Qed.

Lemma fits_all_v1 (e : entry) :
  fits_all (format INDEX_ENTRY_V1) (entry_values8 e) <-> wf_entry_v1 e.
Proof.
  unfold wf_entry_v1, entry_values8. cbn [format INDEX_ENTRY_V1 fits_all].
  rewrite fits_Q, !fits_i. unfold fits; cbn [int_code]. intuition.
Qed.

Lemma mode_byte_range (dm sm : Z) :
  is_B (Z.lor (Z.land dm 3) (Z.shiftl (Z.land sm 3) 2)).
Proof.
  assert (Hd : 0 <= Z.land dm 3 < 4).
  { change 3 with (Z.ones 2). rewrite Z.land_ones by lia.
    apply Z.mod_pos_bound. lia. }
  assert (Hs : 0 <= Z.land sm 3 < 4).
  { change 3 with (Z.ones 2). rewrite Z.land_ones by lia.
    apply Z.mod_pos_bound. lia. }
  unfold is_B.
  assert (Ed : Z.land dm 3 = 0 \/ Z.land dm 3 = 1 \/ Z.land dm 3 = 2 \/ Z.land dm 3 = 3) by lia.
  assert (Es : Z.land sm 3 = 0 \/ Z.land sm 3 = 1 \/ Z.land sm 3 = 2 \/ Z.land sm 3 = 3) by lia.
  destruct Ed as [-> | [-> | [-> | ->]]], Es as [-> | [-> | [-> | ->]]];
    vm_compute; split; discriminate.
Qed.

Lemma fits_all_v2 (e : entry) :
  wf_entry_v2 e ->
  fits_all (format INDEX_ENTRY_V2)
    (entry_values10 e
       ++ [VInt (Z.lor (Z.land (data_comp_mode e) 3)
                       (Z.shiftl (Z.land (sidedata_comp_mode e) 3) 2))]).
Proof.
  unfold wf_entry_v2, wf_entry_v1, entry_values10, entry_values8.
  cbn [format INDEX_ENTRY_V2 fits_all app].
  rewrite !fits_Q, !fits_i, fits_B. unfold fits; cbn [int_code].
  pose proof (mode_byte_range (data_comp_mode e) (sidedata_comp_mode e)).
  intuition.
Qed.

Lemma mode_small (m : Z) : 0 <= m <= 3 -> m = 0 \/ m = 1 \/ m = 2 \/ m = 3.
Proof. lia. Qed.

Lemma mode_bits (dm sm : Z) :
  0 <= dm <= 3 -> 0 <= sm <= 3 ->
  let b := Z.lor (Z.land dm 3) (Z.shiftl (Z.land sm 3) 2) in
  Z.land b 3 = dm /\ Z.shiftr (Z.land b (Z.shiftl 3 2)) 2 = sm
  /\ Z.land (Z.shiftr b 2) 3 = sm /\ 0 <= b <= 15.
Proof.
  intros Hd Hs.
  destruct (mode_small _ Hd) as [-> | [-> | [-> | ->]]],
           (mode_small _ Hs) as [-> | [-> | [-> | ->]]];
    vm_compute; repeat split; discriminate.
Qed.


Lemma len_length {A : Type} (l : list A) (n : nat) :
  length l = n -> len l = Z.of_nat n.
Proof. unfold len. intros ->. reflexivity. Qed.

Lemma unpack_int_single (b : byte) : unpack_int false [b] = Z_of_byte b.
Proof. unfold unpack_int, be_decode. simpl. lia. Qed.

(** The eleventh item unpacked from a v2 record is the byte at
    [comp_mode_pos]. *)
Lemma v2_mode_byte (raw : bytes) :
  length raw = calcsize (format INDEX_ENTRY_V2) ->
  exists b, raw !! comp_mode_pos = Some b
            /\ unpack_items (format INDEX_ENTRY_V2) raw !! 10%nat
               = Some (VInt (Z_of_byte b)).
Proof.
  intros Hl. change (calcsize (format INDEX_ENTRY_V2)) with 96%nat in Hl.
  destruct (lookup_lt_is_Some_2 raw comp_mode_pos) as [b Hb];
    [unfold comp_mode_pos; lia|].
  exists b. split; [assumption|].
  cbn [format INDEX_ENTRY_V2 unpack_items unpack_one code_size lookup list_lookup].
  rewrite !drop_drop. cbn [Nat.add]. change 76%nat with comp_mode_pos.
  rewrite (drop_S _ _ _ Hb). cbn [take]. rewrite unpack_int_single. reflexivity.
Qed.

Section Codec.
Context {modes : CompModes}.

Lemma pack_unpack_v1 (e : entry) :
  wf_entry_v1 e -> sidedata_offset e = 0 -> sidedata_length e = 0 ->
  exists raw, _pack_entry IndexObject e = Ok raw
    /\ len raw = entry_size IndexObject
    /\ _unpack_entry IndexObject raw
       = Ok (with_comp_modes COMP_MODE_INLINE COMP_MODE_INLINE e).
Proof.
  intros Hwf Ho Hl.
  destruct (unpack_pack _ _ (proj2 (fits_all_v1 e) Hwf)) as (raw & Ep & Lr & Eu).
  exists raw. cbn [_pack_entry _unpack_entry is_v2].
  unfold _pack_entry_v1, _unpack_entry_v1. rewrite Ho, Hl. cbn [Z.eqb negb].
  split; [assumption|]. split; [apply len_length; assumption|].
  rewrite Eu. unfold entry_values8. cbn [rbind].
  unfold with_comp_modes. rewrite Ho, Hl. reflexivity.
Qed.

Lemma pack_unpack_v2 (e : entry) :
  wf_entry_v2 e -> 0 <= data_comp_mode e <= 3 -> 0 <= sidedata_comp_mode e <= 3 ->
  exists raw b, _pack_entry IndexObject2 e = Ok raw
    /\ len raw = entry_size IndexObject2
    /\ raw !! comp_mode_pos = Some b
    /\ Z.land (Z_of_byte b) 3 = data_comp_mode e
    /\ Z.land (Z.shiftr (Z_of_byte b) 2) 3 = sidedata_comp_mode e
    /\ 0 <= Z_of_byte b <= 15
    /\ _unpack_entry IndexObject2 raw = Ok e.
Proof.
  intros Hwf Hd Hs.
  destruct (pack_fits _ _ (fits_all_v2 e Hwf)) as (raw & Ep & Lr & Eu).
  destruct (v2_mode_byte raw Lr) as (b & Hb & Hitem).
  destruct (mode_bits _ _ Hd Hs) as (B1 & B2 & B3 & B4).
  rewrite Eu in Hitem. cbn in Hitem. inversion Hitem as [Hbyte]. clear Hitem.
  exists raw, b. cbn [_pack_entry _unpack_entry is_v2].
  unfold _pack_entry_v2, _unpack_entry_v2.
  split; [assumption|]. split; [apply len_length; assumption|].
  split; [assumption|]. rewrite <- Hbyte.
  split; [assumption|]. split; [assumption|]. split; [assumption|].
  rewrite (unpack_ok _ _ Lr), Eu. unfold entry_values10, entry_values8.
  cbn [rbind app]. rewrite B1, B2. destruct e; reflexivity.
Qed.

(** C1. Encoding an index entry is inverted by decoding it.  A v1 entry
    whose sidedata offset and length are 0 is packed into a 64-byte record
    that unpacks to the same entry, with the two compression modes read as
    [COMP_MODE_INLINE].  A v2 entry whose compression modes lie in 0..3 is
    packed into a 96-byte record whose mode byte carries the data mode in
    its low 2 bits and the sidedata mode in the next 2 bits (and nothing
    above), and that unpacks to the same entry. *)
Theorem pack_entry_unpack_entry_inverse :
  (forall e : entry,
     wf_entry_v1 e -> sidedata_offset e = 0 -> sidedata_length e = 0 ->
     exists raw, _pack_entry IndexObject e = Ok raw
       /\ len raw = entry_size IndexObject
       /\ _unpack_entry IndexObject raw
          = Ok (with_comp_modes COMP_MODE_INLINE COMP_MODE_INLINE e))
  /\ (forall e : entry,
     wf_entry_v2 e -> 0 <= data_comp_mode e <= 3 ->
     0 <= sidedata_comp_mode e <= 3 ->
     exists raw b, _pack_entry IndexObject2 e = Ok raw
       /\ len raw = entry_size IndexObject2
       /\ raw !! comp_mode_pos = Some b
       /\ Z.land (Z_of_byte b) 3 = data_comp_mode e
       /\ Z.land (Z.shiftr (Z_of_byte b) 2) 3 = sidedata_comp_mode e
       /\ 0 <= Z_of_byte b <= 15
       /\ _unpack_entry IndexObject2 raw = Ok e).
Proof.
  split; [exact pack_unpack_v1 | exact pack_unpack_v2].
Qed.

End Codec.

Lemma pack_entry_unpack_entry_inverse_witness :
  (wf_entry_v1 sample_entry_v1
   /\ exists raw, _pack_entry IndexObject sample_entry_v1 = Ok raw
       /\ len raw = 64
       /\ _unpack_entry (modes := sample_modes) IndexObject raw = Ok sample_entry_v1)
  /\ (wf_entry_v2 sample_entry_v2
   /\ exists raw b, _pack_entry IndexObject2 sample_entry_v2 = Ok raw
       /\ raw !! comp_mode_pos = Some b
       /\ Z_of_byte b = 13
       /\ _unpack_entry (modes := sample_modes) IndexObject2 raw = Ok sample_entry_v2).
Proof.
  assert (W1 : wf_entry_v1 sample_entry_v1).
  { unfold wf_entry_v1, is_Q, is_i. simpl. repeat split; lia. }
  assert (W2 : wf_entry_v2 sample_entry_v2).
  { unfold wf_entry_v2, wf_entry_v1, is_Q, is_i. simpl. repeat split; lia. }
  destruct (pack_entry_unpack_entry_inverse (modes := sample_modes)) as [T1 T2].
  split.
  - split; [exact W1|].
    destruct (T1 sample_entry_v1 W1 eq_refl eq_refl) as (raw & E1 & E2 & E3).
    exists raw. split; [exact E1|]. split; [exact E2|exact E3].
  - split; [exact W2|].
    destruct (T2 sample_entry_v2 W2) as (raw & b & E1 & E2 & E3 & E4 & E5 & E6 & E7);
      [simpl; lia | simpl; lia |].
    exists raw, b. split; [exact E1|]. split; [exact E3|]. split; [|exact E7].
    simpl in E4, E5.
    assert (Hb : Z_of_byte b = 0 \/ Z_of_byte b = 1 \/ Z_of_byte b = 2 \/ Z_of_byte b = 3
                 \/ Z_of_byte b = 4 \/ Z_of_byte b = 5 \/ Z_of_byte b = 6 \/ Z_of_byte b = 7
                 \/ Z_of_byte b = 8 \/ Z_of_byte b = 9 \/ Z_of_byte b = 10 \/ Z_of_byte b = 11
                 \/ Z_of_byte b = 12 \/ Z_of_byte b = 13 \/ Z_of_byte b = 14 \/ Z_of_byte b = 15)
      by lia.
    repeat (destruct Hb as [Hb|Hb]; [rewrite Hb in E4, E5; try discriminate; try assumption|]).
    rewrite Hb in E4, E5; discriminate.
Defined.

End codec_facts.

Module index_facts.
Import struct_facts codec_facts parsers.

Lemma clamp_id (n i : Z) : 0 <= i <= n -> clamp n i = i.
Proof.
  intros Hi. unfold clamp. destruct (Z.ltb_spec i 0); lia.
Qed.

Lemma slice_length {A : Type} (l : list A) (a b : Z) :
  0 <= a -> a <= b -> b <= len l -> len (slice l a b) = b - a.
Proof.
  intros Ha Hab Hb. unfold slice, len in *.
  rewrite !clamp_id by (unfold len; lia).
  rewrite length_take, length_drop. lia.
Qed.

Lemma slice_to_take {A : Type} (l : list A) (n : Z) :
  0 <= n <= len l -> slice_to l n = take (Z.to_nat n) l.
Proof.
  intros Hn. unfold slice_to, slice.
  rewrite !clamp_id by lia. rewrite Z.sub_0_r. reflexivity.
Qed.

Lemma getitem_Ok {A : Type} (l : list A) (i : Z) :
  0 <= i < len l ->
  exists a, getitem l i = Ok a /\ l !! Z.to_nat i = Some a.
Proof.
  intros Hi. unfold getitem.
  destruct (Z.ltb_spec i 0); [lia|].
  destruct (Z.leb_spec 0 i); [|lia].
  destruct (Z.ltb_spec i (len l)); [|lia]. cbn [andb].
  destruct (lookup_lt_is_Some_2 l (Z.to_nat i)) as [a Ha]; [unfold len in *; lia|].
  exists a. rewrite Ha. auto.
Qed.

Lemma getitem_Ok_inv {A : Type} (l : list A) (i : Z) (a : A) :
  0 <= i -> getitem l i = Ok a -> i < len l /\ l !! Z.to_nat i = Some a.
Proof.
  intros Hi. unfold getitem.
  destruct (Z.ltb_spec i 0); [lia|].
  destruct (Z.leb_spec 0 i); [|lia].
  destruct (Z.ltb_spec i (len l)); cbn [andb]; [|discriminate].
  destruct (l !! Z.to_nat i) as [a'|]; [|discriminate].
  intros E; inversion E; subst. auto.
Qed.

Lemma entry_size_pos (c : index_class) : 0 < entry_size c.
Proof. destruct c; vm_compute; reflexivity. Qed.

Lemma entry_size_calcsize (c : index_class) (raw : bytes) :
  len raw = entry_size c -> length raw = calcsize (format (index_format c)).
Proof. unfold len, entry_size, size. lia. Qed.

Lemma land3_range (m : Z) : 0 <= Z.land m 3 <= 3.
Proof.
  assert (E : Z.land m 3 = m mod 4) by (apply (Z.land_ones m 2); lia).
  rewrite E. pose proof (Z.mod_pos_bound m 4). lia.
Qed.

Lemma land12_shift_range (m : Z) :
  0 <= Z.shiftr (Z.land m (Z.shiftl 3 2)) 2 <= 3.
Proof.
  replace (Z.shiftr (Z.land m (Z.shiftl 3 2)) 2) with (Z.land (Z.shiftr m 2) 3).
  - apply land3_range.
  - rewrite Z.shiftr_land. reflexivity.
Qed.

Ltac entry_proj :=
  cbn [offset_flags compressed_length uncompressed_length base_rev link_rev
       parent1_rev parent2_rev node_id sidedata_offset sidedata_length
       data_comp_mode sidedata_comp_mode] in *.

Section Index.
Context {modes : CompModes}.

(** A record of the right width always unpacks, to a well-typed entry. *)
Lemma unpack_entry_Ok (c : index_class) (raw : bytes) :
  len raw = entry_size c ->
  exists e, _unpack_entry c raw = Ok e
    /\ wf_entry_v1 e
    /\ (is_v2 c = true ->
        wf_entry_v2 e /\ 0 <= data_comp_mode e <= 3 /\ 0 <= sidedata_comp_mode e <= 3)
    /\ (is_v2 c = false ->
        sidedata_offset e = 0 /\ sidedata_length e = 0).
Proof.
  intros Hl. apply entry_size_calcsize in Hl.
  pose proof (unpack_items_fits _ _ Hl) as Hf.
  unfold _unpack_entry, index_format in *.
  destruct (is_v2 c).
  - unfold _unpack_entry_v2. rewrite (unpack_ok _ _ Hl). cbn [rbind].
    cbn [format INDEX_ENTRY_V2 unpack_items unpack_one] in *.
    cbn [fits_all] in Hf. rewrite !fits_Q, !fits_i, fits_B in Hf.
    unfold fits in Hf; cbn [int_code] in Hf.
    destruct Hf as (F0 & F1 & F2 & F3 & F4 & F5 & F6 & F7 & F8 & F9 & F10 & _).
    eexists. split; [reflexivity|].
    split; [unfold wf_entry_v1; entry_proj; eauto 10|].
    split; [|discriminate]. intros _.
    split; [unfold wf_entry_v2, wf_entry_v1; entry_proj; eauto 12|]. entry_proj.
    match type of F10 with is_B ?t => set (m := t) in * end.
    clearbody m. unfold is_B in F10.
    split.
    + apply land3_range.
    + apply land12_shift_range.
  - unfold _unpack_entry_v1. rewrite (unpack_ok _ _ Hl). cbn [rbind].
    cbn [format INDEX_ENTRY_V1 unpack_items unpack_one] in *.
    cbn [fits_all] in Hf. rewrite !fits_Q, !fits_i in Hf.
    unfold fits in Hf; cbn [int_code] in Hf.
    destruct Hf as (F0 & F1 & F2 & F3 & F4 & F5 & F6 & F7 & _).
    eexists. split; [reflexivity|].
    split; [unfold wf_entry_v1; entry_proj; eauto 10|]. split; [discriminate|].
    intros _. entry_proj. auto.
Qed.


Lemma check_index_Ok (self : index) (i : Z) :
  0 <= i < __len__ self -> _check_index self (PyInt i) = Ok i.
Proof.
  intros Hi. unfold _check_index.
  destruct (Z.ltb_spec i 0); [lia|].
  destruct (Z.geb_spec i (__len__ self)); [lia|]. reflexivity.
Qed.

Lemma check_index_inv (self : index) (i : pyobj) (k : Z) :
  _check_index self i = Ok k -> i = PyInt k /\ 0 <= k < __len__ self.
Proof.
  unfold _check_index. destruct i as [|z|b|s1 s2 s3]; try discriminate.
  destruct (Z.ltb_spec z 0); [discriminate|].
  destruct (Z.geb_spec z (__len__ self)); [discriminate|]. cbn [orb].
  intros E; inversion E; subst. split; [reflexivity|lia].
Qed.

Lemma check_index_out (self : index) (i : Z) :
  i < 0 \/ __len__ self <= i -> _check_index self (PyInt i) = Raise IndexError.
Proof.
  intros Hi. unfold _check_index.
  destruct (Z.ltb_spec i 0); [reflexivity|].
  destruct (Z.geb_spec i (__len__ self)); [reflexivity|lia].
Qed.

Lemma Forall_lookup_Z {A : Type} (P : A -> Prop) (l : list A) (i : Z) (a : A) :
  Forall P l -> l !! Z.to_nat i = Some a -> P a.
Proof.
  intros HF Hl. rewrite Forall_lookup in HF. exact (HF _ _ Hl).
Qed.

Lemma entry_data_Ok (self : index) (i : Z) :
  wf_index self -> 0 <= i < __len__ self ->
  exists raw, _entry_data self i = Ok raw /\ len raw = entry_size (cls self).
Proof.
  intros (Hlgt & Hex & Hdata) Hi. unfold _entry_data, __len__ in *.
  pose proof (entry_size_pos (cls self)) as Hpos.
  destruct (Z.geb_spec i (_lgt self)) as [Hge|Hlt].
  - destruct (getitem_Ok (_extra self) (i - _lgt self)) as (raw & E & L); [lia|].
    exists raw. split; [assumption|]. exact (Forall_lookup_Z _ _ _ _ Hex L).
  - unfold _calculate_index. destruct (is_inlined (cls self)).
    + destruct Hdata as [Hlo Hoffs].
      destruct (getitem_Ok (_offsets self) i) as (off & E & L); [lia|].
      rewrite E. cbn [rbind]. eexists. split; [reflexivity|].
      pose proof (Forall_lookup_Z _ _ _ _ Hoffs L) as [H0 H1].
      rewrite slice_length by lia. lia.
    + cbn [rbind]. eexists. split; [reflexivity|].
      rewrite slice_length by nia. lia.
Qed.

(** What [__getitem__] returns for a non-negative index, whenever it
    returns: the unpacked record, with the header bits of [offset_flags]
    masked out for revision 0 of an index that has on-disk records. *)
Lemma getitem_Ok_inv_entry (self : index) (i : Z) (r : entry) :
  0 <= i -> __getitem__ self (PyInt i) = Ok r ->
  i < __len__ self
  /\ exists raw r0,
      _entry_data self i = Ok raw
      /\ _unpack_entry (cls self) raw = Ok r0
      /\ r = (if negb (_lgt self =? 0) && (i =? 0)
              then with_offset_flags (offset_type 0 (gettype (offset_flags r0))) r0
              else r0).
Proof.
  intros Hi. unfold __getitem__.
  assert (Hm : forall (X : result entry) (Y : result entry),
             i <> -1 ->
             match i with
             | -1 => X
             | _ => Y
             end = Y).
  { intros X Y Hne. destruct i as [|p|p]; try reflexivity.
    destruct p; try reflexivity. lia. }
  rewrite Hm by lia. clear Hm.
  destruct (_check_index self (PyInt i)) as [k|] eqn:Ec; [|discriminate].
  apply check_index_inv in Ec. destruct Ec as [Ek Hk]. inversion Ek; subst k.
  cbn [rbind].
  destruct (_entry_data self i) as [raw|] eqn:Ed; [|discriminate]. cbn [rbind].
  destruct (_unpack_entry (cls self) raw) as [r0|] eqn:Eu; [|discriminate].
  cbn [rbind]. intros E. split; [lia|]. exists raw, r0.
  split; [reflexivity|]. split; [assumption|].
  destruct (negb (_lgt self =? 0) && (i =? 0)); inversion E; reflexivity.
Qed.

Lemma getitem_unfold (self : index) (i : Z) :
  0 <= i ->
  __getitem__ self (PyInt i)
  = (k <~ _check_index self (PyInt i) ;;
     data <~ _entry_data self k ;;
     r <~ _unpack_entry (cls self) data ;;
     if negb (_lgt self =? 0) && (k =? 0)
     then Ok (with_offset_flags (offset_type 0 (gettype (offset_flags r))) r)
     else Ok r)%py.
Proof.
  intros Hi. unfold __getitem__. destruct i as [|p|p]; try reflexivity.
  destruct p; try reflexivity. lia.
Qed.

(** On a coherent index every revision in range has an entry. *)
Lemma getitem_total (self : index) (i : Z) :
  wf_index self -> 0 <= i < __len__ self ->
  exists r, __getitem__ self (PyInt i) = Ok r.
Proof.
  intros Hwf Hi. rewrite getitem_unfold by lia.
  rewrite (check_index_Ok _ _ Hi). cbn [rbind].
  destruct (entry_data_Ok _ _ Hwf Hi) as (raw & Ed & Lr). rewrite Ed. cbn [rbind].
  destruct (unpack_entry_Ok _ _ Lr) as (e & Eu & _). rewrite Eu. cbn [rbind].
  destruct (negb (_lgt self =? 0) && (i =? 0)); eexists; reflexivity.
Qed.

Lemma gettype_mask (q : Z) :
  offset_type 0 (gettype q) = Z.land q 65535
  /\ Z.shiftr (offset_type 0 (gettype q)) 16 = 0
  /\ gettype (offset_type 0 (gettype q)) = gettype q.
Proof.
  unfold offset_type, gettype. rewrite Z.shiftl_0_l, Z.lor_0_l.
  split; [reflexivity|]. split.
  - assert (E : Z.land q 65535 = q mod 2 ^ 16) by (apply (Z.land_ones q 16); lia).
    rewrite E, Z.shiftr_div_pow2 by lia.
    apply Z.div_small. apply Z.mod_pos_bound. lia.
  - rewrite <- Z.land_assoc. reflexivity.
Qed.


(** A split index built from on-disk bytes is coherent, and holds one
    revision for each whole record of the input. *)
Lemma IndexObject_init_wf (c : index_class) (data : bytes) (self : index) :
  is_inlined c = false -> IndexObject__init__ c data = Ok self ->
  wf_index self /\ nodemap_consistent self /\ cls self = c
  /\ _lgt self = len data / entry_size c /\ __len__ self = _lgt self
  /\ (entry_size c <= len data -> 1 <= _lgt self).
Proof.
  intros Hc. unfold IndexObject__init__.
  pose proof (entry_size_pos c) as Hpos.
  destruct (Z.eqb_spec (len data mod entry_size c) 0) as [Hm|]; [|discriminate].
  cbn [negb]. intros E; inversion E; subst self; clear E.
  assert (Hlen : 0 <= len data) by (unfold len; lia).
  assert (Hq : 0 <= len data / entry_size c) by (apply Z.div_pos; lia).
  unfold wf_index, nodemap_consistent, __len__.
  cbn [_lgt _extra cls _data _nodemap]. rewrite Hc.
  split; [split; [exact Hq|split; [constructor|]]|].
  - pose proof (Z.mul_div_le (len data) (entry_size c) Hpos). lia.
  - split; [exact I|]. split; [reflexivity|]. split; [reflexivity|].
    split; [unfold len; cbn [length]; lia|].
    intros Hge. pose proof (Z.div_le_mono _ _ (entry_size c) Hpos Hge) as Hd.
    rewrite Z.div_same in Hd by lia. exact Hd.
Qed.

End Index.
End index_facts.

Module nodemap_facts.
Import struct_facts codec_facts index_facts parsers.

Lemma range_nil (a b : Z) : b <= a -> range a b = [].
Proof.
  intros H. unfold range. replace (Z.to_nat (b - a)) with 0%nat by lia. reflexivity.
Qed.

Lemma range_cons (a b : Z) : a < b -> range a b = a :: range (a + 1) b.
Proof.
  intros H. unfold range.
  replace (Z.to_nat (b - a)) with (S (Z.to_nat (b - (a + 1)))) by lia.
  cbn [seq map]. f_equal; [lia|].
  rewrite <- seq_shift, map_map. apply map_ext. intros k. lia.
Qed.

Lemma range_length (a b : Z) : length (range a b) = Z.to_nat (b - a).
Proof. unfold range. rewrite length_map, length_seq. reflexivity. Qed.

Lemma range_lookup (a b : Z) (k : nat) :
  (k < Z.to_nat (b - a))%nat -> range a b !! k = Some (a + Z.of_nat k).
Proof.
  intros Hk. unfold range. rewrite list_lookup_fmap.
  rewrite lookup_seq_lt by assumption. reflexivity.
Qed.

Lemma elem_of_range (a b x : Z) : x ∈ range a b <-> a <= x < b.
Proof.
  unfold range. rewrite list_elem_of_fmap. split.
  - intros (k & -> & Hk). apply elem_of_seq in Hk. lia.
  - intros Hx. exists (Z.to_nat (x - a)). split; [lia|].
    apply elem_of_seq. lia.
Qed.

Lemma range_split (a m b : Z) :
  a <= m <= b -> range a b = range a m ++ range m b.
Proof.
  intros H. remember (Z.to_nat (m - a)) as n eqn:En.
  revert a En H. induction n as [|n IH]; intros a En H.
  - assert (a = m) by lia. subst. rewrite (range_nil m m) by lia. reflexivity.
  - rewrite (range_cons a b) by lia. rewrite (range_cons a m) by lia.
    cbn [app]. f_equal. apply IH; lia.
Qed.


Lemma Forall2_exists {A B : Type} (R : A -> B -> Prop) (l : list A) :
  (forall a, a ∈ l -> exists b, R a b) -> exists bs, Forall2 R l bs.
Proof.
  induction l as [|a l IH]; intros H.
  - exists []. constructor.
  - destruct (H a) as [b Hb]; [left|].
    destruct IH as [bs Hbs]; [intros a' Ha'; apply H; right; assumption|].
    exists (b :: bs). constructor; assumption.
Qed.

Section NodeMap.
Context {modes : CompModes}.

Lemma getitem_set_nodemap (self : index) (nm : option (gmap bytes Z)) (i : pyobj) :
  __getitem__ (set_nodemap nm self) i = __getitem__ self i.
Proof. reflexivity. Qed.

Lemma entries_exist (self : index) :
  wf_index self -> exists es, entries_at self (range 0 (__len__ self)) es.
Proof.
  intros Hwf. apply Forall2_exists. intros r Hr.
  apply elem_of_range in Hr. apply getitem_total; assumption.
Qed.

Lemma fill_eq (self : index) (revs : list Z) (es : list entry) (nm : gmap bytes Z) :
  entries_at self revs es ->
  _nodemap_fill self revs nm = Ok (fill_pure nm revs es).
Proof.
  intros H. revert nm. induction H as [|r e revs es Hre _ IH]; intros nm.
  - reflexivity.
  - cbn [_nodemap_fill]. rewrite Hre. cbn [rbind]. rewrite IH. reflexivity.
Qed.

Lemma fill_Ok_entries (self : index) (revs : list Z) (nm nm' : gmap bytes Z) :
  _nodemap_fill self revs nm = Ok nm' ->
  exists es, entries_at self revs es.
Proof.
  revert nm. induction revs as [|r revs IH]; intros nm.
  - intros _. exists []. constructor.
  - cbn [_nodemap_fill].
    destruct (__getitem__ self (PyInt r)) as [e|] eqn:E; [|discriminate].
    cbn [rbind]. intros H. destruct (IH _ H) as [es Hes].
    exists (e :: es). constructor; assumption.
Qed.

Lemma fill_pure_notin (nm : gmap bytes Z) (revs : list Z) (es : list entry) (n : bytes) :
  n ∉ map node_id es -> fill_pure nm revs es !! n = nm !! n.
Proof.
  unfold fill_pure. revert nm es. induction revs as [|r revs IH]; intros nm es Hn.
  - reflexivity.
  - destruct es as [|e es]; [reflexivity|]. cbn [zip zip_with foldl].
    cbn [map] in Hn. apply not_elem_of_cons in Hn. destruct Hn as [Hne Hn].
    rewrite IH by assumption. cbn [fst snd]. apply lookup_insert_ne. congruence.
Qed.

Lemma fill_pure_in (nm : gmap bytes Z) (revs : list Z) (es : list entry)
  (k : nat) (r : Z) (e : entry) :
  NoDup (map node_id es) -> revs !! k = Some r -> es !! k = Some e ->
  fill_pure nm revs es !! node_id e = Some r.
Proof.
  unfold fill_pure. revert nm es k.
  induction revs as [|r0 revs IH]; intros nm es k Hnd Hr He; [discriminate|].
  destruct es as [|e0 es]; [discriminate|]. cbn [zip zip_with foldl fst snd].
  cbn [map] in Hnd. apply NoDup_cons in Hnd. destruct Hnd as [Hnotin Hnd].
  destruct k as [|k].
  - cbn in Hr, He. inversion Hr; inversion He; subst.
    change (foldl _ ?m (zip_with pair revs es)) with (fill_pure m revs es).
    rewrite fill_pure_notin by assumption. apply lookup_insert_eq.
  - cbn in Hr, He. eapply IH; eassumption.
Qed.

Lemma strip_pure_lookup (nm : gmap bytes Z) (es : list entry) (n : bytes) :
  strip_pure nm es !! n = if decide (n ∈ map node_id es) then None else nm !! n.
Proof.
  unfold strip_pure. revert nm. induction es as [|e es IH]; intros nm.
  - cbn [foldl map]. destruct (decide (n ∈ [])) as [Hin|]; [|reflexivity].
    apply elem_of_nil in Hin. contradiction.
  - cbn [foldl map]. rewrite IH.
    destruct (decide (n ∈ map node_id es)) as [Hin|Hnin].
    + rewrite decide_True by (right; assumption). reflexivity.
    + destruct (decide (n = node_id e)) as [->|Hne].
      * rewrite decide_True by left. apply lookup_delete_eq.
      * rewrite decide_False by (intros Hc; apply elem_of_cons in Hc; tauto).
        apply lookup_delete_ne. congruence.
Qed.

Lemma stripnodes_loop_spec (self : index) (revs : list Z) (es : list entry)
  (nm : gmap bytes Z) :
  entries_at self revs es -> NoDup (map node_id es) ->
  (forall e, e ∈ es -> is_Some (nm !! node_id e)) ->
  _stripnodes_loop revs (set_nodemap (Some nm) self)
  = (Ok tt, set_nodemap (Some (strip_pure nm es)) self).
Proof.
  intros H. revert nm. induction H as [|r e revs es Hre _ IH]; intros nm Hnd Hin.
  - reflexivity.
  - cbn [map] in Hnd. apply NoDup_cons in Hnd. destruct Hnd as [Hnotin Hnd].
    cbn [_stripnodes_loop]. unfold bind at 1, get at 1.
    unfold bind at 1, lift at 1. rewrite getitem_set_nodemap, Hre.
    unfold bind at 1, _nodemap_del, bind at 1, get at 1.
    cbn [_nodemap set_nodemap].
    destruct (Hin e) as [v Hv]; [left|]. rewrite Hv. unfold put.
    change (set_nodemap (Some (delete (node_id e) nm)) (set_nodemap (Some nm) self))
      with (set_nodemap (Some (delete (node_id e) nm)) self).
    rewrite IH; [reflexivity|assumption|].
    intros e' He'. rewrite lookup_delete_ne.
    + apply Hin. right. assumption.
    + intros Heq. apply Hnotin. rewrite Heq. apply list_elem_of_fmap.
      exists e'. split; [reflexivity|assumption].
Qed.

End NodeMap.
End nodemap_facts.

Module null_facts.
Import struct_facts codec_facts index_facts nodemap_facts parsers samples.

Section Null.
Context {modes : CompModes}.

Lemma set_nodemap_same (self : index) (nm : gmap bytes Z) :
  _nodemap self = Some nm -> set_nodemap (Some nm) self = self.
Proof. destruct self; cbn. intros ->. reflexivity. Qed.

(** The [_nodemap] property of a coherent index: the map built from the
    entries, which is then the cached one. *)
Lemma nodemap_get_spec (self : index) :
  wf_index self -> nodemap_consistent self ->
  exists es,
    entries_at self (range 0 (__len__ self)) es
    /\ let nm := fill_pure {[ nullid := nullrev ]} (range 0 (__len__ self)) es in
       _nodemap_get self = (Ok nm, set_nodemap (Some nm) self).
Proof.
  intros Hwf Hc. destruct (entries_exist self Hwf) as [es Hes].
  exists es. split; [assumption|]. cbn zeta.
  pose proof (fill_eq self _ _ {[ nullid := nullrev ]} Hes) as Hb.
  fold (_nodemap_build self) in Hb.
  unfold _nodemap_get, bind at 1, get at 1. unfold nodemap_consistent in Hc.
  destruct (_nodemap self) as [nm|] eqn:En.
  - rewrite Hb in Hc. inversion Hc; subst nm. unfold ret.
    rewrite set_nodemap_same by assumption. reflexivity.
  - unfold bind, lift, modify, ret. rewrite Hb. reflexivity.
Qed.

Lemma null_item_fields :
  offset_flags null_item = 0 /\ compressed_length null_item = 0
  /\ uncompressed_length null_item = 0 /\ base_rev null_item = -1
  /\ link_rev null_item = -1 /\ parent1_rev null_item = -1
  /\ parent2_rev null_item = -1 /\ node_id null_item = replicate 20 x00
  /\ sidedata_offset null_item = 0 /\ sidedata_length null_item = 0.
Proof. cbn. repeat split. Qed.

Lemma getitem_out_of_range (self : index) (i : Z) :
  i <> -1 -> i < 0 \/ __len__ self <= i ->
  __getitem__ self (PyInt i) = Raise IndexError.
Proof.
  intros Hne Hi. unfold __getitem__.
  assert (Hc := check_index_out self i Hi).
  destruct i as [|p|p]; try (rewrite Hc; reflexivity).
  destruct p; try (rewrite Hc; reflexivity). lia.
Qed.

Lemma null_lookup (self : index) (es : list entry) :
  no_null_entry self -> entries_at self (range 0 (__len__ self)) es ->
  fill_pure {[ nullid := nullrev ]} (range 0 (__len__ self)) es !! nullid
  = Some nullrev.
Proof.
  intros Hnn Hes. rewrite fill_pure_notin; [apply lookup_singleton_eq|].
  intros Hin. apply list_elem_of_fmap in Hin. destruct Hin as (e & Heq & He).
  apply list_elem_of_lookup in He. destruct He as [k Hk].
  destruct (Forall2_lookup_r _ _ _ _ _ Hes Hk) as (r & Hr & Hre).
  assert (Hrange : r ∈ range 0 (__len__ self))
    by (apply list_elem_of_lookup; eauto).
  apply elem_of_range in Hrange.
  exact (Hnn r e Hrange Hre (eq_sym Heq)).
Qed.

(** C9, as amended.  In a coherent index none of whose stored entries has
    the null node, the null node resolves to revision -1 through [rev],
    [has_node] and [get_rev].  In every index, item -1 is the synthetic null
    entry (offset, lengths 0; base, link and both parents -1; all-zero node)
    and any other integer outside [0, len) raises [IndexError]. *)
Theorem null_node_resolves_to_nullrev (self : index) :
  (wf_index self -> nodemap_consistent self -> no_null_entry self ->
   (rev nullid self).1 = Ok (-1)
   /\ (has_node nullid self).1 = Ok true
   /\ (get_rev nullid self).1 = Ok (Some (-1)))
  /\ __getitem__ self (PyInt (-1)) = Ok null_item
  /\ (offset_flags null_item = 0 /\ compressed_length null_item = 0
      /\ uncompressed_length null_item = 0 /\ base_rev null_item = -1
      /\ link_rev null_item = -1 /\ parent1_rev null_item = -1
      /\ parent2_rev null_item = -1 /\ node_id null_item = replicate 20 x00
      /\ sidedata_offset null_item = 0 /\ sidedata_length null_item = 0)
  /\ (forall i, i <> -1 -> i < 0 \/ __len__ self <= i ->
      __getitem__ self (PyInt i) = Raise IndexError).
Proof.
  split; [|split; [reflexivity|split; [apply null_item_fields|]]].
  - intros Hwf Hc Hnn.
    destruct (nodemap_get_spec self Hwf Hc) as (es & Hes & Hget).
    cbn zeta in Hget. pose proof (null_lookup self es Hnn Hes) as Hl.
    unfold rev, has_node, get_rev, bind. rewrite Hget, Hl. unfold ret. cbn [fst].
    split; [reflexivity|]. split; [|reflexivity].
    rewrite bool_decide_eq_true_2 by eauto. reflexivity.
  - intros i Hne Hi. apply getitem_out_of_range; assumption.
Qed.

End Null.

End null_facts.

Module strip_facts.
Import struct_facts codec_facts index_facts nodemap_facts null_facts parsers.

Lemma slice_take {A : Type} (l : list A) (n : nat) (a b : Z) :
  0 <= a -> a <= b -> b <= Z.of_nat n -> (n <= length l)%nat ->
  slice (take n l) a b = slice l a b.
Proof.
  intros Ha Hab Hb Hn. unfold slice, len.
  rewrite length_take. rewrite !clamp_id by lia.
  rewrite !take_drop_commute. rewrite take_take. f_equal. f_equal. lia.
Qed.

Lemma getitem_take {A : Type} (l : list A) (n : nat) (k : Z) :
  0 <= k < Z.of_nat n -> (n <= length l)%nat ->
  getitem (take n l) k = getitem l k.
Proof.
  intros Hk Hn.
  destruct (getitem_Ok l k) as (a & E & L); [unfold len; lia|].
  destruct (getitem_Ok (take n l) k) as (a' & E' & L');
    [unfold len; rewrite length_take; lia|].
  rewrite lookup_take_lt in L' by lia. congruence.
Qed.

Lemma drop_range (a b : Z) (n : nat) :
  drop n (range a b) = range (a + Z.of_nat n) b.
Proof.
  revert a. induction n as [|n IH]; intros a.
  - rewrite drop_0. f_equal. lia.
  - destruct (Z_lt_le_dec a b) as [Hlt|Hge].
    + rewrite (range_cons a b) by lia. cbn [drop]. rewrite IH. f_equal. lia.
    + rewrite !range_nil by lia. reflexivity.
Qed.

Lemma take_range (a b : Z) (n : nat) :
  a + Z.of_nat n <= b -> take n (range a b) = range a (a + Z.of_nat n).
Proof.
  intros Hn. rewrite (range_split a (a + Z.of_nat n) b) by lia.
  rewrite take_app_length'; [reflexivity|]. rewrite range_length. lia.
Qed.

Section Strip.
Context {modes : CompModes}.

Lemma stripped_len (self : index) (i : Z) (nm : option (gmap bytes Z)) :
  0 <= i < __len__ self -> __len__ (stripped self i nm) = i.
Proof.
  intros Hi. unfold stripped, __len__ in *.
  destruct (Z.ltb_spec i (_lgt self)).
  - destruct (is_inlined (cls self)); cbn; unfold len; cbn; lia.
  - cbn. rewrite slice_to_take by lia. unfold len in *.
    rewrite length_take. lia.
Qed.

Lemma stripped_cls (self : index) (i : Z) (nm : option (gmap bytes Z)) :
  cls (stripped self i nm) = cls self.
Proof.
  unfold stripped. destruct (i <? _lgt self); [|reflexivity].
  destruct (is_inlined (cls self)); reflexivity.
Qed.

Lemma stripped_nodemap (self : index) (i : Z) (nm : option (gmap bytes Z)) :
  _nodemap (stripped self i nm) = nm.
Proof.
  unfold stripped. destruct (i <? _lgt self); [|reflexivity].
  destruct (is_inlined (cls self)); reflexivity.
Qed.

Lemma stripped_entry_data (self : index) (i k : Z) (nm : option (gmap bytes Z)) :
  wf_index self -> 0 <= i < __len__ self -> 0 <= k < i ->
  _entry_data (stripped self i nm) k = _entry_data self k.
Proof.
  intros (Hlgt & Hex & Hdata) Hi Hk.
  pose proof (entry_size_pos (cls self)) as Hpos.
  unfold stripped, __len__ in *.
  destruct (Z.ltb_spec i (_lgt self)) as [Hlt|Hge].
  - destruct (is_inlined (cls self)) eqn:Einl.
    + destruct Hdata as [Hlo Hoffs].
      unfold _entry_data, _calculate_index. cbn [_lgt cls _offsets _data _extra].
      rewrite Einl.
      destruct (Z.geb_spec k i); [lia|]. destruct (Z.geb_spec k (_lgt self)); [lia|].
      rewrite slice_to_take by lia.
      rewrite getitem_take by (unfold len in *; lia). reflexivity.
    + unfold _entry_data, _calculate_index. cbn [_lgt cls _offsets _data _extra].
      rewrite Einl.
      destruct (Z.geb_spec k i); [lia|]. destruct (Z.geb_spec k (_lgt self)); [lia|].
      cbn [rbind]. f_equal.
      rewrite slice_to_take by nia.
      apply slice_take; unfold len in *; nia.
  - unfold _entry_data, _calculate_index. cbn [_lgt cls _offsets _data _extra].
    destruct (Z.geb_spec k (_lgt self)); [|reflexivity].
    rewrite slice_to_take by lia.
    apply getitem_take; unfold len in *; lia.
Qed.

Lemma stripped_lgt_zero (self : index) (i : Z) (nm : option (gmap bytes Z)) :
  0 < i -> 0 <= _lgt self ->
  (_lgt (stripped self i nm) =? 0) = (_lgt self =? 0).
Proof.
  intros Hi Hl. unfold stripped.
  destruct (Z.ltb_spec i (_lgt self)); [|reflexivity].
  destruct (is_inlined (cls self)); cbn [_lgt];
    destruct (Z.eqb_spec i 0); destruct (Z.eqb_spec (_lgt self) 0); lia || reflexivity.
Qed.

(** The revisions below [i] keep their entries. *)
Lemma stripped_getitem (self : index) (i k : Z) (nm : option (gmap bytes Z)) :
  wf_index self -> 0 <= i < __len__ self -> 0 <= k < i ->
  __getitem__ (stripped self i nm) (PyInt k) = __getitem__ self (PyInt k).
Proof.
  intros Hwf Hi Hk. rewrite !getitem_unfold by lia.
  rewrite !check_index_Ok by (rewrite ?stripped_len; lia). cbn [rbind].
  rewrite stripped_entry_data, stripped_cls by assumption.
  rewrite stripped_lgt_zero by (destruct Hwf; lia). reflexivity.
Qed.

Lemma delitem_rejects (key : pyobj) (self : index) :
  (forall start, key <> PySlice start (PyInt (-1)) PyNone) ->
  __delitem__ key self = (Raise ValueError, self).
Proof.
  intros Hk. unfold __delitem__.
  destruct key as [|z|b|start stop step]; try reflexivity.
  destruct stop as [|z|b|s1 s2 s3]; try reflexivity.
  destruct z as [|p|p]; try reflexivity.
  destruct p; try reflexivity.
  destruct step; try reflexivity.
  exfalso. exact (Hk start eq_refl).
Qed.

(** [__delitem__] on [i:-1], given what [_stripnodes] does. *)
Lemma delitem_run (self : index) (i : Z) (nm : option (gmap bytes Z)) :
  0 <= i < __len__ self ->
  _stripnodes i self = (Ok tt, set_nodemap nm self) ->
  __delitem__ (PySlice (PyInt i) (PyInt (-1)) PyNone) self
  = (Ok tt, stripped self i nm).
Proof.
  intros Hi Hs. unfold __delitem__.
  unfold bind at 1, get at 1. unfold bind at 1, lift at 1.
  rewrite (check_index_Ok _ _ Hi). unfold bind at 1. rewrite Hs.
  unfold bind at 1, get at 1. unfold stripped, put.
  cbn [_lgt cls _data _extra _offsets _nodemap set_nodemap set_extra].
  destruct (i <? _lgt self); [|reflexivity].
  destruct (is_inlined (cls self)); reflexivity.
Qed.

Lemma entries_functional (self : index) (revs : list Z) (es : list entry)
  (k : nat) (r : Z) (e : entry) :
  entries_at self revs es -> revs !! k = Some r ->
  __getitem__ self (PyInt r) = Ok e -> es !! k = Some e.
Proof.
  intros Hes Hr He.
  destruct (Forall2_lookup_l _ _ _ _ _ Hes Hr) as (e' & He' & Hre).
  rewrite He'. congruence.
Qed.

Lemma distinct_NoDup (self : index) (es : list entry) :
  nodes_distinct self -> entries_at self (range 0 (__len__ self)) es ->
  NoDup (map node_id es).
Proof.
  intros Hd Hes. apply NoDup_alt. intros a b n Ha Hb.
  rewrite list_lookup_fmap in Ha, Hb.
  destruct (es !! a) as [ea|] eqn:Ea; [|discriminate].
  destruct (es !! b) as [eb|] eqn:Eb; [|discriminate].
  cbn in Ha, Hb. assert (Hn : node_id ea = node_id eb) by congruence.
  clear Ha Hb.
  destruct (Forall2_lookup_r _ _ _ _ _ Hes Ea) as (ra & Hra & Hea).
  destruct (Forall2_lookup_r _ _ _ _ _ Hes Eb) as (rb & Hrb & Heb).
  assert (La : (a < Z.to_nat (__len__ self - 0))%nat).
  { rewrite <- range_length. eapply lookup_lt_Some; eassumption. }
  assert (Lb : (b < Z.to_nat (__len__ self - 0))%nat).
  { rewrite <- range_length. eapply lookup_lt_Some; eassumption. }
  rewrite range_lookup in Hra, Hrb by assumption.
  inversion Hra; inversion Hrb; subst.
  assert (0 + Z.of_nat a = 0 + Z.of_nat b); [|lia].
  apply (Hd _ _ ea eb); try assumption; lia.
Qed.


Lemma nodemap_get_cached (self : index) (nm : gmap bytes Z) :
  _nodemap self = Some nm -> _nodemap_get self = (Ok nm, self).
Proof.
  intros E. unfold _nodemap_get, bind, get. rewrite E. reflexivity.
Qed.

Lemma lookups_of_nodemap (self : index) (nm : gmap bytes Z) (self' : index)
  (n : bytes) :
  _nodemap_get self = (Ok nm, self') -> nm !! n = None ->
  (has_node n self).1 = Ok false
  /\ (rev n self).1 = Raise RevlogError
  /\ (get_rev n self).1 = Ok None.
Proof.
  intros Hg Hn. unfold has_node, rev, get_rev, bind. rewrite Hg, Hn.
  unfold ret, raise. cbn [fst]. split; [|split; reflexivity].
  rewrite bool_decide_eq_false_2; [reflexivity|].
  intros [x Hx]. discriminate.
Qed.

(** After [del index[i:-1]] the node of a stripped revision is unknown,
    whether the node map was cached before or is rebuilt afterwards. *)
Lemma stripped_node_unknown (self : index) (i : Z) (es : list entry) :
  wf_index self -> nodemap_consistent self -> nodes_distinct self ->
  no_null_entry self -> 0 <= i < __len__ self ->
  entries_at self (range 0 (__len__ self)) es ->
  exists nm' : option (gmap bytes Z),
    _stripnodes i self = (Ok tt, set_nodemap nm' self)
    /\ forall k e, i <= k < __len__ self -> __getitem__ self (PyInt k) = Ok e ->
       exists nm self'',
         _nodemap_get (stripped self i nm') = (Ok nm, self'')
         /\ nm !! node_id e = None.
Proof.
  intros Hwf Hc Hd Hnn Hi Hes.
  pose proof (distinct_NoDup self es Hd Hes) as Hnd.
  assert (Hlen : length es = Z.to_nat (__len__ self)).
  { rewrite <- (Forall2_length _ _ _ Hes), range_length. f_equal. lia. }
  (* the entries of the stripped revisions, and of the kept ones *)
  assert (Hsuf : entries_at self (range i (__len__ self)) (drop (Z.to_nat i) es)).
  { replace (range i (__len__ self))
      with (drop (Z.to_nat i) (range 0 (__len__ self)))
      by (rewrite drop_range; f_equal; lia).
    apply Forall2_drop. assumption. }
  assert (Hpre : entries_at self (range 0 i) (take (Z.to_nat i) es)).
  { replace (range 0 i) with (take (Z.to_nat i) (range 0 (__len__ self)))
      by (rewrite take_range by lia; f_equal; lia).
    apply Forall2_take. assumption. }
  assert (Hsplit : map node_id es
                   = map node_id (take (Z.to_nat i) es)
                     ++ map node_id (drop (Z.to_nat i) es)).
  { rewrite <- map_app, take_drop. reflexivity. }
  pose proof Hnd as Hnd_all.
  rewrite Hsplit in Hnd. apply NoDup_app in Hnd.
  destruct Hnd as (Hnd1 & Hdisj & Hnd2).
  assert (Hmem : forall k e, i <= k < __len__ self ->
            __getitem__ self (PyInt k) = Ok e ->
            es !! Z.to_nat k = Some e /\ e ∈ drop (Z.to_nat i) es).
  { intros k e Hk He.
    assert (Hlk : es !! Z.to_nat k = Some e).
    { eapply (entries_functional self _ es (Z.to_nat k) k e Hes); [|assumption].
      rewrite range_lookup by lia. f_equal. lia. }
    split; [assumption|]. apply list_elem_of_lookup.
    exists (Z.to_nat k - Z.to_nat i)%nat. rewrite lookup_drop.
    rewrite <- Hlk. f_equal. lia. }
  unfold nodemap_consistent in Hc. unfold _stripnodes, bind at 1, get at 1.
  destruct (_nodemap self) as [nm|] eqn:En.
  - (* the map is cached: the loop deletes the stripped nodes from it *)
    pose proof (fill_eq self _ _ {[ nullid := nullrev ]} Hes) as Hb.
    fold (_nodemap_build self) in Hb. rewrite Hb in Hc. inversion Hc as [Hnm].
    exists (Some (strip_pure nm (drop (Z.to_nat i) es))). split.
    + assert (Hall : forall e, e ∈ drop (Z.to_nat i) es -> is_Some (nm !! node_id e)).
      { intros e He. apply list_elem_of_lookup in He. destruct He as [j Hj].
        rewrite lookup_drop in Hj.
        destruct (Forall2_lookup_r _ _ _ _ _ Hes Hj) as (r & Hr & _).
        rewrite <- Hnm. erewrite fill_pure_in; [eauto|exact Hnd_all|exact Hr|exact Hj]. }
      pose proof (stripnodes_loop_spec self _ _ nm Hsuf Hnd2 Hall) as Hl.
      rewrite (set_nodemap_same self nm En) in Hl. exact Hl.
    + intros k e Hk He. destruct (Hmem k e Hk He) as [_ Hin].
      eexists _, _. split.
      * apply nodemap_get_cached. apply stripped_nodemap.
      * rewrite strip_pure_lookup. rewrite decide_True; [reflexivity|].
        apply list_elem_of_fmap. exists e. auto.
  - (* no cached map: the next lookup rebuilds it from the kept revisions *)
    exists None. split.
    { unfold ret. f_equal. destruct self; cbn in En |- *. rewrite En. reflexivity. }
    intros k e Hk He. destruct (Hmem k e Hk He) as [Hlk Hin].
    assert (Hes' : entries_at (stripped self i None) (range 0 i)
                              (take (Z.to_nat i) es)).
    { unfold entries_at in *. apply Forall2_same_length_lookup.
      split; [apply (Forall2_length _ _ _ Hpre)|].
      intros j r e' Hr He'. rewrite stripped_getitem; try assumption.
      - exact (Forall2_lookup_lr _ _ _ _ _ _ Hpre Hr He').
      - assert (r ∈ range 0 i) by (apply list_elem_of_lookup; eauto).
        apply elem_of_range; assumption. }
    pose proof (fill_eq (stripped self i None) _ _ {[ nullid := nullrev ]} Hes')
      as Hb'.
    eexists _, _. split.
    + unfold _nodemap_get, bind at 1, get at 1. rewrite stripped_nodemap.
      unfold bind, lift, modify, ret, _nodemap_build.
      rewrite stripped_len by lia. rewrite Hb'. reflexivity.
    + rewrite fill_pure_notin.
      * apply lookup_singleton_ne. intros Heq.
        apply (Hnn k e); [lia|assumption|congruence].
      * intros Hin1. apply (Hdisj (node_id e)); [assumption|].
        apply list_elem_of_fmap. exists e. auto.
Qed.

(** C8, as amended.  In a coherent index whose stored entries have pairwise
    distinct, non-null nodes, [del index[i:-1]] with [0 <= i < len] succeeds
    and leaves [i] revisions: the revisions below [i] keep their entries, and
    the node of every revision from [i] on is no longer known to [has_node],
    [rev] and [get_rev].  In every index, deleting anything but a slice
    [a:-1] with no step raises [ValueError] and changes nothing. *)
Theorem delitem_strips_revisions_from (self : index) :
  (forall i,
     wf_index self -> nodemap_consistent self -> nodes_distinct self ->
     no_null_entry self -> 0 <= i < __len__ self ->
     exists self',
       __delitem__ (PySlice (PyInt i) (PyInt (-1)) PyNone) self = (Ok tt, self')
       /\ __len__ self' = i
       /\ (forall k, 0 <= k < i ->
           __getitem__ self' (PyInt k) = __getitem__ self (PyInt k))
       /\ (forall k e, i <= k < __len__ self ->
           __getitem__ self (PyInt k) = Ok e ->
           (has_node (node_id e) self').1 = Ok false
           /\ (rev (node_id e) self').1 = Raise RevlogError
           /\ (get_rev (node_id e) self').1 = Ok None))
  /\ (forall key,
      (forall start, key <> PySlice start (PyInt (-1)) PyNone) ->
      __delitem__ key self = (Raise ValueError, self)).
Proof.
  split; [|intros key Hk; apply delitem_rejects; assumption].
  intros i Hwf Hc Hd Hnn Hi.
  destruct (entries_exist self Hwf) as [es Hes].
  destruct (stripped_node_unknown self i es Hwf Hc Hd Hnn Hi Hes)
    as (nm' & Hstrip & Hunknown).
  exists (stripped self i nm').
  split; [apply delitem_run; assumption|].
  split; [apply stripped_len; assumption|].
  split; [intros k Hk; apply stripped_getitem; assumption|].
  intros k e Hk He. destruct (Hunknown k e Hk He) as (nm & self'' & Hg & Hn).
  exact (lookups_of_nodemap _ _ _ _ Hg Hn).
Qed.


(** *** The invariants are kept *)

Lemma build_set_nodemap (self : index) (nm : option (gmap bytes Z)) :
  _nodemap_build (set_nodemap nm self) = _nodemap_build self.
Proof.
  unfold _nodemap_build.
  change (__len__ (set_nodemap nm self)) with (__len__ self).
  generalize (range 0 (__len__ self)). intros revs.
  generalize ({[ nullid := nullrev ]} : gmap bytes Z).
  induction revs as [|r revs IH]; intros m; [reflexivity|].
  cbn [_nodemap_fill]. rewrite getitem_set_nodemap.
  destruct (__getitem__ self (PyInt r)); [|reflexivity].
  cbn [rbind]. apply IH.
Qed.

(** Looking a node up leaves a coherent index coherent. *)
Lemma nodemap_get_keeps_coherent (self : index) :
  wf_index self -> nodemap_consistent self ->
  wf_index (_nodemap_get self).2 /\ nodemap_consistent (_nodemap_get self).2.
Proof.
  intros Hwf Hc. destruct (nodemap_get_spec self Hwf Hc) as (es & Hes & Hget).
  cbn zeta in Hget. rewrite Hget. cbn [snd]. split; [exact Hwf|].
  unfold nodemap_consistent. cbn [_nodemap set_nodemap].
  rewrite build_set_nodemap. unfold _nodemap_build. apply fill_eq. exact Hes.
Qed.

Lemma stripped_wf (self : index) (i : Z) (nm : option (gmap bytes Z)) :
  wf_index self -> 0 <= i < __len__ self -> wf_index (stripped self i nm).
Proof.
  intros (Hlgt & Hex & Hdata) Hi.
  pose proof (entry_size_pos (cls self)) as Hpos.
  unfold stripped, wf_index, __len__ in *.
  destruct (Z.ltb_spec i (_lgt self)) as [Hlt|Hge].
  - destruct (is_inlined (cls self)) eqn:Einl; cbn [_lgt _extra cls _offsets _data];
      rewrite Einl.
    + destruct Hdata as [Hlo Hoffs].
      split; [lia|]. split; [constructor|].
      rewrite slice_to_take by lia. split.
      * unfold len in *. rewrite length_take. lia.
      * apply Forall_take. exact Hoffs.
    + split; [lia|]. split; [constructor|].
      rewrite slice_to_take by nia. unfold len in *. rewrite length_take. nia.
  - cbn [_lgt _extra cls _offsets _data].
    split; [lia|]. split; [|exact Hdata].
    rewrite slice_to_take by lia. apply Forall_take. exact Hex.
Qed.

Lemma fill_pure_app (nm : gmap bytes Z) (revs1 revs2 : list Z)
  (es1 es2 : list entry) :
  length revs1 = length es1 ->
  fill_pure nm (revs1 ++ revs2) (es1 ++ es2)
  = fill_pure (fill_pure nm revs1 es1) revs2 es2.
Proof.
  intros Hl. unfold fill_pure.
  rewrite zip_with_app by assumption. apply foldl_app.
Qed.

(** What [_stripnodes] leaves in the cache. *)
Lemma stripnodes_run (self : index) (i : Z) (es : list entry) :
  wf_index self -> nodemap_consistent self -> nodes_distinct self ->
  0 <= i < __len__ self -> entries_at self (range 0 (__len__ self)) es ->
  _stripnodes i self
  = (Ok tt,
     set_nodemap
       (match _nodemap self with
        | Some nm => Some (strip_pure nm (drop (Z.to_nat i) es))
        | None => None
        end) self).
Proof.
  intros Hwf Hc Hd Hi Hes.
  pose proof (distinct_NoDup self es Hd Hes) as Hnd.
  unfold _stripnodes, bind at 1, get at 1. unfold nodemap_consistent in Hc.
  destruct (_nodemap self) as [nm|] eqn:En.
  - pose proof (fill_eq self _ _ {[ nullid := nullrev ]} Hes) as Hb.
    fold (_nodemap_build self) in Hb. rewrite Hb in Hc. inversion Hc as [Hnm].
    assert (Hsuf : entries_at self (range i (__len__ self)) (drop (Z.to_nat i) es)).
    { replace (range i (__len__ self))
        with (drop (Z.to_nat i) (range 0 (__len__ self)))
        by (rewrite drop_range; f_equal; lia).
      apply Forall2_drop. assumption. }
    assert (Hnd2 : NoDup (map node_id (drop (Z.to_nat i) es))).
    { rewrite <- (take_drop (Z.to_nat i) es), map_app in Hnd.
      apply NoDup_app in Hnd. tauto. }
    assert (Hall : forall e, e ∈ drop (Z.to_nat i) es -> is_Some (nm !! node_id e)).
    { intros e He. apply list_elem_of_lookup in He. destruct He as [j Hj].
      rewrite lookup_drop in Hj.
      destruct (Forall2_lookup_r _ _ _ _ _ Hes Hj) as (r & Hr & _).
      rewrite <- Hnm. erewrite fill_pure_in; [eauto|exact Hnd|exact Hr|exact Hj]. }
    pose proof (stripnodes_loop_spec self _ _ nm Hsuf Hnd2 Hall) as Hl.
    rewrite (set_nodemap_same self nm En) in Hl. rewrite ?Hnm. exact Hl.
  - unfold ret. f_equal. destruct self; cbn in En |- *. rewrite En. reflexivity.
Qed.

(** [del index[i:-1]] leaves a coherent index with distinct, non-null nodes
    in the same condition. *)
Lemma delitem_keeps_coherent (self : index) (i : Z) :
  wf_index self -> nodemap_consistent self -> nodes_distinct self ->
  no_null_entry self -> 0 <= i < __len__ self ->
  exists self',
    __delitem__ (PySlice (PyInt i) (PyInt (-1)) PyNone) self = (Ok tt, self')
    /\ wf_index self' /\ nodemap_consistent self'
    /\ nodes_distinct self' /\ no_null_entry self'.
Proof.
  intros Hwf Hc Hd Hnn Hi.
  destruct (entries_exist self Hwf) as [es Hes].
  pose proof (stripnodes_run self i es Hwf Hc Hd Hi Hes) as Hrun.
  set (nm' := match _nodemap self with
              | Some nm => Some (strip_pure nm (drop (Z.to_nat i) es))
              | None => None
              end) in *.
  exists (stripped self i nm').
  split; [apply delitem_run; assumption|].
  split; [apply stripped_wf; assumption|].
  assert (Hsame : forall k, 0 <= k < i ->
            __getitem__ (stripped self i nm') (PyInt k) = __getitem__ self (PyInt k))
    by (intros k Hk; apply stripped_getitem; assumption).
  pose proof (stripped_len self i nm' Hi) as Hlen.
  split; [|split].
  - unfold nodemap_consistent. rewrite stripped_nodemap. subst nm'.
    unfold nodemap_consistent in Hc.
    destruct (_nodemap self) as [nm|] eqn:En; [|exact I].
    pose proof (fill_eq self _ _ {[ nullid := nullrev ]} Hes) as Hb.
    fold (_nodemap_build self) in Hb. rewrite Hb in Hc. injection Hc as Hnm.
    assert (Hpre : entries_at self (range 0 i) (take (Z.to_nat i) es)).
    { replace (range 0 i) with (take (Z.to_nat i) (range 0 (__len__ self)))
        by (rewrite take_range by lia; f_equal; lia).
      apply Forall2_take. assumption. }
    assert (Hes' : entries_at (stripped self i (Some (strip_pure nm (drop (Z.to_nat i) es))))
                              (range 0 i) (take (Z.to_nat i) es)).
    { unfold entries_at in *. apply Forall2_same_length_lookup.
      split; [apply (Forall2_length _ _ _ Hpre)|].
      intros j r e' Hr He'. rewrite Hsame.
      - exact (Forall2_lookup_lr _ _ _ _ _ _ Hpre Hr He').
      - assert (r ∈ range 0 i) by (apply list_elem_of_lookup; eauto).
        apply elem_of_range; assumption. }
    unfold _nodemap_build. rewrite stripped_len by assumption.
    rewrite (fill_eq _ _ _ _ Hes').
    f_equal. apply map_eq. intros n. rewrite strip_pure_lookup.
    pose proof (distinct_NoDup self es Hd Hes) as Hnd.
    assert (Hsplit : nm = fill_pure
                      (fill_pure {[ nullid := nullrev ]} (range 0 i)
                                 (take (Z.to_nat i) es))
                      (range i (__len__ self)) (drop (Z.to_nat i) es)).
    { rewrite <- Hnm. rewrite <- fill_pure_app.
      - rewrite take_drop. rewrite <- range_split by lia. reflexivity.
      - exact (Forall2_length _ _ _ Hpre). }
    destruct (decide (n ∈ map node_id (drop (Z.to_nat i) es))) as [Hin|Hnin].
    + rewrite <- (take_drop (Z.to_nat i) es), map_app in Hnd.
      apply NoDup_app in Hnd. destruct Hnd as (_ & Hdisj & _).
      rewrite fill_pure_notin by (intros Hc'; exact (Hdisj n Hc' Hin)).
      apply lookup_singleton_ne. intros Heq. subst n.
      apply list_elem_of_fmap in Hin. destruct Hin as (e & Heq & He).
      apply list_elem_of_lookup in He. destruct He as [j Hj].
      rewrite lookup_drop in Hj.
      destruct (Forall2_lookup_r _ _ _ _ _ Hes Hj) as (r & Hr & Hre).
      assert (Hrange : r ∈ range 0 (__len__ self))
        by (apply list_elem_of_lookup; eauto).
      apply elem_of_range in Hrange.
      exact (Hnn r e Hrange Hre (eq_sym Heq)).
    + rewrite Hsplit. rewrite (fill_pure_notin _ _ _ n Hnin). reflexivity.
  - intros a b ea eb Ha Hb Ea Eb Hn. rewrite Hlen in Ha, Hb.
    rewrite Hsame in Ea, Eb by assumption.
    apply (Hd a b ea eb); try assumption; lia.
  - intros a e Ha Ea. rewrite Hlen in Ha. rewrite Hsame in Ea by assumption.
    apply (Hnn a e); [lia|assumption].
Qed.

End Strip.
End strip_facts.

Module sidedata_facts.
Import struct_facts codec_facts index_facts nodemap_facts null_facts strip_facts parsers.

Lemma setitem_Ok {A : Type} (l : list A) (i : Z) (a : A) :
  0 <= i < len l -> setitem l i a = Ok (<[Z.to_nat i := a]> l).
Proof.
  intros Hi. unfold setitem.
  destruct (Z.ltb_spec i 0); [lia|].
  destruct (Z.leb_spec 0 i); [|lia].
  destruct (Z.ltb_spec i (len l)); [|lia]. reflexivity.
Qed.

Lemma getitem_insert_eq {A : Type} (l : list A) (i : Z) (a : A) :
  0 <= i < len l -> getitem (<[Z.to_nat i := a]> l) i = Ok a.
Proof.
  intros Hi.
  destruct (getitem_Ok (<[Z.to_nat i := a]> l) i) as (a' & E & L).
  { unfold len in *. rewrite length_insert. lia. }
  rewrite list_lookup_insert_eq in L by (unfold len in *; lia). congruence.
Qed.

Lemma getitem_insert_ne {A : Type} (l : list A) (i j : Z) (a : A) :
  0 <= i -> 0 <= j -> i <> j ->
  getitem (<[Z.to_nat i := a]> l) j = getitem l j.
Proof.
  intros Hi Hj Hne. unfold getitem, len. rewrite length_insert.
  destruct (Z.ltb_spec j 0); [lia|].
  rewrite list_lookup_insert_ne by lia. reflexivity.
Qed.

Section Sidedata.
Context {modes : CompModes}.

Lemma wf_len_lgt (self : index) : wf_index self -> _lgt self <= __len__ self.
Proof. intros _. unfold __len__, len. lia. Qed.

(** An entry appended in memory is returned as it unpacks: the header mask
    only concerns revision 0 of the on-disk part. *)
Lemma getitem_extra (self : index) (i : Z) (raw : bytes) :
  0 <= _lgt self <= i -> getitem (_extra self) (i - _lgt self) = Ok raw ->
  __getitem__ self (PyInt i) = _unpack_entry (cls self) raw.
Proof.
  intros Hi Hraw.
  assert (H0 : 0 <= i - _lgt self) by lia.
  destruct (getitem_Ok_inv _ _ _ H0 Hraw) as [Hlt _].
  rewrite getitem_unfold by lia.
  rewrite check_index_Ok by (unfold __len__; lia). cbn [rbind].
  unfold _entry_data. destruct (Z.geb_spec i (_lgt self)); [|lia].
  rewrite Hraw. cbn [rbind].
  destruct (_unpack_entry (cls self) raw) as [r|]; [|reflexivity]. cbn [rbind].
  destruct (Z.eqb_spec (_lgt self) 0); [reflexivity|].
  destruct (Z.eqb_spec i 0); [lia|]. reflexivity.
Qed.

(** Whatever [pack] refuses, it refuses with [struct.error]. *)
Lemma pack_one_Raise (c : code) (v : value) (err : exn) :
  pack_one c v = Raise err -> err = StructError.
Proof.
  unfold pack_one, pack_int.
  destruct c, v; cbn [int_code];
    repeat match goal with
           | |- context [if ?b then _ else _] => destruct b
           end; intros E; inversion E; reflexivity.
Qed.

Lemma pack_Raise (fmt : list code) (vs : list value) (err : exn) :
  pack fmt vs = Raise err -> err = StructError.
Proof.
  revert vs. induction fmt as [|c fmt IH]; intros vs.
  - destruct vs; intros E; inversion E; reflexivity.
  - assert (Hgen : forall v vs',
      (b <~ pack_one c v ;; rest <~ pack fmt vs' ;; Ok (b ++ rest))%py = Raise err ->
      err = StructError).
    { intros v vs' E. destruct (pack_one c v) as [b|e1] eqn:E1.
      - cbn [rbind] in E. destruct (pack fmt vs') as [rest|e2] eqn:E2;
          [discriminate|]. cbn [rbind] in E. inversion E; subst.
        exact (IH _ E2).
      - cbn [rbind] in E. inversion E; subst. exact (pack_one_Raise _ _ _ E1). }
    destruct c; cbn [pack];
      try (destruct vs as [|v vs']; [intros E; inversion E; reflexivity|];
           apply Hgen).
    destruct (pack fmt vs) as [rest|e2] eqn:E2; [discriminate|].
    cbn [rbind]. intros E. inversion E; subst. exact (IH _ E2).
Qed.

(** A v2 entry that [_pack_entry] accepts has an [offset_flags], a
    [sidedata_offset] and a [sidedata_length] of the width of their
    fields. *)
Lemma pack_entry_v2_Ok_widths (e : entry) (bs : bytes) :
  _pack_entry_v2 e = Ok bs ->
  is_Q (offset_flags e) /\ is_Q (sidedata_offset e) /\ is_i (sidedata_length e).
Proof.
  unfold _pack_entry_v2, entry_values10, entry_values8.
  cbn [app format INDEX_ENTRY_V2 pack pack_one int_code].
  repeat match goal with
         | |- context [rbind (pack_int ?n ?s ?v) _] =>
             let E := fresh "E" in
             destruct (pack_int n s v) eqn:E; cbn [rbind]; [|discriminate];
             apply pack_int_ok in E
         | |- context [rbind (Ok ?x) _] => cbn [rbind]
         | |- context [rbind (pack ?f ?v) _] =>
             destruct (pack f v); cbn [rbind]; [|discriminate]
         end.
  intros _. unfold is_Q, is_i.
  repeat match goal with
         | H : int_min _ _ <= _ <= int_max _ _ |- _ =>
             unfold int_min, int_max in H; cbn in H
         end.
  lia.
Qed.

(** C10, as amended.  On a coherent v2 index, [replace_sidedata_info]
    raises [KeyError] for a negative revision and for a revision of the
    on-disk part, and [IndexError] for a revision beyond the last entry; it
    changes nothing then.  For a revision appended in memory, and new values
    that have the width of their fields, it succeeds: the entry of that
    revision has the new [offset_flags], [sidedata_offset] and
    [sidedata_length] and all its other fields as before, and every other
    item of the index reads as before.  With a new value that does not have
    the width of its field, packing fails with [struct.error] and nothing
    changes. *)
Theorem replace_sidedata_info_rewrites_appended_entry
  (self : index) (rev so sl q : Z) :
  is_v2 (cls self) = true -> wf_index self ->
  (rev < 0 -> replace_sidedata_info rev so sl q self = (Raise KeyError, self))
  /\ (0 <= rev < _lgt self ->
      replace_sidedata_info rev so sl q self = (Raise KeyError, self))
  /\ (_lgt self <= rev < __len__ self -> is_Q q -> is_Q so -> is_i sl ->
      exists self' e e',
        replace_sidedata_info rev so sl q self = (Ok tt, self')
        /\ __getitem__ self (PyInt rev) = Ok e
        /\ __getitem__ self' (PyInt rev) = Ok e'
        /\ offset_flags e' = q /\ sidedata_offset e' = so
        /\ sidedata_length e' = sl
        /\ compressed_length e' = compressed_length e
        /\ uncompressed_length e' = uncompressed_length e
        /\ base_rev e' = base_rev e /\ link_rev e' = link_rev e
        /\ parent1_rev e' = parent1_rev e /\ parent2_rev e' = parent2_rev e
        /\ node_id e' = node_id e
        /\ data_comp_mode e' = data_comp_mode e
        /\ sidedata_comp_mode e' = sidedata_comp_mode e
        /\ __len__ self' = __len__ self
        /\ (forall k, k <> rev ->
            __getitem__ self' (PyInt k) = __getitem__ self (PyInt k)))
  /\ (__len__ self <= rev ->
      replace_sidedata_info rev so sl q self = (Raise IndexError, self))
  /\ (_lgt self <= rev < __len__ self -> ~ (is_Q q /\ is_Q so /\ is_i sl) ->
      replace_sidedata_info rev so sl q self = (Raise StructError, self)).
Proof.
  intros Hv2 Hwf. pose proof Hwf as (Hlgt & Hex & Hdata).
  unfold replace_sidedata_info. split; [|split; [|split; [|split]]].
  - intros Hneg. destruct (Z.ltb_spec rev 0); [reflexivity|lia].
  - intros Hr. destruct (Z.ltb_spec rev 0); [lia|].
    unfold bind at 1, get at 1. unfold bind at 1, lift at 1.
    rewrite check_index_Ok by (pose proof (wf_len_lgt self Hwf); lia).
    destruct (Z.ltb_spec rev (_lgt self)); [reflexivity|lia].
  - intros Hr Hq Hso Hsl. destruct (Z.ltb_spec rev 0); [lia|].
    assert (Hidx : 0 <= rev - _lgt self < len (_extra self))
      by (unfold __len__ in Hr; lia).
    destruct (getitem_Ok _ _ Hidx) as (raw & Eraw & Lraw).
    pose proof (Forall_lookup_Z _ _ _ _ Hex Lraw) as Hrawlen.
    destruct (unpack_entry_Ok (cls self) raw Hrawlen) as (e & Eu & We1 & We2 & _).
    destruct (We2 Hv2) as ((_ & _ & _) & Hdm & Hsm).
    assert (Hget : __getitem__ self (PyInt rev) = Ok e)
      by (rewrite (getitem_extra self rev raw) by (assumption || lia); exact Eu).
    set (e' := mkEntry q (compressed_length e) (uncompressed_length e)
                       (base_rev e) (link_rev e) (parent1_rev e)
                       (parent2_rev e) (node_id e) so sl
                       (data_comp_mode e) (sidedata_comp_mode e)).
    assert (We' : wf_entry_v2 e').
    { unfold wf_entry_v2, wf_entry_v1 in *. subst e'. entry_proj. tauto. }
    destruct (pack_unpack_v2 e' We' Hdm Hsm)
      as (new & b & Epack & Lnew & _ & _ & _ & _ & Eunpack).
    cbn [_pack_entry _unpack_entry is_v2] in Epack, Eunpack.
    set (self' := set_extra (<[Z.to_nat (rev - _lgt self) := new]> (_extra self)) self).
    exists self', e, e'.
    assert (Hrun : (self <- get ;;
        _ <- lift (_check_index self (PyInt rev)) ;;
        if rev <? _lgt self then raise KeyError
        else
          entry <- lift (__getitem__ self (PyInt rev)) ;;
          let entry :=
            mkEntry q (compressed_length entry) (uncompressed_length entry)
                    (base_rev entry) (link_rev entry) (parent1_rev entry)
                    (parent2_rev entry) (node_id entry) so sl
                    (data_comp_mode entry) (sidedata_comp_mode entry) in
          new <- lift (_pack_entry_v2 entry) ;;
          extra <- lift (setitem (_extra self) (rev - _lgt self) new) ;;
          put (set_extra extra self))%py self = (Ok tt, self')).
    { unfold bind at 1, get at 1. unfold bind at 1, lift at 1.
      rewrite check_index_Ok by lia.
      destruct (Z.ltb_spec rev (_lgt self)); [lia|].
      unfold bind at 1, lift at 1. rewrite Hget. fold e'.
      unfold bind at 1, lift at 1. rewrite Epack.
      unfold bind at 1, lift at 1. rewrite setitem_Ok by assumption.
      reflexivity. }
    split; [exact Hrun|]. split; [exact Hget|].
    assert (Hlen' : __len__ self' = __len__ self).
    { unfold __len__, self', len. cbn [_lgt _extra set_extra].
      rewrite length_insert. reflexivity. }
    split.
    { rewrite (getitem_extra self' rev new).
      - cbn [cls self' set_extra]. unfold _unpack_entry. rewrite Hv2. exact Eunpack.
      - cbn [_lgt self' set_extra]. lia.
      - cbn [_lgt _extra self' set_extra]. apply getitem_insert_eq. assumption. }
    subst e'. entry_proj. repeat (split; [reflexivity|]).
    split; [exact Hlen'|].
    intros k Hk. destruct (Z.eq_dec k (-1)) as [->|Hk1]; [reflexivity|].
    destruct (Z_lt_le_dec k 0) as [Hneg|Hnn].
    { rewrite !getitem_out_of_range by (assumption || lia). reflexivity. }
    destruct (Z_lt_le_dec k (__len__ self)) as [Hin|Hout].
    2:{ rewrite !getitem_out_of_range by (assumption || lia). reflexivity. }
    rewrite !getitem_unfold by lia.
    rewrite !check_index_Ok by lia. cbn [rbind].
    replace (_entry_data self' k) with (_entry_data self k); [reflexivity|].
    unfold _entry_data, _calculate_index, self'.
    cbn [_lgt _extra _data _offsets cls set_extra].
    destruct (Z.geb_spec k (_lgt self)); [|reflexivity].
    symmetry. apply getitem_insert_ne; lia.
  - intros Hr. pose proof (wf_len_lgt self Hwf) as Hle.
    destruct (Z.ltb_spec rev 0); [lia|].
    unfold bind at 1, get at 1. unfold bind at 1, lift at 1.
    unfold _check_index. destruct (Z.ltb_spec rev 0); [lia|].
    destruct (Z.geb_spec rev (__len__ self)); [|lia]. reflexivity.
  - intros Hr Hbad. destruct (Z.ltb_spec rev 0); [lia|].
    assert (Hidx : 0 <= rev - _lgt self < len (_extra self))
      by (unfold __len__ in Hr; lia).
    destruct (getitem_Ok _ _ Hidx) as (raw & Eraw & Lraw).
    pose proof (Forall_lookup_Z _ _ _ _ Hex Lraw) as Hrawlen.
    destruct (unpack_entry_Ok (cls self) raw Hrawlen) as (e & Eu & _).
    assert (Hget : __getitem__ self (PyInt rev) = Ok e)
      by (rewrite (getitem_extra self rev raw) by (assumption || lia); exact Eu).
    unfold bind at 1, get at 1. unfold bind at 1, lift at 1.
    rewrite check_index_Ok by lia.
    destruct (Z.ltb_spec rev (_lgt self)); [lia|].
    unfold bind at 1, lift at 1. rewrite Hget.
    unfold bind at 1, lift at 1.
    destruct (_pack_entry_v2 _) as [new|err] eqn:Epack.
    + apply pack_entry_v2_Ok_widths in Epack. cbn in Epack. contradiction.
    + unfold _pack_entry_v2 in Epack. apply pack_Raise in Epack. subst err.
      reflexivity.
Qed.

End Sidedata.
End sidedata_facts.

Module append_facts.
Import struct_facts codec_facts index_facts nodemap_facts null_facts strip_facts
  sidedata_facts parsers.
Import Py.
Local Open Scope py_scope.

Section Append.
Context {modes : CompModes}.

Lemma append_run (self : index) (tup : entry) (raw : bytes) :
  _pack_entry (cls self) tup = Ok raw ->
  append tup self = (Ok tt, appended self tup raw).
Proof.
  intros Hp. unfold append, appended, bind, seq, get, put, ret, lift, modify.
  destruct (_nodemap self) as [nm|] eqn:En; cbn [fst snd cls set_nodemap];
    rewrite Hp; reflexivity.
Qed.

Lemma appended_len (self : index) (tup : entry) (raw : bytes) :
  __len__ (appended self tup raw) = __len__ self + 1.
Proof.
  unfold appended, __len__, len.
  destruct (_nodemap self); cbn [_lgt _extra set_extra set_nodemap];
    rewrite length_app; cbn [length]; lia.
Qed.

Lemma appended_wf (self : index) (tup : entry) (raw : bytes) :
  wf_index self -> len raw = entry_size (cls self) ->
  wf_index (appended self tup raw).
Proof.
  intros (Hlgt & Hex & Hdata) Hraw. unfold appended, wf_index.
  destruct (_nodemap self);
    cbn [_lgt _extra _data _offsets cls set_extra set_nodemap];
    (split; [assumption|]); (split; [|assumption]);
    apply Forall_app; split; auto.
Qed.

(** The revisions that were there read as before. *)
Lemma appended_getitem_old (self : index) (tup : entry) (raw : bytes) (k : Z) :
  0 <= _lgt self -> 0 <= k < __len__ self ->
  __getitem__ (appended self tup raw) (PyInt k) = __getitem__ self (PyInt k).
Proof.
  intros Hlgt Hk. rewrite !getitem_unfold by lia.
  rewrite !check_index_Ok by (rewrite ?appended_len; lia). cbn [rbind].
  assert (Hd : _entry_data (appended self tup raw) k = _entry_data self k).
  { unfold _entry_data, appended, _calculate_index.
    destruct (_nodemap self);
      cbn [_lgt _extra _data _offsets cls set_extra set_nodemap];
      (destruct (Z.geb_spec k (_lgt self)); [|reflexivity]);
      unfold __len__ in Hk;
      (destruct (getitem_Ok (_extra self) (k - _lgt self)) as (a & Ea & La); [lia|]);
      rewrite Ea;
      (destruct (getitem_Ok (_extra self ++ [raw]) (k - _lgt self))
         as (b & Eb & Lb);
       [unfold len in *; rewrite length_app; cbn [length]; lia|]);
      rewrite Eb; f_equal;
      rewrite lookup_app_l in Lb by (unfold len in *; lia); congruence. }
  rewrite Hd.
  replace (cls (appended self tup raw)) with (cls self)
    by (unfold appended; destruct (_nodemap self); reflexivity).
  replace (_lgt (appended self tup raw)) with (_lgt self)
    by (unfold appended; destruct (_nodemap self); reflexivity).
  reflexivity.
Qed.

(** The new revision reads as [raw] unpacks. *)
Lemma appended_getitem_new (self : index) (tup : entry) (raw : bytes) :
  0 <= _lgt self ->
  __getitem__ (appended self tup raw) (PyInt (__len__ self))
  = _unpack_entry (cls self) raw.
Proof.
  intros Hlgt.
  replace (cls self) with (cls (appended self tup raw))
    by (unfold appended; destruct (_nodemap self); reflexivity).
  assert (Hl : _lgt (appended self tup raw) = _lgt self)
    by (unfold appended; destruct (_nodemap self); reflexivity).
  assert (He : _extra (appended self tup raw) = (_extra self ++ [raw])%list)
    by (unfold appended; destruct (_nodemap self); reflexivity).
  apply getitem_extra.
  - rewrite Hl. unfold __len__, len. lia.
  - rewrite Hl, He. unfold __len__.
    replace (_lgt self + len (_extra self) - _lgt self) with (len (_extra self)) by lia.
    destruct (getitem_Ok (_extra self ++ [raw]) (len (_extra self))) as (b & Eb & Lb).
    + unfold len. rewrite length_app. cbn [length]. lia.
    + rewrite Eb. f_equal. unfold len in Lb. rewrite Nat2Z.id in Lb.
      rewrite lookup_app_r in Lb by lia. rewrite Nat.sub_diag in Lb.
      cbn in Lb. congruence.
Qed.

(** [append] leaves a coherent index coherent, one revision longer, when the
    entry packs to a record that unpacks to the same node. *)
Lemma append_keeps_coherent (self : index) (tup : entry) (raw : bytes) :
  wf_index self -> nodemap_consistent self ->
  _pack_entry (cls self) tup = Ok raw ->
  len raw = entry_size (cls self) ->
  (forall e, _unpack_entry (cls self) raw = Ok e -> node_id e = node_id tup) ->
  exists self',
    append tup self = (Ok tt, self')
    /\ __len__ self' = __len__ self + 1
    /\ wf_index self' /\ nodemap_consistent self'.
Proof.
  intros Hwf Hc Hp Hraw Hnode. exists (appended self tup raw).
  split; [apply append_run; assumption|].
  split; [apply appended_len|].
  split; [apply appended_wf; assumption|].
  pose proof Hwf as (Hlgt & _).
  destruct (entries_exist self Hwf) as [es Hes].
  destruct (unpack_entry_Ok _ _ Hraw) as (e & Eu & _).
  assert (Hes' : entries_at (appended self tup raw)
                   (range 0 (__len__ self + 1)) (es ++ [e])).
  { rewrite (range_split 0 (__len__ self) (__len__ self + 1))
      by (unfold __len__, len; lia).
    apply Forall2_app.
    - unfold entries_at in *. apply Forall2_same_length_lookup.
      split; [apply (Forall2_length _ _ _ Hes)|].
      intros j r e' Hr He'. rewrite appended_getitem_old.
      + exact (Forall2_lookup_lr _ _ _ _ _ _ Hes Hr He').
      + assumption.
      + assert (r ∈ range 0 (__len__ self)) by (apply list_elem_of_lookup; eauto).
        apply elem_of_range; assumption.
    - rewrite (range_cons (__len__ self)) by lia.
      rewrite range_nil by lia. constructor; [|constructor].
      rewrite appended_getitem_new by assumption. exact Eu. }
  unfold nodemap_consistent in *.
  destruct (_nodemap self) as [nm|] eqn:En.
  - pose proof (fill_eq self _ _ {[ nullid := nullrev ]} Hes) as Hb.
    fold (_nodemap_build self) in Hb. rewrite Hb in Hc. injection Hc as Hnm.
    assert (En' : _nodemap (appended self tup raw)
                  = Some (<[node_id tup := __len__ self]> nm))
      by (unfold appended; rewrite En; reflexivity).
    rewrite En'. unfold _nodemap_build. rewrite appended_len.
    rewrite (fill_eq _ _ _ _ Hes'). f_equal.
    rewrite (range_split 0 (__len__ self) (__len__ self + 1))
      by (unfold __len__, len; lia).
    rewrite fill_pure_app by (apply (Forall2_length _ _ _ Hes)).
    rewrite Hnm. rewrite (range_cons (__len__ self)) by lia.
    rewrite range_nil by lia. unfold fill_pure. cbn.
    rewrite (Hnode e Eu). reflexivity.
  - assert (En' : _nodemap (appended self tup raw) = None)
      by (unfold appended; rewrite En; cbn [_nodemap set_extra]; exact En).
    rewrite En'. exact I.
Qed.

End Append.
End append_facts.

Module scan_facts.
Import struct_facts codec_facts index_facts nodemap_facts null_facts strip_facts
  sidedata_facts parsers samples.

Lemma looping_field : unpack_i looping_inline_data (0 + big_int_size) = Ok (-64).
Proof. vm_compute. reflexivity. Qed.

Lemma looping_loop (fuel : nat) (lgt : option Z) (count : Z) :
  lgt = None ->
  forall offsets,
  _inline_scan_loop fuel InlinedIndexObject looping_inline_data lgt offsets count 0
  = None.
Proof.
  intros ->. revert count. induction fuel as [|fuel IH]; intros count offsets.
  - reflexivity.
  - cbn [_inline_scan_loop].
    change (0 <=? len looping_inline_data - entry_size InlinedIndexObject) with true.
    cbn iota. rewrite looping_field. cbn [is_v2].
    change (0 + (entry_size InlinedIndexObject + -64 + 0)) with 0.
    apply IH.
Qed.

(** C2, at the failing input.  On a 64-byte inline v1 index whose only
    record has a compressed length of -64, the scan neither returns the
    offsets nor fails with the corruption error: the walk stays at offset 0,
    whatever the number of iterations allowed, and so do the constructor of
    the inline index and [parse_index2]. *)
Theorem inline_scan_negative_length_never_returns (fuel : nat) :
  len looping_inline_data = 64
  /\ _inline_scan fuel None
       (mkIndex InlinedIndexObject looping_inline_data 0 [] [] None) = None
  /\ InlinedIndexObject__init__ fuel InlinedIndexObject looping_inline_data = None
  /\ parse_index2 fuel looping_inline_data true false = None.
Proof.
  assert (Hs : _inline_scan fuel None
             (mkIndex InlinedIndexObject looping_inline_data 0 [] [] None) = None).
  { unfold _inline_scan. cbn [cls _data _offsets].
    rewrite looping_loop by reflexivity. reflexivity. }
  split; [reflexivity|]. split; [exact Hs|].
  assert (Hi : InlinedIndexObject__init__ fuel InlinedIndexObject looping_inline_data = None).
  { unfold InlinedIndexObject__init__. rewrite Hs. reflexivity. }
  split; [exact Hi|]. unfold parse_index2. cbn [negb]. exact Hi.
Qed.


Section Scan.
Context {modes : CompModes}.

Lemma len_nil {A : Type} : len (@nil A) = 0.
Proof. reflexivity. Qed.

Lemma len_cons {A : Type} (a : A) (l : list A) : len (a :: l) = 1 + len l.
Proof. unfold len. cbn [length]. lia. Qed.

Lemma inline_walk_offsets (c : index_class) (data : bytes) (off : Z)
  (offs : list Z) (stop : Z) :
  inline_walk c data off offs stop ->
  Forall (fun o => 0 <= o /\ o + entry_size c <= len data) offs.
Proof.
  induction 1 as [|off s side offs stop H0 H1 Hs Hside _ IH].
  - constructor.
  - constructor; [lia|assumption].
Qed.

(** The counting pass ([lgt] is [None]) follows the walk. *)
Lemma scan_loop_counts (c : index_class) (data : bytes) (off : Z)
  (offs : list Z) (stop : Z) :
  inline_walk c data off offs stop ->
  forall (fuel : nat) (offsets : list Z) (count : Z),
    (length offs < fuel)%nat ->
    _inline_scan_loop fuel c data None offsets count off
    = Some (Ok (count + len offs, stop), offsets).
Proof.
  induction 1 as [off Hend|off s side offs stop H0 H1 Hs Hside _ IH];
    intros fuel offsets count Hfuel.
  - destruct fuel as [|fuel]; [cbn in Hfuel; lia|]. cbn [_inline_scan_loop].
    destruct (Z.leb_spec off (len data - entry_size c)); [lia|].
    rewrite len_nil, Z.add_0_r. reflexivity.
  - destruct fuel as [|fuel]; [cbn in Hfuel; lia|]. cbn [_inline_scan_loop].
    destruct (Z.leb_spec off (len data - entry_size c)); [|lia].
    rewrite Hs. cbn zeta in *. rewrite Hside.
    rewrite IH by (cbn [length] in Hfuel; lia).
    rewrite len_cons, Z.add_assoc. reflexivity.
Qed.

(** The recording pass writes the offsets of the walk, from [count] on. *)
Lemma scan_loop_records (c : index_class) (data : bytes) (off : Z)
  (offs : list Z) (stop : Z) :
  inline_walk c data off offs stop ->
  forall (fuel : nat) (n : Z) (offsets : list Z) (count : nat),
    (length offs < fuel)%nat ->
    (count + length offs <= length offsets)%nat ->
    _inline_scan_loop fuel c data (Some n) offsets (Z.of_nat count) off
    = Some (Ok (Z.of_nat count + len offs, stop),
            take count offsets ++ offs ++ drop (count + length offs) offsets).
Proof.
  induction 1 as [off Hend|off s side offs stop H0 H1 Hs Hside _ IH];
    intros fuel n offsets count Hfuel Hroom.
  - destruct fuel as [|fuel]; [cbn in Hfuel; lia|]. cbn [_inline_scan_loop].
    destruct (Z.leb_spec off (len data - entry_size c)); [lia|].
    cbn [length app]. rewrite Nat.add_0_r, take_drop.
    rewrite len_nil, Z.add_0_r. reflexivity.
  - destruct fuel as [|fuel]; [cbn in Hfuel; lia|]. cbn [_inline_scan_loop].
    destruct (Z.leb_spec off (len data - entry_size c)); [|lia].
    rewrite Hs. cbn zeta in *. rewrite Hside. cbn [length] in Hfuel, Hroom.
    rewrite setitem_Ok by (unfold len; lia). rewrite Nat2Z.id.
    replace (Z.of_nat count + 1) with (Z.of_nat (S count)) by lia.
    rewrite IH by (rewrite ?length_insert; lia).
    f_equal. f_equal.
    + rewrite len_cons, Z.add_assoc. do 2 f_equal. lia.
    + destruct (lookup_lt_is_Some_2 offsets count) as [x Hx]; [lia|].
      rewrite (take_S_r _ _ off)
        by (rewrite list_lookup_insert_eq by lia; reflexivity).
      rewrite take_insert_ge by lia. rewrite drop_insert_lt by lia.
      rewrite <- app_assoc. cbn [app length].
      replace (S count + length offs)%nat with (count + S (length offs))%nat by lia. reflexivity.
Qed.

(** On an input that the forward walk covers, the constructor of the inline
    index returns as soon as the fuel exceeds the number of records: with the
    offsets of the walk when it stops exactly at the end of the input, and
    with the corruption error ([ValueError]) otherwise. *)
Lemma inline_init_follows_walk (c : index_class) (data : bytes)
  (offs : list Z) (stop : Z) (fuel : nat) :
  inline_walk c data 0 offs stop -> (length offs < fuel)%nat ->
  (stop = len data ->
   InlinedIndexObject__init__ fuel c data
   = Some (Ok (mkIndex c data (len offs) [] offs None))
   /\ (is_inlined c = true -> wf_index (mkIndex c data (len offs) [] offs None)))
  /\ (stop <> len data ->
      InlinedIndexObject__init__ fuel c data = Some (Raise ValueError)).
Proof.
  intros Hw Hfuel.
  pose proof (scan_loop_counts c data 0 offs stop Hw fuel [] 0 Hfuel) as H1.
  unfold InlinedIndexObject__init__, _inline_scan.
  cbn [cls _data _offsets _extra set_offsets]. rewrite H1.
  replace (0 + len offs) with (len offs) by lia.
  split.
  - intros ->. rewrite Z.eqb_refl. cbn [negb].
    pose proof (scan_loop_records c data 0 offs (len data) Hw fuel (len offs)
                  (replicate (length offs) 0) 0 Hfuel) as H2.
    rewrite length_replicate in H2. specialize (H2 ltac:(lia)).
    change (Z.of_nat 0) with 0 in H2.
    replace (Z.to_nat (len offs)) with (length offs) by (unfold len; lia).
    rewrite H2. rewrite Z.eqb_refl. cbn [negb set_offsets _offsets take app].
    rewrite drop_ge by (rewrite length_replicate; lia). rewrite app_nil_r.
    split; [reflexivity|].
    intros Hinl. unfold wf_index. cbn [_lgt _extra cls _offsets _data].
    rewrite Hinl. split; [unfold len; lia|]. split; [constructor|].
    split; [lia|]. exact (inline_walk_offsets _ _ _ _ _ Hw).
  - intros Hne. destruct (Z.eqb_spec stop (len data)); [contradiction|].
    reflexivity.
Qed.

End Scan.
End scan_facts.

Module docket_facts.
Import struct_facts codec_facts index_facts docket samples.

Lemma pack_one_Ok_fits (c : code) (v : value) (bs : bytes) :
  no_bytes_field c -> pack_one c v = Ok bs -> fits c v.
Proof.
  intros Hc.
  destruct c as [| | | | | |n|n], v as [z|b]; cbn [pack_one int_code];
    try discriminate; try contradiction; unfold fits; cbn [int_code];
    try (intros E; exact (pack_int_ok _ _ _ _ E)).
  destruct (length b =? 1)%nat eqn:E1; [|discriminate].
  intros _. apply Nat.eqb_eq. assumption.
Qed.

(** Without [s] fields, what [pack] accepts is what [unpack] gives back. *)
Lemma pack_Ok_fits (fmt : list code) (vs : list value) (bs : bytes) :
  Forall no_bytes_field fmt -> pack fmt vs = Ok bs -> fits_all fmt vs.
Proof.
  intros Hf. revert vs bs. induction Hf as [|c fmt Hc _ IH]; intros vs bs.
  - destruct vs; [reflexivity|discriminate].
  - assert (Hgen : forall v vs',
      (b <~ pack_one c v ;; rest <~ pack fmt vs' ;; Ok (b ++ rest))%py = Ok bs ->
      fits c v /\ fits_all fmt vs').
    { intros v vs' E. destruct (pack_one c v) as [b|] eqn:E1; [|discriminate].
      cbn [rbind] in E. destruct (pack fmt vs') as [rest|] eqn:E2; [|discriminate].
      split; [exact (pack_one_Ok_fits _ _ _ Hc E1)|exact (IH _ _ E2)]. }
    destruct c; cbn [pack fits_all];
      try (destruct vs as [|v vs']; [discriminate|]; apply Hgen).
    destruct (pack fmt vs) as [rest|] eqn:E2; [|discriminate].
    intros _. exact (IH _ _ E2).
Qed.

Lemma unpack_pack_exact (fmt : list code) (vs : list value) (bs : bytes) :
  Forall no_bytes_field fmt -> pack fmt vs = Ok bs ->
  unpack fmt bs = Ok vs /\ length bs = calcsize fmt.
Proof.
  intros Hf Hp. pose proof (pack_Ok_fits _ _ _ Hf Hp) as Hfit.
  destruct (unpack_pack _ _ Hfit) as (bs' & Hp' & Hl & Hu).
  rewrite Hp in Hp'. inversion Hp'; subst bs'. auto.
Qed.

Lemma S_HEADER_no_bytes : Forall no_bytes_field (format S_HEADER).
Proof. repeat constructor. Qed.

Lemma slice_to_app {A : Type} (l1 l2 : list A) :
  slice_to (l1 ++ l2) (len l1) = l1.
Proof.
  rewrite slice_to_take by (unfold len; rewrite length_app; lia).
  unfold len. rewrite Nat2Z.id. apply take_app_length.
Qed.

(** The constructor checks both orderings. *)
Lemma init_Ok_ordered (revlog : revlog_ref) (use_pending : bool)
  (vh : option Z) (iu du : option bytes) (ie pie de pde : Z)
  (dch : option bytes) (d : RevlogDocket) :
  RevlogDocket__init__ revlog use_pending vh iu du ie pie de pde dch = Ok d ->
  ie <= pie /\ de <= pde
  /\ _initial_index_end d = ie /\ _pending_index_end d = pie
  /\ _initial_data_end d = de /\ _pending_data_end d = pde
  /\ _dirty d = false /\ _read_only d = use_pending.
Proof.
  unfold RevlogDocket__init__.
  destruct (Z.leb_spec ie pie); cbn [negb]; [|discriminate].
  destruct (Z.leb_spec de pde); cbn [negb]; [|discriminate].
  intros E; inversion E; subst; cbn. auto 10.
Qed.

(** What [_serialize] writes: the header fields, then the two uuids. *)
Lemma serialize_Ok_inv (pending : bool) (d : RevlogDocket) (content : bytes) :
  _serialize pending d = Ok content ->
  exists vh iu du dch header,
    _version_header d = Some vh /\ _index_uuid d = Some iu
    /\ _data_uuid d = Some du /\ default_compression_header d = Some dch
    /\ (if pending then _initial_data_end d else _data_end d) <= _data_end d
    /\ pack (format S_HEADER)
         [VInt vh; VInt (len iu); VInt (len du);
          VInt (if pending then _initial_index_end d else _index_end d);
          VInt (_index_end d);
          VInt (if pending then _initial_data_end d else _data_end d);
          VInt (_data_end d); VBytes dch] = Ok header
    /\ content = header ++ iu ++ du.
Proof.
  unfold _serialize, _serialize_data.
  destruct (Z.leb_spec (if pending then _initial_data_end d else _data_end d)
                       (_data_end d)) as [Hle|]; cbn [negb]; [|discriminate].
  destruct (_index_uuid d) as [iu|]; [|discriminate].
  destruct (_data_uuid d) as [du|]; [|discriminate].
  destruct (_version_header d) as [vh|]; [|discriminate].
  destruct (default_compression_header d) as [dch|]; [|discriminate].
  cbn [len_opt int_field bytes_field rbind].
  destruct (pack (format S_HEADER) _) as [header|] eqn:Ep; [|discriminate].
  cbn [rbind]. intros E; inversion E; subst.
  exists vh, iu, du, dch, header. auto 10.
Qed.


Local Open Scope string_scope.

(** A write whose serialization raises: the backup is registered, no file
    is written. *)
Lemma write_docket_abort (d : RevlogDocket) (w : world) (stripping : bool) (e : exn) :
  _dirty d = true -> _read_only d = false ->
  _serialize true d = Raise e ->
  write true stripping (d, w)
  = (Raise e,
     (d, mkWorld (files w)
                 (if stripping then backups w
                  else backups w ++ [(_path d, "store")]))).
Proof.
  intros Hd Hro Hs. unfold write. unfold bind at 1, get at 1.
  rewrite Hd, Hro. cbn [negb].
  destruct stripping; cbn [negb]; unfold bind, modify, ret, lift;
    rewrite Hs; destruct w; reflexivity.
Qed.

(** C4, as amended.  [write] returns [False] and changes nothing when the
    docket is not dirty.  When it is dirty and read-only, [write] raises
    [ProgrammingError] and changes nothing.  When it is dirty, not
    read-only, and its serialization succeeds, [write] registers a backup of
    the docket file with the transaction unless [stripping], replaces the
    content of the docket file by the serialized form in one step, leaves the
    docket dirty exactly when [pending], and returns [True]; when the
    serialization raises, no file is written.  In [pending] mode the
    serialized header carries as official ends the initial index and data
    ends, and as pending ends the current in-memory ends.  The initial ends
    are those the docket was constructed with: neither the setters of the
    ends nor [write], whatever its outcome, change them. *)
Theorem write_docket_cases (d : RevlogDocket) (w : world) (pending stripping : bool) :
  (_dirty d = false -> write pending stripping (d, w) = (Ok false, (d, w)))
  /\ (_dirty d = true -> _read_only d = true ->
      write pending stripping (d, w) = (Raise ProgrammingError, (d, w)))
  /\ (forall content,
      _dirty d = true -> _read_only d = false ->
      _serialize pending d = Ok content ->
      write pending stripping (d, w)
      = (Ok true,
         (set_dirty pending d,
          mkWorld (<[_path d := content]> (files w))
                  (if stripping then backups w
                   else backups w ++ [(_path d, "store")]))))
  /\ (forall e,
      _dirty d = true -> _read_only d = false ->
      _serialize pending d = Raise e ->
      write pending stripping (d, w)
      = (Raise e,
         (d, mkWorld (files w)
                     (if stripping then backups w
                      else backups w ++ [(_path d, "store")]))))
  /\ (forall content,
      _serialize true d = Ok content ->
      exists vh liu ldu dch,
        unpack (format S_HEADER) (slice_to content (size S_HEADER))
        = Ok [VInt vh; VInt liu; VInt ldu;
              VInt (_initial_index_end d); VInt (_index_end d);
              VInt (_initial_data_end d); VInt (_data_end d); VBytes dch])
  /\ (forall revlog use_pending vh iu du ie pie de pde dch d0,
      RevlogDocket__init__ revlog use_pending vh iu du ie pie de pde dch = Ok d0 ->
      _initial_index_end d0 = ie /\ _initial_data_end d0 = de)
  /\ (forall new_size,
      _initial_index_end (index_end_setter new_size d) = _initial_index_end d
      /\ _initial_data_end (index_end_setter new_size d) = _initial_data_end d
      /\ _initial_index_end (data_end_setter new_size d) = _initial_index_end d
      /\ _initial_data_end (data_end_setter new_size d) = _initial_data_end d)
  /\ (_initial_index_end (write pending stripping (d, w)).2.1
      = _initial_index_end d
      /\ _initial_data_end (write pending stripping (d, w)).2.1
         = _initial_data_end d).
Proof.
  split; [|split; [|split; [|split; [|split; [|split; [|split]]]]]].
  - intros Hd. unfold write, bind, get. rewrite Hd. reflexivity.
  - intros Hd Hro. unfold write, bind, get. rewrite Hd, Hro. reflexivity.
  - intros content Hd Hro Hs. unfold write. unfold bind at 1, get at 1.
    rewrite Hd, Hro. cbn [negb].
    destruct stripping; cbn [negb]; unfold bind, modify, ret, lift;
      rewrite Hs; destruct w; reflexivity.
  - intros e Hd Hro Hs. unfold write. unfold bind at 1, get at 1.
    rewrite Hd, Hro. cbn [negb].
    destruct stripping; cbn [negb]; unfold bind, modify, ret, lift;
      rewrite Hs; destruct w; reflexivity.
  - intros content Hs.
    destruct (serialize_Ok_inv _ _ _ Hs)
      as (vh & iu & du & dch & header & _ & _ & _ & _ & _ & Hp & ->).
    destruct (unpack_pack_exact _ _ _ S_HEADER_no_bytes Hp) as [Hu Hl].
    exists vh, (len iu), (len du), dch.
    replace (size S_HEADER) with (len header)
      by (unfold size, len; rewrite Hl; reflexivity).
    rewrite slice_to_app. exact Hu.
  - intros revlog use_pending vh iu du ie pie de pde dch d0 Hinit.
    destruct (init_Ok_ordered _ _ _ _ _ _ _ _ _ _ _ Hinit)
      as (_ & _ & Hi & _ & Hde & _).
    split; assumption.
  - intros new_size. unfold index_end_setter, data_end_setter.
    destruct (negb (new_size =? _index_end d)%Z),
      (negb (new_size =? _data_end d)%Z); repeat split; reflexivity.
  - assert (Hres : forall P : RevlogDocket -> Prop,
              P d -> P (set_dirty pending d) ->
              P (write pending stripping (d, w)).2.1).
    { intros P Pd Ps. destruct (_dirty d) eqn:Hd.
      2:{ unfold write, bind, get. rewrite Hd. exact Pd. }
      destruct (_read_only d) eqn:Hro.
      { unfold write, bind, get. rewrite Hd, Hro. exact Pd. }
      unfold write. unfold bind at 1, get at 1. rewrite Hd, Hro. cbn [negb].
      destruct stripping; cbn [negb]; unfold bind, modify, ret, lift;
        destruct (_serialize pending d); destruct w; cbn [fst snd];
        assumption. }
    apply (Hres (fun x => _initial_index_end x = _initial_index_end d
                          /\ _initial_data_end x = _initial_data_end d));
      split; reflexivity.
Qed.


Lemma serialize_data_assert (d : RevlogDocket) :
  _data_end d < _initial_data_end d -> _serialize true d = Raise AssertionError.
Proof.
  intros H. unfold _serialize, _serialize_data.
  destruct (Z.leb_spec (_initial_data_end d) (_data_end d)); [lia|]. reflexivity.
Qed.

(** C5, as amended.  The constructor accepts a docket exactly when its
    official index end is at most its pending index end and its official
    data end at most its pending data end, and fails with an assertion error
    otherwise.  Whenever a docket is serialized, the serialized official data
    end is at most the serialized pending data end, the pending ends are the
    current in-memory ends, and outside pending mode the official ends equal
    the pending ones.  A write in pending mode whose current data end lies
    below the official data end it would serialize, which is the initial
    data end of the docket, fails with an assertion error and writes no
    file. *)
Theorem docket_end_orderings_checked :
  (forall revlog use_pending vh iu du ie pie de pde dch,
     (ie <= pie /\ de <= pde ->
      exists d,
        RevlogDocket__init__ revlog use_pending vh iu du ie pie de pde dch = Ok d
        /\ _initial_index_end d = ie /\ _pending_index_end d = pie
        /\ _initial_data_end d = de /\ _pending_data_end d = pde)
     /\ (~ (ie <= pie /\ de <= pde) ->
         RevlogDocket__init__ revlog use_pending vh iu du ie pie de pde dch
         = Raise AssertionError))
  /\ (forall pending d content,
      _serialize pending d = Ok content ->
      exists vh liu ldu oi pi od pd dch,
        unpack (format S_HEADER) (slice_to content (size S_HEADER))
        = Ok [VInt vh; VInt liu; VInt ldu; VInt oi; VInt pi; VInt od; VInt pd;
              VBytes dch]
        /\ od <= pd /\ pi = _index_end d /\ pd = _data_end d
        /\ (pending = false -> oi = pi /\ od = pd))
  /\ (forall stripping d w,
      _dirty d = true -> _read_only d = false ->
      _data_end d < _initial_data_end d ->
      write true stripping (d, w)
      = (Raise AssertionError,
         (d, mkWorld (files w)
                     (if stripping then backups w
                      else backups w ++ [(_path d, "store")])))).
Proof.
  split; [|split].
  - intros revlog use_pending vh iu du ie pie de pde dch. split.
    + intros [Hi Hd]. unfold RevlogDocket__init__.
      destruct (Z.leb_spec ie pie); [|lia]. destruct (Z.leb_spec de pde); [|lia].
      cbn [negb]. eexists. split; [reflexivity|]. cbn. auto.
    + intros Hn. unfold RevlogDocket__init__.
      destruct (Z.leb_spec ie pie); cbn [negb]; [|reflexivity].
      destruct (Z.leb_spec de pde); cbn [negb]; [|reflexivity].
      exfalso. apply Hn. lia.
  - intros pending d content Hs.
    destruct (serialize_Ok_inv _ _ _ Hs)
      as (vh & iu & du & dch & header & _ & _ & _ & _ & Hle & Hp & ->).
    destruct (unpack_pack_exact _ _ _ S_HEADER_no_bytes Hp) as [Hu Hl].
    exists vh, (len iu), (len du),
      (if pending then _initial_index_end d else _index_end d), (_index_end d),
      (if pending then _initial_data_end d else _data_end d), (_data_end d), dch.
    replace (size S_HEADER) with (len header)
      by (unfold size, len; rewrite Hl; reflexivity).
    rewrite slice_to_app. split; [exact Hu|]. split; [exact Hle|].
    split; [reflexivity|]. split; [reflexivity|].
    intros ->. auto.
  - intros stripping d w Hd Hro Hlt.
    destruct (write_docket_abort d w stripping AssertionError Hd Hro
                (serialize_data_assert d Hlt)).
    reflexivity.
Qed.

End docket_facts.

Module index_examples.
Import struct_facts codec_facts index_facts nodemap_facts null_facts strip_facts
  sidedata_facts parsers samples.

#[local] Existing Instance sample_modes.

Lemma sample_index_built :
  IndexObject__init__ IndexObject (sample_record_v1 ++ other_record_v1)
  = Ok sample_index.
Proof. vm_compute. reflexivity. Qed.

Lemma sample_index_wf : wf_index sample_index.
Proof.
  unfold wf_index. cbn [_lgt _extra cls is_inlined sample_index _data].
  split; [lia|]. split; [constructor|]. vm_compute. discriminate.
Qed.

Lemma sample_index_entries (i : Z) (e : entry) :
  0 <= i < __len__ sample_index -> __getitem__ sample_index (PyInt i) = Ok e ->
  (i = 0 /\ node_id e = sample_node) \/ (i = 1 /\ node_id e = other_node).
Proof.
  intros Hi. change (__len__ sample_index) with 2 in Hi.
  assert (Hc : i = 0 \/ i = 1) by lia.
  destruct Hc as [-> | ->]; vm_compute; intros E; inversion E; auto.
Qed.

Lemma sample_index_distinct : nodes_distinct sample_index.
Proof.
  intros i j ei ej Hi Hj Ei Ej Hn.
  destruct (sample_index_entries i ei Hi Ei) as [[-> Ni] | [-> Ni]];
    destruct (sample_index_entries j ej Hj Ej) as [[-> Nj] | [-> Nj]];
    try reflexivity; rewrite Ni, Nj in Hn; discriminate.
Qed.

Lemma sample_index_no_null : no_null_entry sample_index.
Proof.
  intros i e Hi Ei.
  destruct (sample_index_entries i e Hi Ei) as [[_ N] | [_ N]];
    rewrite N; discriminate.
Qed.


Lemma null_node_resolves_to_nullrev_witness :
  wf_index sample_index /\ nodemap_consistent sample_index
  /\ no_null_entry sample_index
  /\ (rev nullid sample_index).1 = Ok (-1)
  /\ (has_node nullid sample_index).1 = Ok true
  /\ (get_rev nullid sample_index).1 = Ok (Some (-1)).
Proof.
  split; [exact sample_index_wf|]. split; [exact I|].
  split; [exact sample_index_no_null|].
  destruct (null_node_resolves_to_nullrev sample_index) as [T _].
  exact (T sample_index_wf I sample_index_no_null).
Defined.

(** C9 as stated fails on an index that stores a record with the all-zero
    node: the null node is then the node of revision 0, and looking it up
    gives 0 instead of -1. *)
Lemma null_node_lookup_counterexample :
  IndexObject__init__ IndexObject (replicate 64 x00) = Ok zero_index
  /\ wf_index zero_index
  /\ (exists e, __getitem__ zero_index (PyInt 0) = Ok e /\ node_id e = nullid)
  /\ (rev nullid zero_index).1 = Ok 0
  /\ (rev nullid zero_index).1 <> Ok nullrev.
Proof.
  split; [vm_compute; reflexivity|].
  split.
  { unfold wf_index. cbn [_lgt _extra cls is_inlined zero_index _data].
    split; [lia|]. split; [constructor|]. vm_compute. discriminate. }
  split; [eexists; split; vm_compute; reflexivity|].
  split; [vm_compute; reflexivity|]. vm_compute. discriminate.
Qed.

Lemma delitem_strips_revisions_from_witness :
  wf_index sample_index /\ nodemap_consistent sample_index
  /\ nodes_distinct sample_index /\ no_null_entry sample_index
  /\ 0 <= 1 < __len__ sample_index
  /\ exists self',
       __delitem__ (PySlice (PyInt 1) (PyInt (-1)) PyNone) sample_index
       = (Ok tt, self')
       /\ __len__ self' = 1
       /\ (has_node other_node self').1 = Ok false.
Proof.
  assert (Hr : 0 <= 1 < __len__ sample_index)
    by (change (__len__ sample_index) with 2; lia).
  split; [exact sample_index_wf|]. split; [exact I|].
  split; [exact sample_index_distinct|]. split; [exact sample_index_no_null|].
  split; [exact Hr|].
  destruct (delitem_strips_revisions_from sample_index) as [T _].
  destruct (T 1 sample_index_wf I sample_index_distinct sample_index_no_null Hr)
    as (self' & Hdel & Hlen & _ & Hgone).
  exists self'. split; [exact Hdel|]. split; [exact Hlen|].
  destruct (Hgone 1 (with_comp_modes 2 2 other_entry_v1)) as (Hh & _ & _).
  - change (__len__ sample_index) with 2. lia.
  - vm_compute. reflexivity.
  - exact Hh.
Defined.

(** C8 as stated fails on an index whose two revisions carry the same
    node.  Without a cached node map, stripping revision 1 leaves its node
    known, as the node of revision 0; with the node map cached, stripping
    both revisions raises [KeyError] at the second deletion of the node. *)
Lemma delitem_shared_node_counterexample :
  IndexObject__init__ IndexObject (sample_record_v1 ++ sample_record_v1)
  = Ok twin_index
  /\ (exists e, __getitem__ twin_index (PyInt 1) = Ok e /\ node_id e = sample_node)
  /\ (exists self',
       __delitem__ (PySlice (PyInt 1) (PyInt (-1)) PyNone) twin_index
       = (Ok tt, self')
       /\ __len__ self' = 1
       /\ (has_node sample_node self').1 = Ok true
       /\ (rev sample_node self').1 = Ok 0
       /\ (get_rev sample_node self').1 = Ok (Some 0))
  /\ (exists cached,
       (has_node sample_node twin_index).2 = cached
       /\ (__delitem__ (PySlice (PyInt 0) (PyInt (-1)) PyNone) cached).1
          = Raise KeyError).
Proof.
  split; [vm_compute; reflexivity|].
  split; [eexists; split; vm_compute; reflexivity|].
  split.
  - eexists. split; [vm_compute; reflexivity|].
    repeat split; vm_compute; reflexivity.
  - eexists. split; [reflexivity|]. vm_compute. reflexivity.
Qed.

Lemma replace_sidedata_info_rewrites_appended_entry_witness :
  is_v2 (cls sample_index_v2) = true /\ wf_index sample_index_v2
  /\ _lgt sample_index_v2 <= 0 < __len__ sample_index_v2
  /\ is_Q 131073 /\ is_Q 1000 /\ is_i 20
  /\ exists self' e',
       replace_sidedata_info 0 1000 20 131073 sample_index_v2 = (Ok tt, self')
       /\ __getitem__ self' (PyInt 0) = Ok e'
       /\ offset_flags e' = 131073 /\ sidedata_offset e' = 1000
       /\ sidedata_length e' = 20 /\ node_id e' = sample_node.
Proof.
  assert (Hwf : wf_index sample_index_v2).
  { unfold wf_index. cbn [_lgt _extra cls is_inlined sample_index_v2 _data].
    split; [lia|]. split; [repeat constructor|]. vm_compute. discriminate. }
  assert (Hr : _lgt sample_index_v2 <= 0 < __len__ sample_index_v2)
    by (change (0 <= 0 < 1); lia).
  assert (HQ1 : is_Q 131073) by (unfold is_Q; lia).
  assert (HQ2 : is_Q 1000) by (unfold is_Q; lia).
  assert (Hi : is_i 20) by (unfold is_i; lia).
  split; [reflexivity|]. split; [exact Hwf|]. split; [exact Hr|].
  split; [exact HQ1|]. split; [exact HQ2|]. split; [exact Hi|].
  destruct (replace_sidedata_info_rewrites_appended_entry
              sample_index_v2 0 1000 20 131073 eq_refl Hwf) as (_ & _ & T & _ & _).
  destruct (T Hr HQ1 HQ2 Hi)
    as (self' & e & e' & Hrun & He & He' & F1 & F2 & F3 & _ & _ & _ & _ & _ & _
        & Fn & _).
  exists self', e'. split; [exact Hrun|]. split; [exact He'|].
  split; [exact F1|]. split; [exact F2|]. split; [exact F3|].
  rewrite Fn. vm_compute in He. inversion He. reflexivity.
Defined.

(** C10 as stated fails beyond the last entry: revision 1 of a v2 index
    that holds one entry, appended in memory, is neither negative nor part
    of the on-disk portion, and [replace_sidedata_info] raises [IndexError]
    for it and rewrites nothing.  For revision 0, a sidedata offset of -1
    makes it raise [struct.error], and nothing is rewritten either. *)
Lemma replace_sidedata_info_beyond_end_counterexample :
  is_v2 (cls sample_index_v2) = true
  /\ _lgt sample_index_v2 = 0 /\ __len__ sample_index_v2 = 1
  /\ replace_sidedata_info 1 1000 20 131073 sample_index_v2
     = (Raise IndexError, sample_index_v2)
  /\ replace_sidedata_info 0 (-1) 20 131073 sample_index_v2
     = (Raise StructError, sample_index_v2).
Proof. repeat split; vm_compute; reflexivity. Qed.

(** The codec and the scan on concrete bytes. *)

Example pack_Q_i :
  pack [fmt_Q; fmt_i] [VInt 65537; VInt (-64)]
  = Ok [x00; x00; x00; x00; x00; x01; x00; x01; xff; xff; xff; xc0].
Proof. vm_compute. reflexivity. Qed.

Example pack_i_out_of_range : pack [fmt_i] [VInt 2147483648] = Raise StructError.
Proof. vm_compute. reflexivity. Qed.

Example pack_s_pads : pack [fmt_s 4] [VBytes [x61; x62]] = Ok [x61; x62; x00; x00].
Proof. vm_compute. reflexivity. Qed.

Example slice_negative : slice [1; 2; 3; 4; 5] (-3) (-1) = [3; 4].
Proof. vm_compute. reflexivity. Qed.

Example slice_beyond : slice [1; 2; 3] 2 10 = [3].
Proof. vm_compute. reflexivity. Qed.

Example sample_inline_walk :
  inline_walk InlinedIndexObject sample_inline_data 0 [0; 67] 131.
Proof.
  eapply (inline_walk_entry _ _ 0 3 0); [lia|vm_compute; discriminate| | |].
  - vm_compute. reflexivity.
  - reflexivity.
  - eapply (inline_walk_entry _ _ 67 0 0); [lia|vm_compute; discriminate| | |].
    + vm_compute. reflexivity.
    + reflexivity.
    + apply inline_walk_end. vm_compute. reflexivity.
Qed.

Example sample_inline_index :
  parse_index2 3 sample_inline_data true false
  = Some (Ok (mkIndex InlinedIndexObject sample_inline_data 2 [] [0; 67] None))
  /\ __getitem__ (mkIndex InlinedIndexObject sample_inline_data 2 [] [0; 67] None)
       (PyInt 1)
     = Ok inline_entry_0.
Proof. split; vm_compute; reflexivity. Qed.

Example truncated_inline_index :
  parse_index2 3 (take 130 sample_inline_data) true false
  = Some (Raise ValueError).
Proof. vm_compute. reflexivity. Qed.

Example append_then_lookup :
  let self := (append sample_entry_v1 (has_node sample_node zero_index).2).2 in
  __len__ self = 2 /\ (rev sample_node self).1 = Ok 1
  /\ (rev nullid self).1 = Ok 0.
Proof. vm_compute. repeat split. Qed.

End index_examples.

Module docket_examples.
Import struct_facts codec_facts index_facts docket_facts docket samples.
Local Open Scope string_scope.

Lemma sample_docket_built (use_pending : bool) :
  RevlogDocket__init__ sample_revlog use_pending (Some 57347)
    (Some sample_index_uuid) (Some sample_data_uuid) 640 640 4096 4096
    (Some [x75])
  = Ok (sample_docket use_pending).
Proof. destruct use_pending; reflexivity. Qed.

Lemma write_docket_cases_witness :
  _dirty cut_docket = true /\ _read_only cut_docket = false
  /\ _serialize true cut_docket = Ok cut_docket_content
  /\ write true false (cut_docket, empty_world)
     = (Ok true,
        (cut_docket,
         mkWorld (<["00changelog.i" := cut_docket_content]> ∅)
                 [("00changelog.i", "store")]))
  /\ write false false (sample_docket false, empty_world)
     = (Ok false, (sample_docket false, empty_world)).
Proof.
  assert (Hs : _serialize true cut_docket = Ok cut_docket_content)
    by (vm_compute; reflexivity).
  split; [reflexivity|]. split; [reflexivity|]. split; [exact Hs|].
  destruct (write_docket_cases cut_docket empty_world true false)
    as (_ & _ & T & _).
  destruct (write_docket_cases (sample_docket false) empty_world false false)
    as (T0 & _).
  split.
  - exact (T cut_docket_content eq_refl eq_refl Hs).
  - exact (T0 eq_refl).
Defined.

(** C4 as stated fails in two ways.  On a dirty docket that was opened on
    the pending state ([use_pending], hence read-only), [write] raises
    [ProgrammingError] instead of returning [True], and writes nothing.
    And the official ends of a pending write need not be the previously
    committed ones: a docket is built with index end 640, the index grows to
    704 bytes and a final write commits it, the docket file then giving 704
    as official index end; the index grows to 768 bytes and a pending write
    of the same docket gives 640 as official index end, the end the docket
    was built with, and not 704. *)
Lemma write_docket_counterexample :
  RevlogDocket__init__ sample_revlog true (Some 57347)
    (Some sample_index_uuid) (Some sample_data_uuid) 640 640 4096 4096
    (Some [x75])
  = Ok (sample_docket true)
  /\ _dirty (index_end_setter 704 (sample_docket true)) = true
  /\ write false false (index_end_setter 704 (sample_docket true), empty_world)
     = (Raise ProgrammingError,
        (index_end_setter 704 (sample_docket true), empty_world))
  /\ (write false false (index_end_setter 704 (sample_docket true), empty_world)).1
     <> Ok true
  /\ RevlogDocket__init__ sample_revlog false (Some 57347)
       (Some sample_index_uuid) (Some sample_data_uuid) 640 640 4096 4096
       (Some [x75])
     = Ok (sample_docket false)
  /\ grown_docket = index_end_setter 704 (sample_docket false)
  /\ write false false (grown_docket, empty_world)
     = (Ok true,
        (set_dirty false grown_docket,
         mkWorld (<["00changelog.i" := grown_docket_final]> ∅)
                 [("00changelog.i", "store")]))
  /\ unpack (format S_HEADER) (slice_to grown_docket_final (size S_HEADER))
     = Ok [VInt 57347; VInt 8; VInt 8; VInt 704; VInt 704; VInt 4096;
           VInt 4096; VBytes [x75]]
  /\ regrown_docket = index_end_setter 768 (set_dirty false grown_docket)
  /\ write true false
       (regrown_docket,
        mkWorld (<["00changelog.i" := grown_docket_final]> ∅)
                [("00changelog.i", "store")])
     = (Ok true,
        (regrown_docket,
         mkWorld (<["00changelog.i" := regrown_docket_pending]> ∅)
                 [("00changelog.i", "store"); ("00changelog.i", "store")]))
  /\ unpack (format S_HEADER) (slice_to regrown_docket_pending (size S_HEADER))
     = Ok [VInt 57347; VInt 8; VInt 8; VInt 640; VInt 768; VInt 4096;
           VInt 4096; VBytes [x75]].
Proof.
  split; [reflexivity|]. split; [reflexivity|].
  split; [reflexivity|]. split; [cbn; discriminate|].
  split; [reflexivity|]. split; [reflexivity|].
  split; [vm_compute; reflexivity|]. split; [vm_compute; reflexivity|].
  split; [reflexivity|].
  split; vm_compute; reflexivity.
Qed.

(** C5 as stated fails: a docket is built with index end 640 (official and
    pending) and data end 4096, and the index is then cut back to 320 bytes.
    Writing it in pending mode succeeds and produces a docket file whose
    official index end, 640, exceeds its pending index end, 320, since
    [_serialize] checks the ordering of the data ends only; the file just
    written is refused by [parse_docket].  The same cut applied to the data
    end makes [write] fail, with an assertion error and not with
    [ProgrammingError]. *)
Lemma serialize_index_ends_counterexample :
  RevlogDocket__init__ sample_revlog false (Some 57347)
    (Some sample_index_uuid) (Some sample_data_uuid) 640 640 4096 4096
    (Some [x75])
  = Ok (sample_docket false)
  /\ cut_docket = index_end_setter 320 (sample_docket false)
  /\ write true true (cut_docket, empty_world)
     = (Ok true,
        (cut_docket, mkWorld (<["00changelog.i" := cut_docket_content]> ∅) []))
  /\ unpack (format S_HEADER) (slice_to cut_docket_content (size S_HEADER))
     = Ok [VInt 57347; VInt 8; VInt 8; VInt 640; VInt 320; VInt 4096;
           VInt 4096; VBytes [x75]]
  /\ parse_docket sample_revlog cut_docket_content false = Raise AssertionError
  /\ write true true (data_end_setter 2048 (sample_docket false), empty_world)
     = (Raise AssertionError,
        (data_end_setter 2048 (sample_docket false), empty_world))
  /\ (write true true (data_end_setter 2048 (sample_docket false), empty_world)).1
     <> Raise ProgrammingError.
Proof.
  split; [reflexivity|]. split; [reflexivity|].
  split; [vm_compute; reflexivity|]. split; [vm_compute; reflexivity|].
  split; [vm_compute; reflexivity|]. split; [vm_compute; reflexivity|].
  vm_compute. discriminate.
Qed.

Lemma docket_end_orderings_checked_witness :
  (640 <= 640 /\ 4096 <= 4096)
  /\ (exists d,
       RevlogDocket__init__ sample_revlog false (Some 57347)
         (Some sample_index_uuid) (Some sample_data_uuid) 640 640 4096 4096
         (Some [x75]) = Ok d
       /\ _initial_index_end d = 640 /\ _pending_index_end d = 640)
  /\ _dirty (data_end_setter 2048 (sample_docket false)) = true
  /\ _read_only (data_end_setter 2048 (sample_docket false)) = false
  /\ _data_end (data_end_setter 2048 (sample_docket false))
     < _initial_data_end (data_end_setter 2048 (sample_docket false))
  /\ write true false (data_end_setter 2048 (sample_docket false), empty_world)
     = (Raise AssertionError,
        (data_end_setter 2048 (sample_docket false),
         mkWorld ∅ [("00changelog.i", "store")])).
Proof.
  assert (Ho : 640 <= 640 /\ 4096 <= 4096) by lia.
  assert (Hlt : _data_end (data_end_setter 2048 (sample_docket false))
                < _initial_data_end (data_end_setter 2048 (sample_docket false)))
    by (cbn; lia).
  destruct docket_end_orderings_checked as (T1 & _ & T3).
  destruct (T1 sample_revlog false (Some 57347) (Some sample_index_uuid)
              (Some sample_data_uuid) 640 640 4096 4096 (Some [x75]))
    as [Tok _].
  destruct (Tok Ho) as (d & Hd & Hi & Hp & _).
  split; [exact Ho|].
  split; [exists d; split; [exact Hd|split; assumption]|].
  split; [reflexivity|]. split; [reflexivity|]. split; [exact Hlt|].
  exact (T3 false (data_end_setter 2048 (sample_docket false)) empty_world
            eq_refl eq_refl Hlt).
Defined.

(** What the code does check: a docket that serializes has its official
    data end below its current data end, and in non-pending mode the
    official ends are the current ones. *)
Lemma serialize_Ok_data_ordered (pending : bool) (d : RevlogDocket) (content : bytes) :
  _serialize pending d = Ok content ->
  (if pending then _initial_data_end d else _data_end d) <= _data_end d.
Proof.
  intros Hs. destruct (serialize_Ok_inv _ _ _ Hs)
    as (vh & iu & du & dch & header & _ & _ & _ & _ & Hle & _). exact Hle.
Qed.

End docket_examples.

Module engine_facts.
Import engine.
Local Open Scope string_scope.

(** [_filterstorefile] spelled out. *)
Lemma filterstorefile_true_iff (path : string) (mode : Z) :
  _filterstorefile path mode = true <->
  endswith path ".i" = false /\ endswith path ".d" = false
  /\ endswith path ".n" = false /\ endswith path ".nd" = false
  /\ startswith path "undo" = false
  /\ mode = S_IFREG
  /\ path <> "lock" /\ path <> "fncache".
Proof.
  unfold _filterstorefile.
  destruct (endswith path ".i"), (endswith path ".d"), (endswith path ".n"),
    (endswith path ".nd"), (startswith path "undo"); cbn [orb];
    try (split; [discriminate|intros (?&?&?&?&?&?); discriminate]).
  destruct (Z.eqb_spec mode S_IFREG) as [Hm|Hm]; cbn [negb].
  2:{ split; [discriminate|]. intros (_&_&_&_&_&Hc&_). contradiction. }
  destruct (String.eqb_spec path "lock") as [Hl|Hl]; cbn [orb].
  { split; [discriminate|]. intros (_&_&_&_&_&_&Hc&_). contradiction. }
  destruct (String.eqb_spec path "fncache") as [Hf|Hf].
  { split; [discriminate|]. intros (_&_&_&_&_&_&_&Hc). contradiction. }
  split; [intros _; auto 10|reflexivity].
Qed.


Lemma copyfile_Ok (src dest : string) (w : world) (content : bytes) :
  files w !! src = Some content ->
  copyfile src dest w
  = (Ok tt, mkWorld (<[dest := content]> (files w)) (fncache w) (clones w)).
Proof. intros H. unfold copyfile, bind, get, put. rewrite H. reflexivity. Qed.

Section StoreFiles.
Variables srcrepo dstrepo : repo.

Let srcj : string -> string := join (store_rawvfs srcrepo).
Let dstj : string -> string := join (store_rawvfs dstrepo).

Hypothesis src_dst_apart : forall p q, srcj p <> dstj q.
Hypothesis dstj_inj : forall p q, dstj p = dstj q -> p = q.

Lemma store_copies_cons (p : string) (kind st : Z) (rest : list (string * Z * Z)) :
  store_copies ((p, kind, st) :: rest)
  = if _filterstorefile p kind then p :: store_copies rest else store_copies rest.
Proof.
  unfold store_copies. rewrite filter_cons. cbn [fst snd].
  destruct (_filterstorefile p kind) eqn:E.
  - rewrite decide_True by reflexivity. reflexivity.
  - rewrite decide_False by discriminate. reflexivity.
Qed.

Lemma elem_of_store_copies (listing : list (string * Z * Z)) (p : string) :
  p ∈ store_copies listing <->
  exists kind st, (p, kind, st) ∈ listing /\ _filterstorefile p kind = true.
Proof.
  unfold store_copies. rewrite list_elem_of_fmap. split.
  - intros ([[q kind] st] & -> & Hin). apply list_elem_of_filter in Hin.
    cbn [fst snd] in *. destruct Hin as [Hf Hin]. eauto.
  - intros (kind & st & Hin & Hf). exists (p, kind, st). split; [reflexivity|].
    apply list_elem_of_filter. auto.
Qed.

(** The loop over the listing, started in a world [wc] whose source files
    are those of [w]. *)
Lemma copy_store_files_run (w : world) (listing : list (string * Z * Z)) :
  (forall p, p ∈ store_copies listing -> is_Some (files w !! srcj p)) ->
  forall wc,
    (forall p, files wc !! srcj p = files w !! srcj p) ->
    exists w',
      _copy_store_files srcrepo dstrepo listing wc = (Ok tt, w')
      /\ fncache w' = fncache wc /\ clones w' = clones wc
      /\ (forall p, p ∈ store_copies listing ->
          files w' !! dstj p = files w !! srcj p)
      /\ (forall k, (forall p, p ∈ store_copies listing -> k <> dstj p) ->
          files w' !! k = files wc !! k).
Proof.
  induction listing as [|[[p kind] st] rest IH]; intros Hex wc Hsrc.
  - exists wc. cbn [_copy_store_files]. unfold ret.
    split; [reflexivity|]. split; [reflexivity|]. split; [reflexivity|].
    split; [|reflexivity]. intros p Hp. apply elem_of_nil in Hp. contradiction.
  - cbn [_copy_store_files]. rewrite store_copies_cons in *.
    destruct (_filterstorefile p kind) eqn:Ef; cbn [negb].
    + destruct (Hex p) as [content Hc]; [left|].
      unfold bind at 1. fold srcj dstj.
      rewrite (copyfile_Ok _ _ _ content) by (rewrite Hsrc; exact Hc).
      set (wc' := mkWorld (<[dstj p := content]> (files wc)) (fncache wc) (clones wc)).
      destruct (IH (fun q Hq => Hex q (list_elem_of_further _ _ _ Hq)) wc')
        as (w' & Hrun & Hfn & Hcl & Hcopied & Hother).
      { intros q. cbn [files wc']. rewrite lookup_insert_ne; [apply Hsrc|].
        intros Heq. exact (src_dst_apart q p (eq_sym Heq)). }
      exists w'. split; [exact Hrun|]. split; [exact Hfn|]. split; [exact Hcl|].
      split.
      * intros q Hq. destruct (decide (q ∈ store_copies rest)) as [Hin|Hnin].
        { apply Hcopied. exact Hin. }
        apply elem_of_cons in Hq. destruct Hq as [->|Hq]; [|contradiction].
        rewrite Hother.
        -- cbn [files wc']. rewrite lookup_insert_eq. symmetry. exact Hc.
        -- intros q Hq Heq. apply dstj_inj in Heq. subst q. contradiction.
      * intros k Hk. rewrite Hother.
        -- cbn [files wc']. apply lookup_insert_ne. intros Heq.
           apply (Hk p); [left|]. symmetry. exact Heq.
        -- intros q Hq. apply Hk. right. exact Hq.
    + unfold bind at 1, ret at 1. apply IH; assumption.
Qed.

(** C7. In the copy of the other store files, a file of the listing is
    copied exactly when [_filterstorefile] holds of it, that is when its
    name ends with none of [.i], [.d], [.n], [.nd], does not start with
    [undo], is neither [lock] nor [fncache], and its kind is that of a
    regular file.  Provided source and destination names are apart and the
    files to copy exist, the loop succeeds; a name that passes the filter
    has, in the destination, the bytes of the source file, and a name that
    does not pass it leaves the destination as it was. *)
Theorem store_file_copied_iff_filter (readdir : list (string * Z * Z)) (w : world) :
  (forall p kind st,
     (p, kind, st) ∈ readdir -> _filterstorefile p kind = true ->
     is_Some (files w !! srcj p)) ->
  (forall path mode,
     _filterstorefile path mode = true <->
     endswith path ".i" = false /\ endswith path ".d" = false
     /\ endswith path ".n" = false /\ endswith path ".nd" = false
     /\ startswith path "undo" = false
     /\ mode = S_IFREG
     /\ path <> "lock" /\ path <> "fncache")
  /\ exists w',
      _copy_store_files srcrepo dstrepo (merge_sort listing_le readdir) w
      = (Ok tt, w')
      /\ (forall p kind st,
          (p, kind, st) ∈ readdir -> _filterstorefile p kind = true ->
          files w' !! dstj p = files w !! srcj p)
      /\ (forall p,
          (forall kind st, (p, kind, st) ∈ readdir ->
                           _filterstorefile p kind = false) ->
          files w' !! dstj p = files w !! dstj p)
      /\ (forall k, (forall p, k <> dstj p) -> files w' !! k = files w !! k).
Proof.
  intros Hex. split; [exact filterstorefile_true_iff|].
  assert (Hperm : forall x, x ∈ merge_sort listing_le readdir <-> x ∈ readdir).
  { intros x. rewrite merge_sort_Permutation. reflexivity. }
  assert (Hcopies : forall p, p ∈ store_copies (merge_sort listing_le readdir) <->
            exists kind st, (p, kind, st) ∈ readdir /\ _filterstorefile p kind = true).
  { intros p. rewrite elem_of_store_copies. split.
    - intros (kind & st & Hin & Hf). exists kind, st. rewrite <- Hperm. auto.
    - intros (kind & st & Hin & Hf). exists kind, st. rewrite Hperm. auto. }
  destruct (copy_store_files_run w (merge_sort listing_le readdir)) with (wc := w)
    as (w' & Hrun & _ & _ & Hcopied & Hother).
  { intros p Hp. apply Hcopies in Hp. destruct Hp as (kind & st & Hin & Hf).
    exact (Hex p kind st Hin Hf). }
  { reflexivity. }
  exists w'. split; [exact Hrun|]. split; [|split].
  - intros p kind st Hin Hf. apply Hcopied. apply Hcopies. eauto.
  - intros p Hno. apply Hother. intros q Hq Heq. apply dstj_inj in Heq. subst q.
    apply Hcopies in Hq. destruct Hq as (kind & st & Hin & Hf).
    rewrite (Hno kind st Hin) in Hf. discriminate.
  - intros k Hk. apply Hother. intros q _. apply Hk.
Qed.

End StoreFiles.
End engine_facts.

Module clone_facts.
Import engine engine_facts.
Local Open Scope string_scope.

(** The delta-reuse mode chosen from the set of actions. *)
Lemma upgrade_deltareuse_cases (acts : gset string) :
  ("re-delta-all" ∈ acts -> upgrade_deltareuse acts = DELTAREUSENEVER)
  /\ ("re-delta-all" ∉ acts ->
      "re-delta-parent" ∈ acts \/ "re-delta-multibase" ∈ acts ->
      upgrade_deltareuse acts = DELTAREUSESAMEREVS)
  /\ ("re-delta-all" ∉ acts -> "re-delta-parent" ∉ acts ->
      "re-delta-multibase" ∉ acts -> "re-delta-fulladd" ∈ acts ->
      upgrade_deltareuse acts = DELTAREUSEFULLADD)
  /\ ("re-delta-all" ∉ acts -> "re-delta-parent" ∉ acts ->
      "re-delta-multibase" ∉ acts -> "re-delta-fulladd" ∉ acts ->
      upgrade_deltareuse acts = DELTAREUSEALWAYS).
Proof.
  unfold upgrade_deltareuse. repeat split.
  - intros H. rewrite bool_decide_eq_true_2 by assumption. reflexivity.
  - intros Ha [Hp|Hm]; rewrite (bool_decide_eq_false_2 _ Ha).
    + rewrite bool_decide_eq_true_2 by assumption. reflexivity.
    + destruct (bool_decide ("re-delta-parent" ∈ acts)); [reflexivity|].
      rewrite bool_decide_eq_true_2 by assumption. reflexivity.
  - intros Ha Hp Hm Hf.
    rewrite (bool_decide_eq_false_2 _ Ha), (bool_decide_eq_false_2 _ Hp),
      (bool_decide_eq_false_2 _ Hm), (bool_decide_eq_true_2 _ Hf). reflexivity.
  - intros Ha Hp Hm Hf.
    rewrite (bool_decide_eq_false_2 _ Ha), (bool_decide_eq_false_2 _ Hp),
      (bool_decide_eq_false_2 _ Hm), (bool_decide_eq_false_2 _ Hf). reflexivity.
Qed.

Ltac solve_ne := first [assumption | apply not_eq_sym; assumption].

Section Clone.
Variable changelog_changelog : vfs -> revlog.
Variable manifest_manifestrevlog : vfs -> string -> revlog.
Variable filelog_filelog : vfs -> string -> revlog.
Variable revlog_clone : clone_call -> gmap string bytes -> result (gmap string bytes).

Local Abbreviation revlogfrompath :=
  (_revlogfrompath changelog_changelog manifest_manifestrevlog filelog_filelog).
Local Abbreviation copyrevlog :=
  (_copyrevlog changelog_changelog manifest_manifestrevlog filelog_filelog).
Local Abbreviation clonerevlogs_step :=
  (_clonerevlogs_step changelog_changelog manifest_manifestrevlog filelog_filelog
                      revlog_clone).
Local Abbreviation clonerevlogs_loop :=
  (_clonerevlogs_loop changelog_changelog manifest_manifestrevlog filelog_filelog
                      revlog_clone).
Local Abbreviation clonerevlogs :=
  (_clonerevlogs changelog_changelog manifest_manifestrevlog filelog_filelog
                 revlog_clone).
Local Abbreviation index_path_ :=
  (index_path changelog_changelog manifest_manifestrevlog filelog_filelog).
Local Abbreviation data_path_ :=
  (data_path changelog_changelog manifest_manifestrevlog filelog_filelog).
Local Abbreviation clone_of_ :=
  (clone_of changelog_changelog manifest_manifestrevlog filelog_filelog).
Local Abbreviation paths_apart :=
  (revlog_paths_apart changelog_changelog manifest_manifestrevlog filelog_filelog).
Local Abbreviation clonerevlogs_revcount :=
  (_clonerevlogs_revcount changelog_changelog manifest_manifestrevlog filelog_filelog).

(** [_copyrevlog] copies the index file, and the data file when there is
    one, byte for byte; it records no call of [clone]. *)
Lemma copyrevlog_copies (destrepo : repo) (oldrl : revlog) (name : string)
  (w : world) (ci : bytes) :
  let newrl := revlogfrompath destrepo name in
  let oldindex := join (opener oldrl) (indexfile oldrl) in
  let newindex := join (opener newrl) (indexfile newrl) in
  let olddata := join (opener oldrl) (datafile oldrl) in
  let newdata := join (opener newrl) (datafile newrl) in
  files w !! oldindex = Some ci ->
  newindex <> oldindex -> newindex <> olddata -> newindex <> newdata ->
  exists w',
    copyrevlog destrepo oldrl name w = (Ok tt, w')
    /\ files w' !! newindex = Some ci
    /\ files w' !! newdata
       = match files w !! olddata with
         | Some cd => Some cd
         | None => files w !! newdata
         end
    /\ clones w' = clones w
    /\ (forall k, k <> newindex -> k <> newdata -> files w' !! k = files w !! k).
Proof.
  intros newrl oldindex newindex olddata newdata Hci H1 H2 H3.
  unfold _copyrevlog. fold newrl. fold oldindex newindex olddata newdata.
  unfold bind at 1, create_empty at 1, modify at 1. fold newindex.
  unfold bind at 1.
  rewrite (copyfile_Ok _ _ _ ci)
    by (cbn [files]; rewrite lookup_insert_ne by solve_ne; exact Hci).
  cbn [files fncache clones].
  unfold bind at 1, exists_ at 1, gets at 1. cbn [files]. fold olddata.
  rewrite !lookup_insert_ne by solve_ne.
  destruct (files w !! olddata) as [cd|] eqn:Ed.
  - rewrite bool_decide_eq_true_2 by eauto.
    unfold bind at 1.
    rewrite (copyfile_Ok _ _ _ cd)
      by (cbn [files]; rewrite !lookup_insert_ne by solve_ne;
          exact Ed).
    cbn [files fncache clones].
    destruct (negb (endswith name "00changelog.i" || endswith name "00manifest.i"));
      unfold bind, fncache_add, modify, ret; cbn [files fncache clones];
      eexists; (split; [reflexivity|]); cbn [files clones];
      (split; [rewrite lookup_insert_ne by solve_ne; apply lookup_insert_eq|]);
      (split; [apply lookup_insert_eq|]); (split; [reflexivity|]);
      intros k Hk1 Hk2; rewrite !lookup_insert_ne by solve_ne;
      reflexivity.
  - rewrite bool_decide_eq_false_2 by (intros [x Hx]; discriminate).
    unfold bind at 1, ret at 1.
    destruct (negb (endswith name "00changelog.i" || endswith name "00manifest.i"));
      unfold bind, fncache_add, modify, ret; cbn [files fncache clones];
      eexists; (split; [reflexivity|]); cbn [files clones];
      (split; [apply lookup_insert_eq|]);
      (split; [rewrite !lookup_insert_ne by solve_ne; reflexivity|]);
      (split; [reflexivity|]);
      intros k Hk1 Hk2; rewrite !lookup_insert_ne by solve_ne;
      reflexivity.
Qed.


Lemma keeps_ret {A : Type} (a : A) : keeps_clones (ret a).
Proof. intros w r w' E. inversion E. reflexivity. Qed.

Lemma keeps_bind {A B : Type} (m : M world A) (k : A -> M world B) :
  keeps_clones m -> (forall a, keeps_clones (k a)) -> keeps_clones (bind m k).
Proof.
  intros Hm Hk w r w' E. unfold bind in E.
  destruct (m w) as [[a|e] w1] eqn:Em.
  - rewrite (Hk a _ _ _ E). exact (Hm _ _ _ Em).
  - inversion E; subst. exact (Hm _ _ _ Em).
Qed.

Lemma keeps_copyfile (src dest : string) : keeps_clones (copyfile src dest).
Proof.
  intros w r w' E. unfold copyfile, bind, get, put, raise in E.
  destruct (files w !! src); inversion E; reflexivity.
Qed.

Lemma keeps_copyrevlog (destrepo : repo) (oldrl : revlog) (name : string) :
  keeps_clones (copyrevlog destrepo oldrl name).
Proof.
  unfold _copyrevlog.
  apply keeps_bind; [intros w r w' E; inversion E; reflexivity|]. intros _.
  apply keeps_bind; [apply keeps_copyfile|]. intros _.
  apply keeps_bind; [intros w r w' E; inversion E; reflexivity|]. intros copydata.
  apply keeps_bind.
  { destruct copydata; [apply keeps_copyfile|apply keeps_ret]. }
  intros _.
  destruct (negb _); [|apply keeps_ret].
  apply keeps_bind; [intros w r w' E; inversion E; reflexivity|]. intros _.
  destruct copydata; [|apply keeps_ret].
  intros w r w' E; inversion E; reflexivity.
Qed.

Lemma cloned_entries_cons (revlogs : gset string) (u e : string) (size : Z)
  (rest : list (string * string * Z)) :
  cloned_entries revlogs ((u, e, size) :: rest)
  = if negb (endswith u ".d") && matchrevlog revlogs u
    then u :: cloned_entries revlogs rest
    else cloned_entries revlogs rest.
Proof.
  unfold cloned_entries. cbn [map fst]. rewrite filter_cons.
  destruct (endswith u ".d"), (matchrevlog revlogs u); cbn [negb andb].
  - rewrite decide_False by (intros [? ?]; discriminate). reflexivity.
  - rewrite decide_False by (intros [? ?]; discriminate). reflexivity.
  - rewrite decide_True by auto. reflexivity.
  - rewrite decide_False by (intros [? ?]; discriminate). reflexivity.
Qed.

(** The calls of [clone] a run of the copying loop has made: one for each
    selected revlog, in order, with the mode it was given. *)
Lemma clonerevlogs_loop_clones (srcrepo dstrepo : repo) (deltareuse : deltareuse_mode)
  (force : bool) (revlogs : gset string)
  (alldatafiles : list (string * string * Z)) :
  forall w w',
    clonerevlogs_loop srcrepo dstrepo deltareuse force revlogs alldatafiles w
    = (Ok tt, w') ->
    clones w'
    = (clones w
       ++ map (fun u => mkClone (revlogfrompath srcrepo u) (revlogfrompath dstrepo u)
                                deltareuse force)
              (cloned_entries revlogs alldatafiles))%list.
Proof.
  induction alldatafiles as [|[[u e] size] rest IH]; intros w w' E.
  - inversion E. cbn. rewrite app_nil_r. reflexivity.
  - cbn [_clonerevlogs_loop] in E. unfold bind at 1 in E.
    rewrite cloned_entries_cons.
    destruct (clonerevlogs_step srcrepo dstrepo deltareuse force revlogs u w)
      as [[[]|err] w1] eqn:Es; [|discriminate].
    rewrite (IH _ _ E). unfold _clonerevlogs_step in Es.
    destruct (endswith u ".d"); cbn [negb andb].
    { inversion Es; subst. reflexivity. }
    destruct (matchrevlog revlogs u).
    + unfold do_clone, bind, get, lift, put in Es.
      destruct (revlog_clone _ (files w)); inversion Es; subst.
      cbn [clones map]. rewrite <- app_assoc. reflexivity.
    + rewrite (keeps_copyrevlog _ _ _ _ _ _ Es). reflexivity.
Qed.

Lemma revlog_entries_cons (u e : string) (size : Z)
  (rest : list (string * string * Z)) :
  revlog_entries ((u, e, size) :: rest)
  = if endswith u ".d" then revlog_entries rest else u :: revlog_entries rest.
Proof.
  unfold revlog_entries. cbn [map fst]. rewrite filter_cons.
  destruct (endswith u ".d").
  - rewrite decide_False by discriminate. reflexivity.
  - rewrite decide_True by reflexivity. reflexivity.
Qed.

Lemma copied_entries_cons (revlogs : gset string) (u e : string) (size : Z)
  (rest : list (string * string * Z)) :
  copied_entries revlogs ((u, e, size) :: rest)
  = if negb (endswith u ".d") && negb (matchrevlog revlogs u)
    then u :: copied_entries revlogs rest
    else copied_entries revlogs rest.
Proof.
  unfold copied_entries. cbn [map fst]. rewrite filter_cons.
  destruct (endswith u ".d"), (matchrevlog revlogs u); cbn [negb andb].
  - rewrite decide_False by (intros [? ?]; discriminate). reflexivity.
  - rewrite decide_False by (intros [? ?]; discriminate). reflexivity.
  - rewrite decide_False by (intros [? ?]; discriminate). reflexivity.
  - rewrite decide_True by auto. reflexivity.
Qed.

Lemma elem_of_copied_entries (revlogs : gset string)
  (alldatafiles : list (string * string * Z)) (u : string) :
  u ∈ copied_entries revlogs alldatafiles
  <-> u ∈ revlog_entries alldatafiles /\ matchrevlog revlogs u = false.
Proof.
  unfold copied_entries, revlog_entries. rewrite !list_elem_of_filter. tauto.
Qed.

Lemma elem_of_cloned_entries (revlogs : gset string)
  (alldatafiles : list (string * string * Z)) (u : string) :
  u ∈ cloned_entries revlogs alldatafiles
  <-> u ∈ revlog_entries alldatafiles /\ matchrevlog revlogs u = true.
Proof.
  unfold cloned_entries, revlog_entries. rewrite !list_elem_of_filter. tauto.
Qed.

(** One turn of the copying loop on a revlog entry: it returns; a selected
    revlog is cloned, one that is not selected is copied; no file but the
    two of the destination revlog changes. *)
Lemma clonerevlogs_step_run (srcrepo dstrepo : repo) (deltareuse : deltareuse_mode)
  (force : bool) (revlogs : gset string) (u : string) (w : world) :
  clone_writes_new_revlog revlog_clone ->
  endswith u ".d" = false ->
  index_path_ dstrepo u <> index_path_ srcrepo u ->
  index_path_ dstrepo u <> data_path_ srcrepo u ->
  index_path_ dstrepo u <> data_path_ dstrepo u ->
  (matchrevlog revlogs u = false -> is_Some (files w !! index_path_ srcrepo u)) ->
  exists w1,
    clonerevlogs_step srcrepo dstrepo deltareuse force revlogs u w = (Ok tt, w1)
    /\ clones w1
       = (clones w
          ++ if matchrevlog revlogs u
             then [clone_of_ srcrepo dstrepo deltareuse force u] else [])%list
    /\ (forall k, k <> index_path_ dstrepo u -> k <> data_path_ dstrepo u ->
                  files w1 !! k = files w !! k)
    /\ (matchrevlog revlogs u = false ->
        files w1 !! index_path_ dstrepo u = files w !! index_path_ srcrepo u
        /\ files w1 !! data_path_ dstrepo u
           = match files w !! data_path_ srcrepo u with
             | Some cd => Some cd
             | None => files w !! data_path_ dstrepo u
             end).
Proof.
  intros Hclone Hd H1 H2 H3 Hsrc.
  unfold _clonerevlogs_step. rewrite Hd.
  destruct (matchrevlog revlogs u) eqn:Hm.
  - destruct (Hclone (clone_of_ srcrepo dstrepo deltareuse force u) (files w))
      as (fs' & Hrun & Hframe).
    unfold do_clone, bind, get, lift, put.
    change (mkClone (revlogfrompath srcrepo u) (revlogfrompath dstrepo u)
                    deltareuse force)
      with (clone_of_ srcrepo dstrepo deltareuse force u).
    rewrite Hrun. eexists. split; [reflexivity|]. cbn [clones files].
    split; [reflexivity|]. split; [|discriminate].
    intros k Hk1 Hk2. apply Hframe; assumption.
  - destruct (Hsrc eq_refl) as [ci Hci].
    destruct (copyrevlog_copies dstrepo (revlogfrompath srcrepo u) u w ci
                Hci H1 H2 H3) as (w1 & Hrun & Hi & Hdat & Hcl & Hframe).
    exists w1. split; [exact Hrun|]. split; [rewrite Hcl, app_nil_r; reflexivity|].
    split; [exact Hframe|]. intros _.
    split; [exact (eq_trans Hi (eq_sym Hci))|exact Hdat].
Qed.

(** The copying loop under the assumptions on the environment: it returns;
    the selected revlogs are cloned, in order; every revlog that is not
    selected is copied; no other file changes. *)
Lemma clonerevlogs_loop_run (srcrepo dstrepo : repo) (deltareuse : deltareuse_mode)
  (force : bool) (revlogs : gset string) :
  clone_writes_new_revlog revlog_clone ->
  forall (alldatafiles : list (string * string * Z)) (w : world),
    paths_apart srcrepo dstrepo (revlog_entries alldatafiles) ->
    (forall u, u ∈ copied_entries revlogs alldatafiles ->
               is_Some (files w !! index_path_ srcrepo u)) ->
    exists w',
      clonerevlogs_loop srcrepo dstrepo deltareuse force revlogs alldatafiles w
      = (Ok tt, w')
      /\ clones w'
         = (clones w
            ++ map (clone_of_ srcrepo dstrepo deltareuse force)
                   (cloned_entries revlogs alldatafiles))%list
      /\ (forall k,
            (forall u, u ∈ revlog_entries alldatafiles ->
                       k <> index_path_ dstrepo u /\ k <> data_path_ dstrepo u) ->
            files w' !! k = files w !! k)
      /\ (forall u, u ∈ copied_entries revlogs alldatafiles ->
            files w' !! index_path_ dstrepo u = files w !! index_path_ srcrepo u
            /\ files w' !! data_path_ dstrepo u
               = match files w !! data_path_ srcrepo u with
                 | Some cd => Some cd
                 | None => files w !! data_path_ dstrepo u
                 end).
Proof.
  intros Hclone.
  induction alldatafiles as [|[[u0 e] size] rest IH]; intros w Hap Hsrc.
  - exists w. split; [reflexivity|]. split; [cbn; rewrite app_nil_r; reflexivity|].
    split; [reflexivity|]. intros u Hu. apply elem_of_nil in Hu. contradiction.
  - cbn [_clonerevlogs_loop]. unfold bind at 1.
    rewrite revlog_entries_cons in Hap |- *.
    rewrite copied_entries_cons in Hsrc |- *. rewrite cloned_entries_cons.
    destruct (endswith u0 ".d") eqn:Hd; cbn [negb andb] in *.
    { unfold _clonerevlogs_step. rewrite Hd. unfold ret at 1.
      exact (IH w Hap Hsrc). }
    assert (Hin0 : u0 ∈ u0 :: revlog_entries rest) by apply list_elem_of_here.
    destruct (Hap u0 u0 Hin0 Hin0) as (A1 & A2 & _ & _ & A5 & _).
    destruct (clonerevlogs_step_run srcrepo dstrepo deltareuse force revlogs u0 w
                Hclone Hd A1 A2 A5) as (w1 & Hstep & Hcl1 & Hfr1 & Hcp1).
    { intros Hm. apply Hsrc. rewrite Hm. apply list_elem_of_here. }
    rewrite Hstep.
    assert (Hap' : paths_apart srcrepo dstrepo (revlog_entries rest)).
    { intros a b Ha Hb.
      apply Hap; apply list_elem_of_further; assumption. }
    assert (Hsrcpath : forall u, u ∈ revlog_entries rest ->
              files w1 !! index_path_ srcrepo u = files w !! index_path_ srcrepo u
              /\ files w1 !! data_path_ srcrepo u = files w !! data_path_ srcrepo u).
    { intros u Hu.
      destruct (Hap u0 u Hin0 (list_elem_of_further _ _ _ Hu))
        as (B1 & B2 & B3 & B4 & _).
      split; apply Hfr1; apply not_eq_sym; assumption. }
    assert (Hsrc' : forall u, u ∈ copied_entries revlogs rest ->
                              is_Some (files w1 !! index_path_ srcrepo u)).
    { intros u Hu.
      destruct (proj1 (elem_of_copied_entries _ _ _) Hu) as [Hur Hum].
      rewrite (proj1 (Hsrcpath u Hur)). apply Hsrc.
      destruct (matchrevlog revlogs u0); cbn [negb];
        [exact Hu|apply list_elem_of_further; exact Hu]. }
    destruct (IH w1 Hap' Hsrc') as (w' & Hrun & Hcl & Hfr & Hcp).
    exists w'. split; [exact Hrun|].
    split.
    { rewrite Hcl, Hcl1. rewrite <- app_assoc.
      destruct (matchrevlog revlogs u0); reflexivity. }
    split.
    { intros k Hk. rewrite Hfr.
      - destruct (Hk u0 Hin0) as [K1 K2]. apply Hfr1; assumption.
      - intros u Hu. apply Hk. apply list_elem_of_further. exact Hu. }
    intros u Hu.
    assert (Hur : u ∈ u0 :: revlog_entries rest /\ matchrevlog revlogs u = false).
    { destruct (matchrevlog revlogs u0) eqn:Hm0; cbn [negb] in Hu.
      - destruct (proj1 (elem_of_copied_entries _ _ _) Hu) as [Hur Hum].
        split; [apply list_elem_of_further; exact Hur|exact Hum].
      - apply elem_of_cons in Hu. destruct Hu as [->|Hu].
        + split; [apply list_elem_of_here|exact Hm0].
        + destruct (proj1 (elem_of_copied_entries _ _ _) Hu) as [Hur Hum].
          split; [apply list_elem_of_further; exact Hur|exact Hum]. }
    destruct Hur as [Hur Hum].
    destruct (decide (u ∈ revlog_entries rest)) as [Hrest|Hrest].
    + (* the entry comes again later: the later copy is the one that stays *)
      destruct (Hcp u (proj2 (elem_of_copied_entries _ _ _) (conj Hrest Hum)))
        as [Hi Hdat].
      destruct (Hsrcpath u Hrest) as [Si Sd].
      split; [rewrite Hi; exact Si|].
      rewrite Hdat, Sd.
      destruct (files w !! data_path_ srcrepo u) as [cd|] eqn:Ed; [reflexivity|].
      destruct (decide (u = u0)) as [->|Hne].
      * destruct (Hcp1 Hum) as [_ Hd1]. rewrite Hd1, Ed. reflexivity.
      * destruct (Hap u0 u Hin0 Hur) as (_ & _ & _ & _ & B5 & B6).
        apply Hfr1; [apply not_eq_sym; exact B5|].
        apply not_eq_sym. apply B6. intros ->. apply Hne. reflexivity.
    + (* the entry is the first one and does not come again *)
      assert (u = u0) as ->.
      { apply elem_of_cons in Hur. destruct Hur as [?|?]; [assumption|contradiction]. }
      destruct (Hcp1 Hum) as [Hi1 Hd1].
      assert (Fi : files w' !! index_path_ dstrepo u0
                   = files w1 !! index_path_ dstrepo u0).
      { apply Hfr. intros u Hu'.
        assert (Hne : u0 <> u) by (intros ->; contradiction).
        destruct (Hap u0 u Hin0 (list_elem_of_further _ _ _ Hu'))
          as (_ & _ & _ & _ & B5 & B6).
        split; [apply (B6 Hne)|exact B5]. }
      assert (Fd : files w' !! data_path_ dstrepo u0
                   = files w1 !! data_path_ dstrepo u0).
      { apply Hfr. intros u Hu'.
        assert (Hne : u0 <> u) by (intros ->; contradiction).
        destruct (Hap u0 u Hin0 (list_elem_of_further _ _ _ Hu'))
          as (_ & _ & _ & _ & _ & B6).
        destruct (Hap u u0 (list_elem_of_further _ _ _ Hu') Hin0)
          as (_ & _ & _ & _ & C5 & _).
        split; [apply not_eq_sym; exact C5|apply (B6 Hne)]. }
      rewrite Fi, Fd. split; [exact Hi1|exact Hd1].
Qed.

Lemma clones_only_keeps (P : clone_call -> Prop) {A : Type} (m : M world A) :
  keeps_clones m -> clones_only P m.
Proof.
  intros Hm w r w' E. exists []. rewrite app_nil_r. split; [exact (Hm _ _ _ E)|].
  constructor.
Qed.

Lemma clones_only_bind (P : clone_call -> Prop) {A B : Type} (m : M world A)
  (k : A -> M world B) :
  clones_only P m -> (forall a, clones_only P (k a)) -> clones_only P (bind m k).
Proof.
  intros Hm Hk w r w' E. unfold bind in E.
  destruct (m w) as [[a|e] w1] eqn:Em.
  - destruct (Hm _ _ _ Em) as (c1 & E1 & F1).
    destruct (Hk a _ _ _ E) as (c2 & E2 & F2).
    exists (c1 ++ c2)%list. rewrite E2, E1, app_assoc. split; [reflexivity|].
    apply Forall_app; split; assumption.
  - inversion E; subst. exact (Hm _ _ _ Em).
Qed.

Lemma clones_only_mono (P Q : clone_call -> Prop) {A : Type} (m : M world A) :
  (forall c, P c -> Q c) -> clones_only P m -> clones_only Q m.
Proof.
  intros HPQ Hm w r w' E. destruct (Hm _ _ _ E) as (c & Ec & Fc).
  exists c. split; [exact Ec|]. eapply Forall_impl; eassumption.
Qed.

Lemma keeps_fs_call (f : gmap string bytes -> result (gmap string bytes)) :
  keeps_clones (fs_call f).
Proof.
  intros w r w' E. unfold fs_call, bind, get, lift, put in E.
  destruct (f (files w)); inversion E; reflexivity.
Qed.

Lemma keeps_copy_store_files (srcrepo dstrepo : repo)
  (listing : list (string * Z * Z)) :
  keeps_clones (_copy_store_files srcrepo dstrepo listing).
Proof.
  induction listing as [|[[p kind] st] rest IH]; [apply keeps_ret|].
  cbn [_copy_store_files]. apply keeps_bind; [|intros _; exact IH].
  destruct (negb _); [apply keeps_ret|apply keeps_copyfile].
Qed.

(** The calls of [clone] made by the copying loop, whatever its outcome,
    are calls for selected entries with the mode it was given. *)
Lemma clonerevlogs_loop_clones_only (srcrepo dstrepo : repo)
  (deltareuse : deltareuse_mode) (force : bool) (revlogs : gset string)
  (alldatafiles : list (string * string * Z)) :
  clones_only
    (fun call => exists u, u ∈ cloned_entries revlogs alldatafiles
                           /\ call = clone_of_ srcrepo dstrepo deltareuse force u)
    (clonerevlogs_loop srcrepo dstrepo deltareuse force revlogs alldatafiles).
Proof.
  induction alldatafiles as [|[[u0 e] size] rest IH].
  - apply clones_only_keeps, keeps_ret.
  - cbn [_clonerevlogs_loop]. apply clones_only_bind.
    + unfold _clonerevlogs_step. rewrite cloned_entries_cons.
      destruct (endswith u0 ".d"); cbn [negb andb];
        [apply clones_only_keeps, keeps_ret|].
      destruct (matchrevlog revlogs u0); cbn [negb andb];
        [|apply clones_only_keeps, keeps_copyrevlog].
      intros w r w' E. unfold do_clone, bind, get, lift, put in E.
      destruct (revlog_clone _ (files w)); inversion E; subst; cbn [clones].
      * eexists. split; [reflexivity|]. constructor; [|constructor].
        exists u0. split; [apply list_elem_of_here|reflexivity].
      * exists []. rewrite app_nil_r. split; [reflexivity|constructor].
    + intros _. eapply clones_only_mono; [|exact IH].
      intros c (u & Hu & ->). exists u. split; [|reflexivity].
      rewrite cloned_entries_cons. destruct (_ && _); [|exact Hu].
      apply list_elem_of_further. exact Hu.
Qed.

Section Upgrade.
Variable transaction_enter : repo -> gmap string bytes -> result (gmap string bytes).
Variable transaction_exit :
  repo -> bool -> gmap string bytes -> result (gmap string bytes).
Variable mkdtemp : string -> string -> gmap string bytes -> string.
Variable vfsmod_vfs : string -> vfs.
Variable writereporequirements :
  repo -> gset string -> gmap string bytes -> result (gmap string bytes).
Variable util_rename :
  string -> string -> gmap string bytes -> result (gmap string bytes).
Variable vfs_unlink : vfs -> string -> gmap string bytes -> result (gmap string bytes).

Local Abbreviation upgrade_ :=
  (upgrade changelog_changelog manifest_manifestrevlog filelog_filelog revlog_clone
           transaction_enter transaction_exit mkdtemp vfsmod_vfs
           writereporequirements util_rename vfs_unlink).
Local Abbreviation with_transaction_ :=
  (with_transaction transaction_enter transaction_exit).

Lemma clones_only_with_transaction (P : clone_call -> Prop) {A : Type}
  (r : repo) (body : M world A) :
  clones_only P body -> clones_only P (with_transaction_ r body).
Proof.
  intros Hb. unfold with_transaction.
  apply clones_only_bind; [apply clones_only_keeps, keeps_fs_call|]. intros _.
  intros w res w' E.
  destruct (body w) as [[a|err] w1] eqn:Eb;
    destruct (Hb _ _ _ Eb) as (c & Ec & Fc); exists c; rewrite <- Ec;
    (split; [|exact Fc]).
  - refine (keeps_bind _ _ (keeps_fs_call _) (fun _ => keeps_ret a) _ _ _ E).
  - destruct (fs_call (transaction_exit r true) w1) as [[u|err'] w2] eqn:Ex;
      inversion E; subst; exact (keeps_fs_call _ _ _ _ Ex).
Qed.

(** The calls of [clone] made by [upgrade], whatever its outcome, are calls
    for selected entries with the mode chosen from the actions. *)
Lemma upgrade_clones_only (srcrepo dstrepo : repo) (op : upgrade_operation)
  (alldatafiles : list (string * string * Z)) (readdir : list (string * Z * Z)) :
  clones_only
    (fun call =>
       exists u, u ∈ cloned_entries (revlogs_to_process op) alldatafiles
                 /\ call = clone_of_ srcrepo dstrepo
                             (upgrade_deltareuse (actions op))
                             (bool_decide ("re-delta-multibase" ∈ actions op)) u)
    (upgrade_ srcrepo dstrepo op alldatafiles readdir).
Proof.
  unfold upgrade.
  destruct (negb (currentwlock srcrepo));
    [apply clones_only_keeps; intros w r w' E; inversion E; reflexivity|].
  destruct (negb (currentwlock dstrepo));
    [apply clones_only_keeps; intros w r w' E; inversion E; reflexivity|].
  apply clones_only_bind.
  { apply clones_only_with_transaction. unfold _clonerevlogs.
    destruct (_ =? 0)%Z; [apply clones_only_keeps, keeps_ret|].
    apply clonerevlogs_loop_clones_only. }
  intros _. apply clones_only_keeps.
  apply keeps_bind; [apply keeps_copy_store_files|]. intros _.
  apply keeps_bind; [apply keeps_ret|]. intros _.
  apply keeps_bind; [intros w r w' E; inversion E; reflexivity|]. intros w0.
  apply keeps_bind; [apply keeps_copyfile|]. intros _.
  repeat (apply keeps_bind; [apply keeps_fs_call|]; intros _).
  apply keeps_ret.
Qed.


End Upgrade.
End Clone.
End clone_facts.

Module engine_examples.
Import engine engine_facts clone_facts engine_samples.
Local Open Scope string_scope.

Lemma sample_joins_apart (p q : string) :
  join (store_rawvfs sample_srcrepo) p <> join (store_rawvfs sample_dstrepo) q.
Proof. cbn. discriminate. Qed.

Lemma sample_dst_join_inj (p q : string) :
  join (store_rawvfs sample_dstrepo) p = join (store_rawvfs sample_dstrepo) q ->
  p = q.
Proof. cbv. intros E. inversion E. reflexivity. Qed.

Lemma sample_readdir_sources (p : string) (kind st : Z) :
  (p, kind, st) ∈ sample_readdir -> _filterstorefile p kind = true ->
  is_Some (files sample_store !! join (store_rawvfs sample_srcrepo) p).
Proof.
  intros Hin Hf. unfold sample_readdir in Hin.
  repeat (apply elem_of_cons in Hin;
          destruct Hin as [Heq|Hin];
          [inversion Heq; subst;
           first [discriminate Hf | vm_compute; eauto]|]).
  apply elem_of_nil in Hin. contradiction.
Qed.

Lemma store_file_copied_iff_filter_witness :
  (forall p q, join (store_rawvfs sample_srcrepo) p
               <> join (store_rawvfs sample_dstrepo) q)
  /\ (forall p kind st,
      (p, kind, st) ∈ sample_readdir -> _filterstorefile p kind = true ->
      is_Some (files sample_store !! join (store_rawvfs sample_srcrepo) p))
  /\ exists w',
      _copy_store_files sample_srcrepo sample_dstrepo
        (merge_sort listing_le sample_readdir) sample_store = (Ok tt, w')
      /\ files w' !! "dst/phaseroots" = Some [x03]
      /\ files w' !! "dst/lock" = None
      /\ files w' !! "dst/00changelog.i" = None.
Proof.
  split; [exact sample_joins_apart|]. split; [exact sample_readdir_sources|].
  destruct (store_file_copied_iff_filter sample_srcrepo sample_dstrepo
              sample_joins_apart sample_dst_join_inj sample_readdir sample_store
              sample_readdir_sources) as (_ & w' & Hrun & Hcopied & Hkept & _).
  exists w'. split; [exact Hrun|]. split; [|split].
  - assert (Hin : ("phaseroots", S_IFREG, 1%Z) ∈ sample_readdir) by left.
    exact (Hcopied _ _ _ Hin eq_refl).
  - refine (eq_trans (Hkept "lock" _) eq_refl). intros kind st Hin.
    unfold sample_readdir in Hin.
    repeat (apply elem_of_cons in Hin;
            destruct Hin as [Heq|Hin]; [inversion Heq; subst; reflexivity|]).
    apply elem_of_nil in Hin. contradiction.
  - refine (eq_trans (Hkept "00changelog.i" _) eq_refl). intros kind st Hin.
    unfold sample_readdir in Hin.
    repeat (apply elem_of_cons in Hin;
            destruct Hin as [Heq|Hin]; [inversion Heq; subst; reflexivity|]).
    apply elem_of_nil in Hin. contradiction.
Defined.

Lemma sample_clone_writes_new_revlog : clone_writes_new_revlog sample_clone.
Proof. intros call fs. exists fs. split; [reflexivity|]. intros; reflexivity. Qed.

Lemma full_datafiles_entries :
  revlog_entries full_datafiles = ["00changelog.i"; "data/a.i"]
  /\ cloned_entries (revlogs_to_process sample_op) full_datafiles = ["00changelog.i"]
  /\ copied_entries (revlogs_to_process sample_op) full_datafiles = ["data/a.i"].
Proof. repeat split; vm_compute; reflexivity. Qed.

Lemma full_datafiles_apart :
  revlog_paths_apart sample_changelog sample_manifest (sample_filelog 2)
    sample_srcrepo sample_dstrepo (revlog_entries full_datafiles).
Proof.
  rewrite (proj1 full_datafiles_entries). intros u u' Hu Hu'.
  apply elem_of_cons in Hu. destruct Hu as [->|Hu];
    [|apply list_elem_of_singleton in Hu; subst u];
    (apply elem_of_cons in Hu'; destruct Hu' as [->|Hu'];
     [|apply list_elem_of_singleton in Hu'; subst u']);
    vm_compute;
    (split; [discriminate|]); (split; [discriminate|]); (split; [discriminate|]);
    (split; [discriminate|]); (split; [discriminate|]);
    intros Hne; try (exfalso; apply Hne; reflexivity);
    split; discriminate.
Qed.



End engine_examples.

Module lookup_facts.
Import struct_facts codec_facts index_facts nodemap_facts null_facts strip_facts
  sidedata_facts append_facts parsers.
Import Py.
Local Open Scope py_scope.

Lemma testbit_small (t : Z) (n k : Z) :
  0 <= t < 2 ^ n -> n <= k -> Z.testbit t k = false.
Proof.
  intros Ht Hk. destruct (Z.eq_dec t 0) as [->|Hne].
  - apply Z.bits_0.
  - apply Z.bits_above_log2; [lia|].
    assert (Z.log2 t < n); [|lia].
    apply Z.log2_lt_pow2; lia.
Qed.

(** X1. The type stored by [offset_type] in the 16 low bits is the one
    [gettype] reads, and the offset is what lies above them. *)
Theorem offset_type_gettype_inverse (offset type : Z) :
  0 <= type < 65536 ->
  gettype (offset_type offset type) = type
  /\ Z.shiftr (offset_type offset type) 16 = offset.
Proof.
  intros Ht. unfold gettype, offset_type. split.
  - apply Z.bits_inj'. intros k Hk.
    rewrite Z.land_spec, Z.lor_spec.
    change 65535 with (Z.ones 16).
    destruct (Z.ltb_spec k 16) as [Hlt|Hge].
    + rewrite Z.ones_spec_low by lia.
      rewrite Z.shiftl_spec_low by lia. cbn [orb]. apply andb_true_r.
    + rewrite Z.ones_spec_high by lia. rewrite andb_false_r.
      symmetry. apply (testbit_small type 16); [exact Ht|lia].
  - apply Z.bits_inj'. intros k Hk.
    rewrite Z.shiftr_spec by lia. rewrite Z.lor_spec.
    rewrite Z.shiftl_spec by lia.
    replace (k + 16 - 16) with k by lia.
    rewrite (testbit_small type 16 (k + 16)) by lia.
    apply orb_false_r.
Qed.

Section Lookup.
Context {modes : CompModes}.

(** X3. Which keys [index[i]] accepts: [-1] is the null entry, a revision
    of the index is read without error, any other integer is an
    [IndexError] (negative numbers do not count from the end) and any key
    that is no integer a [TypeError]. *)
Theorem getitem_accepts_revisions_and_minus_one (self : index) :
  wf_index self ->
  __getitem__ self (PyInt (-1)) = Ok null_item
  /\ (forall i, 0 <= i < __len__ self ->
        exists e, __getitem__ self (PyInt i) = Ok e)
  /\ (forall i, i < -1 \/ __len__ self <= i ->
        __getitem__ self (PyInt i) = Raise IndexError)
  /\ (forall key, (forall z, key <> PyInt z) ->
        __getitem__ self key = Raise TypeError).
Proof.
  intros Hwf. split; [reflexivity|]. split; [|split].
  - intros i Hi. apply getitem_total; assumption.
  - intros i Hi.
    destruct (Z.eq_dec i (-1)) as [->|Hne].
    + destruct Hi as [Hi|Hi]; [lia|].
      pose proof (wf_len_lgt self Hwf). destruct Hwf as [H0 _]. lia.
    + apply getitem_out_of_range; [assumption|lia].
  - intros key Hkey. destruct key as [|z|b|a b c]; try reflexivity.
    exfalso. exact (Hkey z eq_refl).
Qed.

Lemma fill_pure_snoc (nm : gmap bytes Z) (revs : list Z) (es : list entry)
  (r : Z) (e : entry) :
  length revs = length es ->
  fill_pure nm (revs ++ [r]) (es ++ [e])
  = <[node_id e := r]> (fill_pure nm revs es).
Proof.
  intros Hl. rewrite fill_pure_app by assumption. reflexivity.
Qed.

Lemma fill_pure_is_Some (revs : list Z) (es : list entry) (n : bytes) :
  length revs = length es ->
  forall nm : gmap bytes Z,
    is_Some (fill_pure nm revs es !! n)
    <-> is_Some (nm !! n) \/ n ∈ map node_id es.
Proof.
  revert es. induction revs as [|r revs IH]; intros es Hl nm.
  - destruct es; [|discriminate]. cbn. rewrite elem_of_nil. tauto.
  - destruct es as [|e es]; [discriminate|].
    change (fill_pure nm (r :: revs) (e :: es))
      with (fill_pure (<[node_id e := r]> nm) revs es).
    rewrite IH by (cbn in Hl; lia).
    cbn [map]. rewrite elem_of_cons.
    destruct (decide (n = node_id e)) as [->|Hne].
    + rewrite lookup_insert_eq. split; [intros _; right; left; reflexivity|].
      intros _. left. eauto.
    + rewrite lookup_insert_ne by congruence. tauto.
Qed.

(** The lookups read the map [_nodemap] hands out. *)
Lemma lookups_found (self : index) (nm : gmap bytes Z) (self' : index)
  (n : bytes) (r : Z) :
  _nodemap_get self = (Ok nm, self') -> nm !! n = Some r ->
  (has_node n self).1 = Ok true
  /\ (rev n self).1 = Ok r
  /\ (get_rev n self).1 = Ok (Some r).
Proof.
  intros Hg Hn. unfold has_node, rev, get_rev, bind. rewrite Hg, Hn.
  unfold ret. cbn [fst]. split; [|split; reflexivity].
  rewrite bool_decide_eq_true_2; [reflexivity|]. eauto.
Qed.

(** X6. On a coherent index whose revisions have distinct nodes, the node
    of revision [i] is known and resolves to [i], by [rev] and by
    [get_rev]. *)
Theorem node_of_revision_resolves_to_it (self : index) (i : Z) (e : entry) :
  wf_index self -> nodemap_consistent self -> nodes_distinct self ->
  0 <= i < __len__ self -> __getitem__ self (PyInt i) = Ok e ->
  (has_node (node_id e) self).1 = Ok true
  /\ (rev (node_id e) self).1 = Ok i
  /\ (get_rev (node_id e) self).1 = Ok (Some i).
Proof.
  intros Hwf Hc Hd Hi He.
  destruct (nodemap_get_spec self Hwf Hc) as (es & Hes & Hget).
  cbn zeta in Hget.
  pose proof (distinct_NoDup self es Hd Hes) as Hnd.
  assert (Hr : range 0 (__len__ self) !! Z.to_nat i = Some i).
  { rewrite range_lookup by lia. f_equal. lia. }
  pose proof (entries_functional self _ _ _ _ _ Hes Hr He) as Hk.
  apply (lookups_found self _ _ _ _ Hget).
  exact (fill_pure_in _ _ _ _ _ _ Hnd Hr Hk).
Qed.

(** X7. On a coherent index, [has_node] answers [True] for the null node
    and for the node of each revision, and [False] for any other node. *)
Theorem has_node_iff_null_or_stored (self : index) (n : bytes) :
  wf_index self -> nodemap_consistent self ->
  exists b,
    (has_node n self).1 = Ok b
    /\ (b = true <->
        n = nullid
        \/ exists i e, 0 <= i < __len__ self
             /\ __getitem__ self (PyInt i) = Ok e /\ node_id e = n).
Proof.
  intros Hwf Hc.
  destruct (nodemap_get_spec self Hwf Hc) as (es & Hes & Hget).
  cbn zeta in Hget.
  set (nm := fill_pure {[ nullid := nullrev ]} (range 0 (__len__ self)) es) in *.
  exists (bool_decide (is_Some (nm !! n))). split.
  - unfold has_node, bind. rewrite Hget. reflexivity.
  - rewrite bool_decide_eq_true. subst nm.
    rewrite fill_pure_is_Some by (apply (Forall2_length _ _ _ Hes)).
    split.
    + intros [Hs|Hin].
      * left. destruct (decide (n = nullid)) as [->|Hne]; [reflexivity|].
        rewrite lookup_singleton_ne in Hs by congruence.
        destruct Hs as [x Hx]. discriminate.
      * right. apply list_elem_of_fmap in Hin. destruct Hin as (e & -> & He).
        apply list_elem_of_lookup in He. destruct He as [k Hk].
        destruct (Forall2_lookup_r _ _ _ _ _ Hes Hk) as (r & Hr & Hre).
        exists r, e. split; [|split; [assumption|reflexivity]].
        apply elem_of_range. apply list_elem_of_lookup. eauto.
    + intros [->|(i & e & Hi & He & <-)].
      * left. rewrite lookup_singleton_eq. eauto.
      * right. apply list_elem_of_fmap. exists e. split; [reflexivity|].
        assert (Hr : range 0 (__len__ self) !! Z.to_nat i = Some i).
        { rewrite range_lookup by lia. f_equal. lia. }
        apply list_elem_of_lookup. exists (Z.to_nat i).
        exact (entries_functional self _ _ _ _ _ Hes Hr He).
Qed.

(** X8. What [del index[...]] refuses, leaving the index as it was: a key
    that is not a slice [a:-1] without step is a [ValueError], a start
    that is no integer a [TypeError], and a start that is no revision of
    the index, its length included, an [IndexError]. *)
Theorem delitem_refusals (self : index) :
  (forall key, (forall start, key <> PySlice start (PyInt (-1)) PyNone) ->
     __delitem__ key self = (Raise ValueError, self))
  /\ (forall start, (forall z, start <> PyInt z) ->
        __delitem__ (PySlice start (PyInt (-1)) PyNone) self
        = (Raise TypeError, self))
  /\ (forall i, i < 0 \/ __len__ self <= i ->
        __delitem__ (PySlice (PyInt i) (PyInt (-1)) PyNone) self
        = (Raise IndexError, self)).
Proof.
  split; [|split].
  - intros key Hkey. apply delitem_rejects. assumption.
  - intros start Hs. unfold __delitem__, bind, get, lift.
    destruct start as [|z|b|a b c]; try reflexivity.
    exfalso. exact (Hs z eq_refl).
  - intros i Hi. unfold __delitem__, bind, get, lift.
    rewrite (check_index_out self i Hi). reflexivity.
Qed.

End Lookup.
End lookup_facts.

Module record_facts.
Import struct_facts codec_facts index_facts nodemap_facts null_facts strip_facts
  sidedata_facts append_facts lookup_facts parsers.
Import Py.
Local Open Scope py_scope.

Section Records.
Context {modes : CompModes}.

(** The round trip of the codec, for any of the four classes. *)
Lemma pack_unpack_cls (c : index_class) (tup : entry) :
  (if is_v2 c
   then wf_entry_v2 tup /\ 0 <= data_comp_mode tup <= 3
        /\ 0 <= sidedata_comp_mode tup <= 3
   else wf_entry_v1 tup /\ sidedata_offset tup = 0 /\ sidedata_length tup = 0) ->
  exists raw,
    _pack_entry c tup = Ok raw /\ len raw = entry_size c
    /\ _unpack_entry c raw
       = Ok (if is_v2 c then tup
             else with_comp_modes COMP_MODE_INLINE COMP_MODE_INLINE tup).
Proof.
  intros H. destruct c; cbn [is_v2] in *.
  - destruct H as (Hw & Ho & Hl). exact (pack_unpack_v1 tup Hw Ho Hl).
  - destruct H as (Hw & Ho & Hl). exact (pack_unpack_v1 tup Hw Ho Hl).
  - destruct H as (Hw & Hd & Hs).
    destruct (pack_unpack_v2 tup Hw Hd Hs) as (raw & b & H1 & H2 & _ & _ & _ & _ & H7).
    exists raw. auto.
  - destruct H as (Hw & Hd & Hs).
    destruct (pack_unpack_v2 tup Hw Hd Hs) as (raw & b & H1 & H2 & _ & _ & _ & _ & H7).
    exists raw. auto.
Qed.

(** What a record of the right length unpacks to can be packed again. *)
Lemma unpack_entry_packable (c : index_class) (raw : bytes) (e : entry) :
  len raw = entry_size c -> _unpack_entry c raw = Ok e ->
  (if is_v2 c
   then wf_entry_v2 e /\ 0 <= data_comp_mode e <= 3
        /\ 0 <= sidedata_comp_mode e <= 3
   else wf_entry_v1 e /\ sidedata_offset e = 0 /\ sidedata_length e = 0)
  /\ (is_v2 c = false ->
      with_comp_modes COMP_MODE_INLINE COMP_MODE_INLINE e = e).
Proof.
  intros Hl Hu.
  destruct (unpack_entry_Ok c raw Hl) as (e' & Hu' & Hw1 & Hw2 & Hw3).
  rewrite Hu in Hu'. inversion Hu'; subst e'. clear Hu'.
  split.
  - destruct (is_v2 c); [apply Hw2; reflexivity|].
    destruct (Hw3 eq_refl). auto.
  - intros Hv. unfold _unpack_entry in Hu. rewrite Hv in Hu.
    unfold _unpack_entry_v1 in Hu.
    destruct (unpack (format INDEX_ENTRY_V1) raw) as [r|]; [|discriminate].
    cbn [rbind] in Hu.
    repeat (match type of Hu with
            | match ?x with _ => _ end = _ => destruct x; try discriminate
            end).
    inversion Hu. reflexivity.
Qed.

(** The entries an index hands out can be packed again. *)
Lemma getitem_packable (self : index) (i : Z) (e : entry) :
  wf_index self -> 0 <= i < __len__ self ->
  __getitem__ self (PyInt i) = Ok e ->
  (if is_v2 (cls self)
   then wf_entry_v2 e /\ 0 <= data_comp_mode e <= 3
        /\ 0 <= sidedata_comp_mode e <= 3
   else wf_entry_v1 e /\ sidedata_offset e = 0 /\ sidedata_length e = 0)
  /\ (is_v2 (cls self) = false ->
      with_comp_modes COMP_MODE_INLINE COMP_MODE_INLINE e = e).
Proof.
  intros Hwf Hi He.
  destruct (getitem_Ok_inv_entry self i e (proj1 Hi) He) as (_ & raw & r0 & Ed & Eu & Er).
  destruct (entry_data_Ok self i Hwf Hi) as (raw' & Ed' & Lr).
  rewrite Ed in Ed'. inversion Ed'; subst raw'. clear Ed'.
  destruct (unpack_entry_packable _ _ _ Lr Eu) as [Hp Hm].
  destruct (negb (_lgt self =? 0) && (i =? 0)); [|subst e; auto].
  subst e.
  destruct (gettype_mask (offset_flags r0)) as (Hmask & _ & _).
  assert (HQ : is_Q (offset_type 0 (gettype (offset_flags r0)))).
  { rewrite Hmask. unfold is_Q.
    assert (E : Z.land (offset_flags r0) 65535 = offset_flags r0 mod 2 ^ 16)
      by (apply (Z.land_ones _ 16); lia).
    rewrite E. pose proof (Z.mod_pos_bound (offset_flags r0) (2 ^ 16)). lia. }
  split.
  - destruct (is_v2 (cls self)).
    + destruct Hp as ((Hw1 & Hso & Hsl) & Hd & Hs).
      unfold wf_entry_v2, wf_entry_v1 in *. unfold with_offset_flags. entry_proj.
      tauto.
    + destruct Hp as (Hw1 & Hso & Hsl).
      unfold wf_entry_v1 in *. unfold with_offset_flags. entry_proj. tauto.
  - intros Hv. specialize (Hm Hv).
    unfold with_comp_modes, with_offset_flags in *. entry_proj.
    destruct r0; entry_proj. inversion Hm. congruence.
Qed.

(** X4. Appending a well-typed entry to a coherent index succeeds: the
    index is one revision longer and still coherent, the new revision
    reads as the entry (with the inline compression modes for a v1 index),
    the revisions that were there read as before, and the node of the
    entry resolves to the new revision. *)
Theorem append_then_read_and_resolve (self : index) (tup : entry) :
  wf_index self -> nodemap_consistent self ->
  (if is_v2 (cls self)
   then wf_entry_v2 tup /\ 0 <= data_comp_mode tup <= 3
        /\ 0 <= sidedata_comp_mode tup <= 3
   else wf_entry_v1 tup /\ sidedata_offset tup = 0 /\ sidedata_length tup = 0) ->
  exists self',
    append tup self = (Ok tt, self')
    /\ __len__ self' = __len__ self + 1
    /\ wf_index self' /\ nodemap_consistent self'
    /\ __getitem__ self' (PyInt (__len__ self))
       = Ok (if is_v2 (cls self) then tup
             else with_comp_modes COMP_MODE_INLINE COMP_MODE_INLINE tup)
    /\ (forall k, 0 <= k < __len__ self ->
          __getitem__ self' (PyInt k) = __getitem__ self (PyInt k))
    /\ (rev (node_id tup) self').1 = Ok (__len__ self)
    /\ (get_rev (node_id tup) self').1 = Ok (Some (__len__ self))
    /\ (has_node (node_id tup) self').1 = Ok true.
Proof.
  intros Hwf Hc Htup.
  destruct (pack_unpack_cls (cls self) tup Htup) as (raw & Hp & Hl & Hu).
  assert (Hnode : forall e, _unpack_entry (cls self) raw = Ok e ->
                            node_id e = node_id tup).
  { intros e He. rewrite Hu in He. inversion He.
    destruct (is_v2 (cls self)); reflexivity. }
  destruct (append_keeps_coherent self tup raw Hwf Hc Hp Hl Hnode)
    as (self' & Hrun & Hlen & Hwf' & Hc').
  exists self'. split; [assumption|]. split; [assumption|].
  split; [assumption|]. split; [assumption|].
  assert (Hs : self' = appended self tup raw).
  { rewrite (append_run self tup raw Hp) in Hrun. congruence. }
  pose proof Hwf as (Hlgt & _).
  assert (Hnew : __getitem__ self' (PyInt (__len__ self))
                 = Ok (if is_v2 (cls self) then tup
                       else with_comp_modes COMP_MODE_INLINE COMP_MODE_INLINE tup)).
  { rewrite Hs, appended_getitem_new by assumption. exact Hu. }
  split; [exact Hnew|].
  split; [intros k Hk; rewrite Hs; apply appended_getitem_old; assumption|].
  destruct (nodemap_get_spec self' Hwf' Hc') as (es & Hes & Hget).
  cbn zeta in Hget.
  assert (Hfound :
    fill_pure {[ nullid := nullrev ]} (range 0 (__len__ self')) es
      !! node_id tup = Some (__len__ self)).
  { rewrite Hlen in Hes |- *.
    rewrite (range_split 0 (__len__ self) (__len__ self + 1)) in Hes |- *
      by (unfold __len__, len; lia).
    rewrite (range_cons (__len__ self)) in Hes |- * by lia.
    rewrite (range_nil (__len__ self + 1) (__len__ self + 1)) in Hes |- * by lia.
    apply Forall2_app_inv_l in Hes.
    destruct Hes as (es1 & es2 & H1 & H2 & ->).
    inversion H2 as [|? e' ? es3 He' H3]; subst. inversion H3; subst.
    rewrite fill_pure_snoc by (apply (Forall2_length _ _ _ H1)).
    rewrite Hnew in He'. inversion He' as [He''].
    assert (Hn : node_id (if is_v2 (cls self) then tup
                          else with_comp_modes COMP_MODE_INLINE
                                 COMP_MODE_INLINE tup) = node_id tup)
      by (destruct (is_v2 (cls self)); reflexivity).
    rewrite ?He'', ?Hn. subst. rewrite ?Hn. apply lookup_insert_eq. }
  destruct (lookups_found self' _ _ _ _ Hget Hfound) as (H1 & H2 & H3).
  auto.
Qed.

(** X5. When the entry cannot be packed, [append] raises and the index
    keeps its revisions; but a node map that was already cached has
    received the node of the entry by then, so that [has_node] answers
    [True] for it and [get_rev] gives the length of the index. *)
Theorem append_failure_leaves_node_in_cache (self : index) (tup : entry)
  (nm : gmap bytes Z) (e : exn) :
  _nodemap self = Some nm -> _pack_entry (cls self) tup = Raise e ->
  exists self',
    append tup self = (Raise e, self')
    /\ _extra self' = _extra self /\ __len__ self' = __len__ self
    /\ (has_node (node_id tup) self').1 = Ok true
    /\ (get_rev (node_id tup) self').1 = Ok (Some (__len__ self)).
Proof.
  intros En Hp.
  exists (set_nodemap (Some (<[node_id tup := __len__ self]> nm)) self).
  split.
  - unfold append, bind, get, put, lift. rewrite En.
    cbn [cls set_nodemap]. rewrite Hp. reflexivity.
  - split; [reflexivity|]. split; [reflexivity|].
    assert (Hg : _nodemap_get
                   (set_nodemap (Some (<[node_id tup := __len__ self]> nm)) self)
                 = (Ok (<[node_id tup := __len__ self]> nm),
                    set_nodemap (Some (<[node_id tup := __len__ self]> nm)) self))
      by (apply nodemap_get_cached; reflexivity).
    destruct (lookups_found _ _ _ (node_id tup) (__len__ self) Hg
                (lookup_insert_eq _ _ _)) as (H1 & _ & H3).
    auto.
Qed.

(** X9. [entry_binary] of a revision of a coherent index is a record of the
    size of the format that unpacks to the entry of the revision; for a v1
    index this holds of every revision but 0, whose record loses the 4
    bytes of the header. *)
Theorem entry_binary_unpacks_to_entry (self : index) (r : Z) :
  wf_index self -> 0 <= r < __len__ self ->
  is_v2 (cls self) = true \/ r <> 0 ->
  exists e raw,
    __getitem__ self (PyInt r) = Ok e
    /\ entry_binary self r = Ok raw
    /\ len raw = entry_size (cls self)
    /\ _unpack_entry (cls self) raw = Ok e.
Proof.
  intros Hwf Hr Hcase.
  destruct (getitem_total self r Hwf Hr) as [e He].
  destruct (getitem_packable self r e Hwf Hr He) as [Hp Hm].
  destruct (pack_unpack_cls (cls self) e Hp) as (raw & Hpk & Hl & Hu).
  exists e, raw. split; [assumption|].
  unfold entry_binary. rewrite He. cbn [rbind].
  unfold _pack_entry, _unpack_entry in *.
  destruct (is_v2 (cls self)) eqn:Ev.
  - auto.
  - destruct Hcase as [Hc|Hne]; [discriminate|].
    rewrite (Hm eq_refl) in Hu.
    unfold _pack_entry_v1 in Hpk. destruct Hp as (_ & Ho & Hsl).
    rewrite Ho, Hsl in Hpk. cbn [Z.eqb negb] in Hpk. rewrite Hpk. cbn [rbind].
    destruct (Z.eqb_spec r 0); [lia|]. auto.
Qed.


(** X2. [IndexObject(data)] fails its assertion unless the length of
    [data] is a multiple of the record size; otherwise the index has one
    revision for each record of [data], is coherent, and revision [i] reads
    as record [i] unpacks, revision 0 with the header masked out of its
    offset. *)
Theorem IndexObject_reads_records (c : index_class) (data : bytes) :
  is_inlined c = false ->
  (len data mod entry_size c <> 0 ->
   IndexObject__init__ c data = Raise AssertionError)
  /\ (len data mod entry_size c = 0 ->
      exists self,
        IndexObject__init__ c data = Ok self
        /\ __len__ self = len data / entry_size c
        /\ wf_index self /\ nodemap_consistent self
        /\ forall i, 0 <= i < __len__ self ->
             exists r,
               _unpack_entry c
                 (slice data (i * entry_size c)
                        (i * entry_size c + entry_size c)) = Ok r
               /\ __getitem__ self (PyInt i)
                  = Ok (if i =? 0
                        then with_offset_flags
                               (offset_type 0 (gettype (offset_flags r))) r
                        else r)).
Proof.
  intros Hc. unfold IndexObject__init__. split; intros Hm.
  - destruct (Z.eqb_spec (len data mod entry_size c) 0) as [Hz|Hz];
      [contradiction|].
    reflexivity.
  - destruct (Z.eqb_spec (len data mod entry_size c) 0) as [Hz|Hz];
      [|contradiction].
    cbn [negb]. eexists. split; [reflexivity|].
    set (self := mkIndex c data (len data / entry_size c) [] [] None).
    assert (Hinit : IndexObject__init__ c data = Ok self).
    { unfold IndexObject__init__.
      destruct (Z.eqb_spec (len data mod entry_size c) 0) as [Hz'|Hz'];
        [reflexivity|contradiction]. }
    destruct (IndexObject_init_wf c data self Hc Hinit)
      as (Hwf & Hcons & _ & Hlgt & Hlen & _).
    split; [rewrite Hlen; exact Hlgt|]. split; [assumption|].
    split; [assumption|].
    intros i Hi.
    destruct (getitem_total self i Hwf Hi) as [e He].
    destruct (getitem_Ok_inv_entry self i e (proj1 Hi) He)
      as (_ & raw & r0 & Ed & Eu & Er).
    exists r0.
    assert (Hraw : raw = slice data (i * entry_size c)
                               (i * entry_size c + entry_size c)).
    { unfold _entry_data, _calculate_index in Ed.
      rewrite Hlen in Hi.
      destruct (Z.geb_spec i (_lgt self)); [lia|].
      cbn [cls self] in Ed. rewrite Hc in Ed. cbn [rbind _data] in Ed.
      inversion Ed. reflexivity. }
    split; [rewrite <- Hraw; exact Eu|].
    rewrite He. f_equal. rewrite Er.
    rewrite Hlen in Hi.
    destruct (Z.eqb_spec (_lgt self) 0); [lia|]. reflexivity.
Qed.

Lemma be_encode_add_high (n : nat) (v k : Z) :
  be_encode n (v + k * 2 ^ (8 * Z.of_nat n)) = be_encode n v.
Proof.
  revert v k. induction n as [|n IH]; intros v k; [reflexivity|].
  cbn [be_encode].
  replace (8 * Z.of_nat (S n)) with (8 * Z.of_nat n + 8) by lia.
  rewrite Z.pow_add_r by lia. change (2 ^ 8) with 256.
  replace (v + k * (2 ^ (8 * Z.of_nat n) * 256))
    with (v + k * 2 ^ (8 * Z.of_nat n) * 256) by lia.
  rewrite Z.div_add by lia. rewrite Z.mod_add by lia.
  rewrite IH. reflexivity.
Qed.

Lemma be_encode_app (n m : nat) (v : Z) :
  be_encode (n + m) v
  = be_encode n (v / 2 ^ (8 * Z.of_nat m)) ++ be_encode m v.
Proof.
  revert v. induction m as [|m IH]; intros v.
  - rewrite Nat.add_0_r. cbn [be_encode Z.of_nat Z.mul Z.pow].
    rewrite Z.div_1_r, app_nil_r. reflexivity.
  - rewrite Nat.add_succ_r. cbn [be_encode]. rewrite IH.
    rewrite <- app_assoc. f_equal.
    replace (8 * Z.of_nat (S m)) with (8 + 8 * Z.of_nat m) by lia.
    rewrite Z.pow_add_r by lia. change (2 ^ 8) with 256.
    rewrite Z.div_div by lia. reflexivity.
Qed.

(** The 8 bytes of [high * 2^32 + low] are the 4 bytes of [high] followed
    by the last 4 of the 8 bytes of [low]. *)
Lemma be_encode_header (high low : Z) :
  0 <= low < 2 ^ 32 ->
  be_encode 8 (high * 2 ^ 32 + low)
  = be_encode 4 high ++ drop 4 (be_encode 8 low).
Proof.
  intros Hl.
  change 8%nat with (4 + 4)%nat.
  rewrite (be_encode_app 4 4 (high * 2 ^ 32 + low)).
  rewrite (be_encode_app 4 4 low).
  change (8 * Z.of_nat 4) with 32.
  rewrite drop_app_length' by (symmetry; apply length_be_encode).
  replace (high * 2 ^ 32 + low) with (low + high * 2 ^ 32) by lia.
  rewrite Z.div_add by lia. rewrite (Z.div_small low) by lia. cbn [Z.add].
  f_equal.
  exact (be_encode_add_high 4 low high).
Qed.

Lemma slice_from_drop {A : Type} (l : list A) (n : nat) :
  (n <= length l)%nat -> slice_from l (Z.of_nat n) = drop n l.
Proof.
  intros Hn. unfold slice_from, slice, clamp, len.
  destruct (Z.ltb_spec (Z.of_nat n) 0); [lia|].
  destruct (Z.ltb_spec (Z.of_nat (length l)) 0); [lia|].
  rewrite !Z.min_l by lia. rewrite Nat2Z.id.
  apply take_ge. rewrite length_drop. lia.
Qed.

(** X10. For a v1 index whose revision 0 is on disk, the 4 bytes of
    [pack_header] followed by the 60 bytes of [entry_binary(0)] are one
    record: an index built from it gives back the entry of revision 0, and
    its first 4 bytes unpack to the header. *)
Theorem header_and_first_record_round_trip (self : index) (header : Z)
  (e : entry) :
  wf_index self -> is_v2 (cls self) = false -> 0 < _lgt self ->
  0 <= header <= 4294967295 ->
  __getitem__ self (PyInt 0) = Ok e ->
  exists hb p idx,
    pack_header (cls self) header = Ok hb
    /\ entry_binary self 0 = Ok p
    /\ len hb = 4 /\ len p = 60
    /\ unpack (format INDEX_HEADER) (slice_to (hb ++ p) 4) = Ok [VInt header]
    /\ IndexObject__init__ IndexObject (hb ++ p) = Ok idx
    /\ __len__ idx = 1
    /\ __getitem__ idx (PyInt 0) = Ok e.
Proof.
  intros Hwf Hv Hlgt Hh He.
  assert (Hlen : 0 <= 0 < __len__ self) by (unfold __len__, len; lia).
  destruct (getitem_packable self 0 e Hwf Hlen He) as [Hp Hm].
  rewrite Hv in Hp. destruct Hp as (Hw & Hso & Hsl). specialize (Hm Hv).
  (* the offset of revision 0 is masked *)
  assert (Hof : 0 <= offset_flags e < 65536).
  { destruct (getitem_Ok_inv_entry self 0 e (Z.le_refl 0) He)
      as (_ & raw & r0 & _ & _ & Er).
    destruct (Z.eqb_spec (_lgt self) 0); [lia|]. cbn [negb Z.eqb andb] in Er.
    subst e. unfold with_offset_flags. entry_proj.
    destruct (gettype_mask (offset_flags r0)) as (Hmask & _ & _).
    rewrite Hmask.
    assert (E : Z.land (offset_flags r0) 65535 = offset_flags r0 mod 2 ^ 16)
      by (apply (Z.land_ones _ 16); lia).
    rewrite E. pose proof (Z.mod_pos_bound (offset_flags r0) (2 ^ 16)). lia. }
  (* the record of the entry, and of the entry carrying the header *)
  set (e2 := with_offset_flags (header * 2 ^ 32 + offset_flags e) e).
  assert (Hw2 : wf_entry_v1 e2).
  { unfold wf_entry_v1 in *. subst e2. unfold with_offset_flags. entry_proj.
    destruct Hw as (_ & Hrest). split; [unfold is_Q; lia|exact Hrest]. }
  destruct (pack_unpack_v1 e Hw Hso Hsl) as (pfull & Hpk & Lp & _).
  destruct (pack_unpack_v1 e2 Hw2 Hso Hsl) as (p2 & Hpk2 & Lp2 & Hu2).
  cbn [_pack_entry is_v2] in Hpk, Hpk2.
  unfold _pack_entry_v1 in Hpk, Hpk2.
  change (sidedata_offset e2) with (sidedata_offset e) in Hpk2.
  change (sidedata_length e2) with (sidedata_length e) in Hpk2.
  rewrite Hso, Hsl in Hpk, Hpk2. cbn [Z.eqb negb] in Hpk, Hpk2.
  assert (Hsplit : forall x : entry,
            pack (format INDEX_ENTRY_V1) (entry_values8 x)
            = (b <~ pack_int 8 false (offset_flags x) ;;
               rest <~ pack [fmt_i; fmt_i; fmt_i; fmt_i; fmt_i; fmt_i;
                             fmt_s 20; fmt_x 12]
                            (tl (entry_values8 x)) ;;
               Ok (b ++ rest))) by reflexivity.
  rewrite Hsplit in Hpk, Hpk2.
  rewrite pack_int_fits in Hpk
    by (destruct Hw as (HQ & _); unfold is_Q in HQ; cbn; lia).
  rewrite pack_int_fits in Hpk2
    by (destruct Hw2 as (HQ & _); unfold is_Q in HQ; cbn; exact HQ).
  unfold rbind in Hpk, Hpk2.
  change (tl (entry_values8 e2)) with (tl (entry_values8 e)) in Hpk2.
  destruct (pack [fmt_i; fmt_i; fmt_i; fmt_i; fmt_i; fmt_i; fmt_s 20; fmt_x 12]
                 (tl (entry_values8 e))) as [rest|] eqn:Hrest; [|discriminate].
  assert (Hpfull : be_encode 8 (offset_flags e mod 2 ^ (8 * Z.of_nat 8)) ++ rest
                   = pfull) by congruence.
  assert (Hp2 : be_encode 8 (offset_flags e2 mod 2 ^ (8 * Z.of_nat 8)) ++ rest
                = p2) by congruence.
  clear Hpk Hpk2.
  change (8 * Z.of_nat 8) with 64 in *.
  change (offset_flags e2) with (header * 2 ^ 32 + offset_flags e) in *.
  rewrite (Z.mod_small (offset_flags e)) in * by lia.
  rewrite (Z.mod_small (header * 2 ^ 32 + offset_flags e)) in * by lia.
  rewrite be_encode_header in Hp2 by lia.
  assert (Hjoin : be_encode 4 header ++ drop 4 pfull = p2).
  { rewrite <- Hpfull, <- Hp2.
    rewrite drop_app_le by (rewrite length_be_encode; lia).
    rewrite <- app_assoc. reflexivity. }
  assert (Hes : entry_size IndexObject = 64) by reflexivity.
  assert (Lfull : length pfull = 64%nat)
    by (rewrite Hes in Lp; unfold len in Lp; lia).
  assert (L2 : length p2 = 64%nat)
    by (rewrite Hes in Lp2; unfold len in Lp2; lia).
  (* the index built from the joined record *)
  set (idx := mkIndex IndexObject p2 1 [] [] None).
  exists (be_encode 4 header), (drop 4 pfull), idx.
  split.
  { unfold pack_header. rewrite Hv.
    cbn [format INDEX_HEADER pack pack_one int_code].
    rewrite pack_int_fits by (cbn; lia). cbn [rbind].
    change (8 * Z.of_nat 4) with 32. rewrite Z.mod_small by lia.
    rewrite app_nil_r. reflexivity. }
  split.
  { unfold entry_binary. rewrite He. cbn [rbind]. rewrite Hv.
    rewrite Hsplit.
    rewrite pack_int_fits
      by (destruct Hw as (HQ & _); unfold is_Q in HQ; cbn; lia).
    cbn [rbind]. rewrite Hrest. cbn [rbind Z.eqb].
    change (8 * Z.of_nat 8) with 64.
    rewrite (Z.mod_small (offset_flags e)) by lia. rewrite Hpfull.
    f_equal. apply slice_from_drop. rewrite Lfull. cbn. lia. }
  split; [unfold len; rewrite length_be_encode; reflexivity|].
  split; [unfold len; rewrite length_drop; lia|].
  split.
  { replace (slice_to (be_encode 4 header ++ drop 4 pfull) 4)
      with (be_encode 4 header).
    2:{ symmetry.
        replace 4 with (len (be_encode 4 header)) at 2
          by (unfold len; rewrite length_be_encode; reflexivity).
        apply docket_facts.slice_to_app. }
    unfold unpack. rewrite length_be_encode. cbn [format INDEX_HEADER calcsize code_size Nat.add Nat.eqb].
    cbn [unpack_items unpack_one code_size].
    rewrite take_ge by (rewrite length_be_encode; lia).
    do 3 f_equal.
    replace header with (header mod 2 ^ (8 * Z.of_nat 4)) at 1
      by (change (8 * Z.of_nat 4) with 32; apply Z.mod_small; lia).
    apply unpack_pack_int. cbn. lia. }
  rewrite Hjoin.
  split.
  { unfold IndexObject__init__.
    assert (Hl : len p2 = 64) by (unfold len; lia).
    rewrite Hl. reflexivity. }
  split; [reflexivity|].
  rewrite getitem_unfold by lia.
  rewrite check_index_Ok by (change (__len__ idx) with 1; lia). cbn [rbind].
  subst idx. unfold _entry_data, _calculate_index. cbn [_lgt cls is_inlined _data].
  cbn [Z.geb Z.compare rbind Z.mul].
  replace (slice p2 (0 * entry_size IndexObject)
             (0 * entry_size IndexObject + entry_size IndexObject)) with p2.
  2:{ change (0 * entry_size IndexObject) with 0.
      assert (Hl : 0 + entry_size IndexObject = len p2)
        by (rewrite Hes; unfold len; lia).
      rewrite Hl. symmetry.
      rewrite <- (app_nil_r p2) at 1. apply docket_facts.slice_to_app. }
  rewrite Hu2. cbn [rbind Z.eqb negb andb].
  f_equal. subst e2.
  unfold with_comp_modes, with_offset_flags. entry_proj.
  destruct (gettype_mask (header * 2 ^ 32 + offset_flags e)) as (Hmask & _ & _).
  rewrite Hmask.
  assert (E : Z.land (header * 2 ^ 32 + offset_flags e) 65535
              = offset_flags e).
  { change 65535 with (Z.ones 16). rewrite Z.land_ones by lia.
    replace (header * 2 ^ 32 + offset_flags e)
      with (offset_flags e + (header * 2 ^ 16) * 2 ^ 16) by lia.
    rewrite Z.mod_add by lia. apply Z.mod_small. lia. }
  rewrite E.
  unfold with_comp_modes in Hm. destruct e; entry_proj. inversion Hm.
  congruence.
Qed.

End Records.
End record_facts.

Module dirstate_facts.
Import struct_facts codec_facts index_facts parsers.
Import Py.
Local Open Scope py_scope.

(** *** Dictionaries *)

Lemma dict_set_new {K V : Type} `{EqDecision K} (k : K) (v : V) (d : pydict K V) :
  k ∉ map fst d -> dict_set k v d = d ++ [(k, v)].
Proof.
  induction d as [|[k' v'] d IH]; intros Hk; [reflexivity|].
  cbn [dict_set]. cbn [map fst] in Hk. rewrite not_elem_of_cons in Hk.
  destruct Hk as [Hne Hk]. destruct (decide (k' = k)); [congruence|].
  cbn [app]. rewrite IH by assumption. reflexivity.
Qed.

Lemma dict_set_in_place {K V : Type} `{EqDecision K} (k : K) (v v0 : V)
  (l1 l2 : pydict K V) :
  k ∉ map fst l1 ->
  dict_set k v (l1 ++ (k, v0) :: l2) = l1 ++ (k, v) :: l2.
Proof.
  induction l1 as [|[k' v'] l1 IH]; intros Hk.
  - cbn [app dict_set]. destruct (decide (k = k)); [reflexivity|congruence].
  - cbn [map fst] in Hk. rewrite not_elem_of_cons in Hk. destruct Hk as [Hne Hk].
    cbn [app dict_set]. destruct (decide (k' = k)); [congruence|].
    rewrite IH by assumption. reflexivity.
Qed.

(** *** [bytes.split] on names without NUL *)

Lemma bytes_split_none (f : bytes) :
  x00 ∉ f -> bytes_split x00 f = [f].
Proof.
  induction f as [|b f IH]; intros Hf; [reflexivity|].
  rewrite not_elem_of_cons in Hf. destruct Hf as [Hb Hf].
  cbn [bytes_split]. destruct (decide (b = x00)); [congruence|].
  rewrite IH by assumption. reflexivity.
Qed.

Lemma bytes_split_pair (f c : bytes) :
  x00 ∉ f -> x00 ∉ c -> bytes_split x00 (f ++ [x00] ++ c) = [f; c].
Proof.
  intros Hf Hc. induction f as [|b f IH].
  - cbn [app bytes_split]. destruct (decide (x00 = x00)); [|congruence].
    rewrite bytes_split_none by assumption. reflexivity.
  - rewrite not_elem_of_cons in Hf. destruct Hf as [Hb Hf].
    cbn [app bytes_split]. destruct (decide (b = x00)); [congruence|].
    cbn [app] in IH. rewrite IH by assumption. reflexivity.
Qed.

(** *** Slices of a concatenation *)

Lemma slice_middle {A : Type} (a b c : list A) :
  slice (a ++ b ++ c) (len a) (len a + len b) = b.
Proof.
  unfold slice, clamp, len.
  rewrite !length_app.
  destruct (Z.ltb_spec (Z.of_nat (length a)) 0); [lia|].
  destruct (Z.ltb_spec (Z.of_nat (length a) + Z.of_nat (length b)) 0); [lia|].
  rewrite !Z.min_l by lia.
  replace (Z.to_nat (Z.of_nat (length a) + Z.of_nat (length b) - Z.of_nat (length a)))
    with (length b) by lia.
  rewrite Nat2Z.id. rewrite drop_app_length. apply take_app_length.
Qed.

Lemma slice_empty_backwards {A : Type} (l : list A) (a b : Z) :
  0 <= b <= a -> slice l a b = [].
Proof.
  intros H. unfold slice, clamp.
  destruct (Z.ltb_spec a 0); [lia|]. destruct (Z.ltb_spec b 0); [lia|].
  replace (Z.to_nat (Z.min b (len l) - Z.min a (len l))) with 0%nat by lia.
  reflexivity.
Qed.

Lemma slice_short {A : Type} (l : list A) (a b : Z) :
  0 <= a <= b -> length (slice l a b) = Z.to_nat (Z.min b (len l) - Z.min a (len l)).
Proof.
  intros H. unfold slice, clamp.
  destruct (Z.ltb_spec a 0); [lia|]. destruct (Z.ltb_spec b 0); [lia|].
  rewrite length_take, length_drop. unfold len. lia.
Qed.

(** *** The format of a dirstate record *)

Lemma dirstate_no_bytes : Forall no_bytes_field dirstate_format.
Proof. repeat constructor. Qed.

Lemma e_size_17 : Z.of_nat (calcsize dirstate_format) = 17.
Proof. reflexivity. Qed.

(** The record header of a packable item can be packed. *)
Lemma pack_record (e0 : bytes) (e1 e2 e3 n : Z) :
  length e0 = 1%nat -> is_i e1 -> is_i e2 -> is_i e3 -> 0 <= n <= 2147483647 ->
  exists hdr,
    pack dirstate_format [VBytes e0; VInt e1; VInt e2; VInt e3; VInt n] = Ok hdr
    /\ len hdr = 17
    /\ unpack dirstate_format hdr
       = Ok [VBytes e0; VInt e1; VInt e2; VInt e3; VInt n].
Proof.
  intros H0 H1 H2 H3 Hn.
  assert (Hf : fits_all dirstate_format
                 [VBytes e0; VInt e1; VInt e2; VInt e3; VInt n]).
  { unfold dirstate_format, fmt_l. cbn [fits_all].
    rewrite !fits_i. unfold fits; cbn [int_code].
    unfold is_i in *. repeat split; try assumption; lia. }
  destruct (unpack_pack _ _ Hf) as (hdr & Hp & Hl & Hu).
  exists hdr. split; [assumption|]. split; [|assumption].
  unfold len. rewrite Hl. reflexivity.
Qed.

Lemma invalidated_fields (now : Z) (e0 : bytes) (e1 e2 e3 : Z) :
  exists e3', invalidated now (e0, e1, e2, e3) = (e0, e1, e2, e3')
              /\ (is_i e3 -> is_i e3')
              /\ (e0 = [x6e] -> e3' = now -> now = -1).
Proof.
  unfold invalidated, dirstatetuple.
  destruct (bool_decide (e0 = [x6e])) eqn:E0; cbn [andb].
  - destruct (Z.eqb_spec e3 now) as [->|Hne].
    + exists (-1). split; [reflexivity|]. split; [unfold is_i; lia|]. auto.
    + exists e3. split; [reflexivity|]. split; [auto|]. intros _ H. congruence.
  - exists e3. split; [reflexivity|]. split; [auto|].
    intros H. apply bool_decide_eq_false in E0. contradiction.
Qed.

(** *** What [pack_dirstate] leaves in [dmap] and writes *)

(** One turn of the loop of [pack_dirstate]. *)
Lemma pack_dirstate_loop_cons (copymap : pydict bytes bytes) (now : Z)
  (f e0 : bytes) (e1 e2 e3 : Z) (items : list (bytes * dirstate_entry))
  (cs : bytes) (s : pydict bytes dirstate_entry) :
  pack_dirstate_loop ((f, (e0, e1, e2, e3)) :: items) copymap now cs s
  = let c := bool_decide (e0 = [x6e]) && (e3 =? now) in
    let e3' := if c then -1 else e3 in
    let s' := if c then dict_set f (e0, e1, e2, -1) s else s in
    match pack dirstate_format
            [VBytes e0; VInt e1; VInt e2; VInt e3';
             VInt (len (written_name copymap f))] with
    | Ok hdr =>
        pack_dirstate_loop items copymap now
          (cs ++ hdr ++ written_name copymap f) s'
    | Raise e => (Raise e, s')
    end.
Proof.
  cbn [pack_dirstate_loop]. unfold written_name. cbn zeta.
  destruct (bool_decide (e0 = [x6e]) && (e3 =? now));
    unfold bind, modify, ret, lift, dirstatetuple;
    destruct (pack dirstate_format _); reflexivity.
Qed.

Lemma invalidated_unfold (now : Z) (e0 : bytes) (e1 e2 e3 : Z) :
  invalidated now (e0, e1, e2, e3)
  = (e0, e1, e2, if bool_decide (e0 = [x6e]) && (e3 =? now) then -1 else e3).
Proof.
  unfold invalidated, dirstatetuple.
  destruct (bool_decide (e0 = [x6e]) && (e3 =? now)); reflexivity.
Qed.

Lemma pack_dirstate_loop_state (copymap : pydict bytes bytes) (now : Z)
  (items : list (bytes * dirstate_entry)) :
  forall (done : pydict bytes dirstate_entry) (cs out : bytes)
         (dmap' : pydict bytes dirstate_entry),
    NoDup (map fst (done ++ items)) ->
    pack_dirstate_loop items copymap now cs (done ++ items) = (Ok out, dmap') ->
    dmap' = done ++ invalidated_items now items
    /\ exists recs,
         dirstate_records copymap (invalidated_items now items) = Ok recs
         /\ out = cs ++ recs.
Proof.
  induction items as [|[f [[[e0 e1] e2] e3]] items IH]; intros done cs out dmap' Hnd.
  - cbn [pack_dirstate_loop]. unfold ret. intros E. inversion E; subst.
    split; [reflexivity|]. exists []. split; [reflexivity|].
    symmetry. apply app_nil_r.
  - assert (Hf : f ∉ map fst done).
    { rewrite map_app in Hnd. apply NoDup_app in Hnd.
      destruct Hnd as (_ & Hdis & _). intros Hin.
      apply (Hdis f Hin). cbn. left. }
    assert (Hnd' : forall e', NoDup (map fst ((done ++ [(f, e')]) ++ items))).
    { intros e'. rewrite <- app_assoc. cbn [app].
      rewrite map_app in Hnd |- *. exact Hnd. }
    rewrite pack_dirstate_loop_cons. cbn zeta.
    unfold invalidated_items. cbn [map fst snd]. rewrite invalidated_unfold.
    fold (invalidated_items now items).
    set (e3' := if bool_decide (e0 = [x6e]) && (e3 =? now) then -1 else e3).
    match goal with
    | |- context [if ?c then dict_set ?k ?v ?d else ?d] =>
        replace (if c then dict_set k v d else d)
          with ((done ++ [(f, (e0, e1, e2, e3'))]) ++ items)
    end.
    2:{ subst e3'. rewrite <- app_assoc. cbn [app].
        destruct (bool_decide (e0 = [x6e]) && (e3 =? now)); [|reflexivity].
        symmetry. apply dict_set_in_place. assumption. }
    destruct (pack dirstate_format _) as [hdr|] eqn:Hp; [|discriminate].
    intros E.
    destruct (IH _ _ _ _ (Hnd' _) E) as (Hd & recs & Hr & Ho).
    split; [rewrite Hd, <- app_assoc; reflexivity|].
    exists (hdr ++ written_name copymap f ++ recs).
    cbn [dirstate_records]. rewrite Hp. cbn [rbind].
    rewrite Hr. cbn [rbind]. split; [reflexivity|].
    rewrite Ho. rewrite <- !app_assoc. reflexivity.
Qed.

(** The converse: when the records can be packed, the loop succeeds. *)
Lemma pack_dirstate_loop_run (copymap : pydict bytes bytes) (now : Z)
  (items : list (bytes * dirstate_entry)) :
  forall (done : pydict bytes dirstate_entry) (cs recs : bytes),
    NoDup (map fst (done ++ items)) ->
    dirstate_records copymap (invalidated_items now items) = Ok recs ->
    pack_dirstate_loop items copymap now cs (done ++ items)
    = (Ok (cs ++ recs), done ++ invalidated_items now items).
Proof.
  induction items as [|[f [[[e0 e1] e2] e3]] items IH]; intros done cs recs Hnd.
  - cbn [pack_dirstate_loop dirstate_records invalidated_items map].
    intros E. inversion E. unfold ret. rewrite !app_nil_r. reflexivity.
  - assert (Hf : f ∉ map fst done).
    { rewrite map_app in Hnd. apply NoDup_app in Hnd.
      destruct Hnd as (_ & Hdis & _). intros Hin.
      apply (Hdis f Hin). cbn. left. }
    assert (Hnd' : forall e', NoDup (map fst ((done ++ [(f, e')]) ++ items))).
    { intros e'. rewrite <- app_assoc. cbn [app].
      rewrite map_app in Hnd |- *. exact Hnd. }
    rewrite pack_dirstate_loop_cons. cbn zeta.
    unfold invalidated_items. cbn [map fst snd]. rewrite invalidated_unfold.
    fold (invalidated_items now items).
    set (e3' := if bool_decide (e0 = [x6e]) && (e3 =? now) then -1 else e3).
    match goal with
    | |- context [if ?c then dict_set ?k ?v ?d else ?d] =>
        replace (if c then dict_set k v d else d)
          with ((done ++ [(f, (e0, e1, e2, e3'))]) ++ items)
    end.
    2:{ subst e3'. rewrite <- app_assoc. cbn [app].
        destruct (bool_decide (e0 = [x6e]) && (e3 =? now)); [|reflexivity].
        symmetry. apply dict_set_in_place. assumption. } cbn [dirstate_records].
    destruct (pack dirstate_format _) as [hdr|] eqn:Hp; [|discriminate].
    cbn [rbind].
    destruct (dirstate_records copymap (invalidated_items now items))
      as [rest|] eqn:Hr; [|discriminate].
    cbn [rbind]. intros E. inversion E; subst recs.
    rewrite (IH _ _ rest (Hnd' _) eq_refl).
    rewrite <- !app_assoc. reflexivity.
Qed.


(** *** Reading the records back *)

Lemma packable_invalidated (copymap : pydict bytes bytes) (now : Z)
  (item : bytes * dirstate_entry) :
  packable copymap item -> packable copymap (item.1, invalidated now item.2).
Proof.
  destruct item as [f [[[e0 e1] e2] e3]]. cbn [fst snd].
  destruct (invalidated_fields now e0 e1 e2 e3) as (e3' & -> & Hi & _).
  unfold packable. intros (H0 & H1 & H2 & H3 & H4). auto 10.
Qed.

Lemma records_exist (copymap : pydict bytes bytes)
  (items : list (bytes * dirstate_entry)) :
  Forall (packable copymap) items ->
  exists recs, dirstate_records copymap items = Ok recs.
Proof.
  induction 1 as [|[f [[[e0 e1] e2] e3]] items Hp _ IH].
  - exists []. reflexivity.
  - destruct IH as [rest Hr]. destruct Hp as (H0 & H1 & H2 & H3 & _ & _ & Hn).
    destruct (pack_record e0 e1 e2 e3 (len (written_name copymap f)) H0 H1 H2 H3)
      as (hdr & Hh & _); [unfold len in *; lia|].
    eexists. cbn [dirstate_records]. rewrite Hh. cbn [rbind]. rewrite Hr.
    reflexivity.
Qed.

Lemma len_app {A : Type} (a b : list A) : len (a ++ b) = len a + len b.
Proof. unfold len. rewrite length_app. lia. Qed.

Lemma tracked_copies_cons (copymap : pydict bytes bytes) (f : bytes)
  (e : dirstate_entry) (items : pydict bytes dirstate_entry) :
  tracked_copies ((f, e) :: items) copymap
  = match dict_get f copymap with
    | Some c => (f, c) :: tracked_copies items copymap
    | None => tracked_copies items copymap
    end.
Proof.
  unfold tracked_copies.
  change (omap ?g ((f, e) :: items))
    with (match g (f, e) with
          | Some y => y :: omap g items
          | None => omap g items
          end).
  cbn [fst]. destruct (dict_get f copymap); reflexivity.
Qed.

Lemma parse_dirstate_loop_records (copymap : pydict bytes bytes)
  (items : list (bytes * dirstate_entry)) :
  forall (fuel : nat) (prefix recs : bytes)
         (accd : pydict bytes dirstate_entry) (accc : pydict bytes bytes),
    Forall (packable copymap) items ->
    dirstate_records copymap items = Ok recs ->
    NoDup (map fst accd ++ map fst items) ->
    (forall k, k ∈ map fst accc -> k ∈ map fst accd) ->
    (length items < fuel)%nat ->
    parse_dirstate_loop fuel (prefix ++ recs) (len prefix) accd accc
    = Some (Ok tt, (accd ++ items, accc ++ tracked_copies items copymap)).
Proof.
  induction items as [|[f [[[e0 e1] e2] e3]] items IH];
    intros fuel prefix recs accd accc Hp Hr Hnd Hsub Hfuel.
  - cbn [dirstate_records] in Hr. inversion Hr; subst recs.
    destruct fuel as [|fuel]; [cbn in Hfuel; lia|].
    cbn [parse_dirstate_loop]. rewrite app_nil_r.
    destruct (Z.ltb_spec (len prefix) (len prefix)); [lia|].
    cbn [tracked_copies omap]. rewrite !app_nil_r. reflexivity.
  - destruct fuel as [|fuel]; [cbn in Hfuel; lia|].
    cbn [length] in Hfuel.
    inversion Hp as [|? ? Hp1 Hp2]; subst.
    pose proof Hp1 as (H0 & H1 & H2 & H3 & Hnf & Hnc & Hn).
    cbn [dirstate_records] in Hr.
    destruct (pack dirstate_format _) as [hdr|] eqn:Hh; [|discriminate].
    cbn [rbind] in Hr.
    destruct (dirstate_records copymap items) as [rest|] eqn:Hrest; [|discriminate].
    cbn [rbind] in Hr. inversion Hr; subst recs. clear Hr.
    destruct (docket_facts.unpack_pack_exact _ _ _ dirstate_no_bytes Hh) as [Hu Lh].
    assert (Lh' : len hdr = 17) by (unfold len; rewrite Lh; reflexivity).
    set (wn := written_name copymap f) in *.
    cbn [parse_dirstate_loop]. rewrite e_size_17.
    destruct (Z.ltb_spec (len prefix) (len (prefix ++ hdr ++ wn ++ rest)))
      as [_|Hge]; [|rewrite !len_app in Hge; unfold len in *; lia].
    replace (len prefix + 17) with (len prefix + len hdr) by lia.
    rewrite slice_middle. rewrite Hu.
    replace (len prefix + len hdr) with (len (prefix ++ hdr))
      by (rewrite len_app; reflexivity).
    replace (prefix ++ hdr ++ wn ++ rest) with ((prefix ++ hdr) ++ wn ++ rest)
      by (rewrite <- app_assoc; reflexivity).
    rewrite slice_middle.
    replace (len (prefix ++ hdr) + len wn) with (len ((prefix ++ hdr) ++ wn))
      by (rewrite len_app; reflexivity).
    replace ((prefix ++ hdr) ++ wn ++ rest) with (((prefix ++ hdr) ++ wn) ++ rest)
      by (rewrite <- app_assoc; reflexivity).
    assert (Hfd : f ∉ map fst accd).
    { apply NoDup_app in Hnd. destruct Hnd as (_ & Hdis & _).
      intros Hin. apply (Hdis f Hin). cbn. left. }
    assert (Hfc : f ∉ map fst accc) by (intros Hin; apply Hfd, Hsub, Hin).
    assert (Hnd' : forall e', NoDup (map fst (accd ++ [(f, e')]) ++ map fst items)).
    { intros e'. rewrite map_app. rewrite <- app_assoc. exact Hnd. }
    subst wn. unfold written_name in *. rewrite tracked_copies_cons.
    destruct (dict_get f copymap) as [c|] eqn:Hc.
    + assert (Hin : x00 ∈ f ++ [x00] ++ c).
      { apply elem_of_app. right. apply elem_of_app. left. apply list_elem_of_singleton.
        reflexivity. }
      rewrite (bool_decide_eq_true_2 _ Hin).
      rewrite bytes_split_pair by (try assumption; apply Hnc; reflexivity).
      rewrite !(dict_set_new f) by assumption.
      rewrite (IH fuel _ rest _ _ Hp2 eq_refl (Hnd' _)); [| |lia].
      * rewrite <- !app_assoc. reflexivity.
      * intros k Hk. rewrite map_app in Hk |- *. rewrite elem_of_app in Hk |- *.
        destruct Hk as [Hk|Hk]; [left; auto|right; exact Hk].
    + rewrite (bool_decide_eq_false_2 _ Hnf).
      rewrite (dict_set_new f) by assumption.
      rewrite (IH fuel _ rest _ _ Hp2 eq_refl (Hnd' _)); [| |lia].
      * rewrite <- !app_assoc. reflexivity.
      * intros k Hk. rewrite map_app. rewrite elem_of_app. left. auto.
Qed.

(** X11. What [pack_dirstate] writes, [parse_dirstate] reads back.  For a
    [dmap] of packable items and two parents of 20 bytes, [pack_dirstate]
    succeeds and leaves in [dmap] the items with their mtime invalidated
    where it equals [now]; parsing the result into empty dictionaries
    gives the two parents, the items as [pack_dirstate] left them, in the
    same order, and the copy sources of the files of [dmap]. *)
Theorem pack_dirstate_parse_dirstate_round_trip
  (dmap : pydict bytes dirstate_entry) (copymap : pydict bytes bytes)
  (p1 p2 : bytes) (now : Z) :
  NoDup (map fst dmap) -> Forall (packable copymap) dmap ->
  length p1 = 20%nat -> length p2 = 20%nat ->
  exists st,
    pack_dirstate copymap [p1; p2] now dmap
    = (Ok st, invalidated_items now dmap)
    /\ forall fuel, (length dmap < fuel)%nat ->
         parse_dirstate fuel [] [] st
         = Some (Ok [p1; p2],
                 (invalidated_items now dmap, tracked_copies dmap copymap)).
Proof.
  intros Hnd Hp L1 L2.
  assert (Hp' : Forall (packable copymap) (invalidated_items now dmap)).
  { unfold invalidated_items. apply Forall_fmap.
    eapply Forall_impl; [exact Hp|]. intros item Hi.
    apply packable_invalidated. exact Hi. }
  destruct (records_exist copymap _ Hp') as [recs Hr].
  exists (concat [p1; p2] ++ recs). split.
  - unfold pack_dirstate, bind, get.
    exact (pack_dirstate_loop_run copymap now dmap [] _ recs Hnd Hr).
  - intros fuel Hfuel. unfold parse_dirstate.
    assert (Hkeys : map fst (invalidated_items now dmap) = map fst dmap).
    { unfold invalidated_items. rewrite map_map. reflexivity. }
    assert (Hcopies : tracked_copies (invalidated_items now dmap) copymap
                      = tracked_copies dmap copymap).
    { clear. induction dmap as [|[f e] d IH]; [reflexivity|].
      unfold invalidated_items in *. cbn [map fst snd].
      rewrite !tracked_copies_cons, IH. reflexivity. }
    assert (L40 : len (concat [p1; p2]) = 40).
    { cbn [concat]. rewrite app_nil_r, len_app. unfold len. lia. }
    rewrite <- L40 at 1.
    rewrite (parse_dirstate_loop_records copymap (invalidated_items now dmap)
               fuel (concat [p1; p2]) recs [] [] Hp' Hr).
    + rewrite Hcopies. cbn [app]. do 3 f_equal.
      cbn [concat]. rewrite app_nil_r.
      assert (E1 : slice_to ((p1 ++ p2) ++ recs) 20 = p1).
      { rewrite <- app_assoc.
        replace 20 with (len p1) by (unfold len; lia).
        apply docket_facts.slice_to_app. }
      assert (E2 : slice ((p1 ++ p2) ++ recs) 20 40 = p2).
      { rewrite <- app_assoc.
        replace 20 with (len p1) by (unfold len; lia).
        replace 40 with (len p1 + len p2) by (unfold len; lia).
        apply slice_middle. }
      rewrite E1, E2. reflexivity.
    + cbn [map app]. rewrite Hkeys. exact Hnd.
    + intros k Hk. cbn in Hk. apply elem_of_nil in Hk. contradiction.
    + unfold invalidated_items. rewrite length_map. exact Hfuel.
Qed.

(** X12. Whenever [pack_dirstate] succeeds on a [dmap] it leaves the keys
    of [dmap] and their order as they were, and every entry as it was but
    for the mtime of the entries of state [n] last modified at [now], which
    becomes [-1]: unless [now] is [-1], no such entry is left. *)
Theorem pack_dirstate_invalidates_mtime
  (dmap dmap' : pydict bytes dirstate_entry) (copymap : pydict bytes bytes)
  (pl : list bytes) (now : Z) (st : bytes) :
  NoDup (map fst dmap) ->
  pack_dirstate copymap pl now dmap = (Ok st, dmap') ->
  dmap' = invalidated_items now dmap
  /\ map fst dmap' = map fst dmap
  /\ forall f e0 e1 e2 e3,
       (f, (e0, e1, e2, e3)) ∈ dmap' ->
       e0 = [x6e] -> e3 = now -> now = -1.
Proof.
  intros Hnd Hrun. unfold pack_dirstate, bind, get in Hrun.
  destruct (pack_dirstate_loop_state copymap now dmap [] _ _ _ Hnd Hrun)
    as (Hd & _).
  cbn [app] in Hd. subst dmap'. split; [reflexivity|]. split.
  - unfold invalidated_items. rewrite map_map. reflexivity.
  - intros f e0 e1 e2 e3 Hin. unfold invalidated_items in Hin.
    apply list_elem_of_fmap in Hin.
    destruct Hin as ([f' [[[a0 a1] a2] a3]] & Heq & _).
    cbn [fst snd] in Heq.
    destruct (invalidated_fields now a0 a1 a2 a3) as (a3' & Hinv & _ & Hno).
    rewrite Hinv in Heq. inversion Heq; subst. exact Hno.
Qed.

(** X13. [parse_dirstate] on short input: up to 40 bytes it returns the
    two parents, cut short, and leaves the dictionaries as they were,
    without any error; between 41 and 56 bytes the first record is
    incomplete and [struct.unpack] raises. *)
Theorem parse_dirstate_short_input (st : bytes)
  (dmap : pydict bytes dirstate_entry) (copymap : pydict bytes bytes)
  (fuel : nat) :
  (len st <= 40 ->
   parse_dirstate (S fuel) dmap copymap st
   = Some (Ok [slice_to st 20; slice st 20 40], (dmap, copymap)))
  /\ (40 < len st < 57 ->
      parse_dirstate (S fuel) dmap copymap st
      = Some (Raise StructError, (dmap, copymap))).
Proof.
  unfold parse_dirstate. cbn [parse_dirstate_loop]. rewrite e_size_17.
  split; intros Hl.
  - destruct (Z.ltb_spec 40 (len st)); [lia|]. reflexivity.
  - destruct (Z.ltb_spec 40 (len st)); [|lia].
    unfold unpack.
    rewrite slice_short by lia.
    replace (Z.to_nat (Z.min (40 + 17) (len st) - Z.min 40 (len st)))
      with (Z.to_nat (len st - 40)) by lia.
    destruct (Nat.eqb_spec (Z.to_nat (len st - 40)) (calcsize dirstate_format))
      as [E|_]; [|reflexivity].
    cbn in E. lia.
Qed.

(** X14. A record whose name length is [-17] sends [parse_dirstate] back
    to the start of that record: when the record at offset 40 is such a
    one, the loop never ends, whatever the fuel. *)
Theorem parse_dirstate_negative_length_never_returns (st : bytes)
  (e0 : bytes) (e1 e2 e3 : Z) :
  unpack dirstate_format (slice st 40 57)
  = Ok [VBytes e0; VInt e1; VInt e2; VInt e3; VInt (-17)] ->
  forall (fuel : nat) (dmap : pydict bytes dirstate_entry)
         (copymap : pydict bytes bytes),
    parse_dirstate fuel dmap copymap st = None.
Proof.
  intros Hu.
  assert (Hl : 40 < len st).
  { destruct (unpack_fits _ _ _ Hu) as [_ L].
    rewrite slice_short in L by lia. cbn in L. lia. }
  assert (Hloop : forall fuel dmap copymap,
            parse_dirstate_loop fuel st 40 dmap copymap = None).
  { induction fuel as [|fuel IH]; intros dmap copymap; [reflexivity|].
    cbn [parse_dirstate_loop]. rewrite e_size_17.
    destruct (Z.ltb_spec 40 (len st)); [|lia].
    change (40 + 17) with 57. rewrite Hu.
    change (57 + -17) with 40.
    rewrite slice_empty_backwards by lia.
    rewrite bool_decide_eq_false_2 by apply not_elem_of_nil.
    apply IH. }
  intros fuel dmap copymap. unfold parse_dirstate. rewrite Hloop. reflexivity.
Qed.

End dirstate_facts.

Module docket_round_trip.
Import struct_facts codec_facts index_facts docket_facts docket.
Import Py.
Local Open Scope py_scope.

Lemma size_S_HEADER : size S_HEADER = 23.
Proof. reflexivity. Qed.

(** What [parse_docket] makes of a serialized docket: the constructor is
    called with the fields that were written. *)
Lemma parse_serialized (pending : bool) (d : RevlogDocket) (content : bytes)
  (revlog : revlog_ref) (use_pending : bool) :
  _serialize pending d = Ok content ->
  exists vh iu du dch,
    _version_header d = Some vh /\ _index_uuid d = Some iu
    /\ _data_uuid d = Some du /\ default_compression_header d = Some dch
    /\ parse_docket revlog content use_pending
       = RevlogDocket__init__ revlog use_pending (Some vh) (Some iu) (Some du)
           (if pending then _initial_index_end d else _index_end d)
           (_index_end d)
           (if pending then _initial_data_end d else _data_end d)
           (_data_end d) (Some dch).
Proof.
  intros Hs.
  destruct (serialize_Ok_inv pending d content Hs)
    as (vh & iu & du & dch & header & Hvh & Hiu & Hdu & Hdch & _ & Hp & ->).
  exists vh, iu, du, dch. repeat (split; [assumption|]).
  destruct (unpack_pack_exact _ _ _ S_HEADER_no_bytes Hp) as [Hu Lh].
  assert (Lh' : len header = 23) by (unfold len; rewrite Lh; reflexivity).
  unfold parse_docket. rewrite size_S_HEADER.
  replace (slice_to (header ++ iu ++ du) 23) with header.
  2:{ rewrite <- Lh'. symmetry. apply slice_to_app. }
  rewrite Hu. cbn [rbind].
  replace (slice (header ++ iu ++ du) 23 (23 + len iu)) with iu.
  2:{ rewrite <- Lh'. symmetry. apply dirstate_facts.slice_middle. }
  replace (slice (header ++ iu ++ du) (23 + len iu) (23 + len iu + len du))
    with du.
  2:{ replace (23 + len iu) with (len (header ++ iu))
        by (rewrite dirstate_facts.len_app; lia).
      replace (header ++ iu ++ du) with ((header ++ iu) ++ du ++ [])
        by (rewrite app_nil_r, <- app_assoc; reflexivity).
      symmetry. apply dirstate_facts.slice_middle. }
  reflexivity.
Qed.

(** X15. A docket that was serialized is parsed back with the fields that
    were written.  Written as final, its ends are the current ones for
    every reader; written as pending, provided the index did not shrink, a
    reader of the pending state sees the current ends, is read-only, and
    any other reader sees the ends the docket had initially. *)
Theorem serialize_parse_docket_round_trip (d : RevlogDocket)
  (revlog : revlog_ref) (pending : bool) (content : bytes) :
  _serialize pending d = Ok content ->
  (pending = true -> _initial_index_end d <= _index_end d) ->
  exists vh iu du dch,
    _version_header d = Some vh /\ _index_uuid d = Some iu
    /\ _data_uuid d = Some du /\ default_compression_header d = Some dch
    /\ forall use_pending,
         let oi := if pending then _initial_index_end d else _index_end d in
         let od := if pending then _initial_data_end d else _data_end d in
         parse_docket revlog content use_pending
         = Ok (mkDocket (Some vh) use_pending false (radix revlog)
                 (_docket_file revlog) (Some iu) (Some du)
                 oi (_index_end d) od (_data_end d)
                 (if use_pending then _index_end d else oi)
                 (if use_pending then _data_end d else od)
                 (Some dch)).
Proof.
  intros Hs Hidx.
  destruct (serialize_Ok_inv pending d content Hs)
    as (_ & _ & _ & _ & _ & _ & _ & _ & _ & Hdata & _).
  destruct (parse_serialized pending d content revlog false Hs)
    as (vh & iu & du & dch & Hvh & Hiu & Hdu & Hdch & _).
  exists vh, iu, du, dch. repeat (split; [assumption|]).
  intros use_pending. cbn zeta.
  destruct (parse_serialized pending d content revlog use_pending Hs)
    as (vh' & iu' & du' & dch' & Hvh' & Hiu' & Hdu' & Hdch' & Hparse).
  rewrite Hparse.
  assert (vh' = vh) by congruence. assert (iu' = iu) by congruence.
  assert (du' = du) by congruence. assert (dch' = dch) by congruence.
  subst. unfold RevlogDocket__init__.
  assert (Hi : (if pending then _initial_index_end d else _index_end d)
               <= _index_end d)
    by (destruct pending; [apply Hidx; reflexivity|lia]).
  destruct (Z.leb_spec (if pending then _initial_index_end d else _index_end d)
                       (_index_end d)); [|lia].
  destruct (Z.leb_spec (if pending then _initial_data_end d else _data_end d)
                       (_data_end d)); [|lia].
  reflexivity.
Qed.

(** X16. [_serialize(pending=True)] does not compare the index ends: when
    the index end was set below the initial one the docket is written all
    the same, and what was written cannot be parsed, the constructor
    failing its assertion. *)
Theorem pending_docket_of_shrunk_index_unparsable (d : RevlogDocket)
  (content : bytes) :
  _serialize true d = Ok content ->
  _index_end d < _initial_index_end d ->
  forall revlog use_pending,
    parse_docket revlog content use_pending = Raise AssertionError.
Proof.
  intros Hs Hlt revlog use_pending.
  destruct (parse_serialized true d content revlog use_pending Hs)
    as (vh & iu & du & dch & _ & _ & _ & _ & Hparse).
  rewrite Hparse. unfold RevlogDocket__init__.
  destruct (Z.leb_spec (_initial_index_end d) (_index_end d)); [lia|].
  reflexivity.
Qed.

(** X17. [parse_docket] fails in two ways only: data shorter than the 23
    bytes of the header raise [struct.error]; otherwise the constructor is
    reached, and the result is a docket or the failure of one of its two
    assertions.  The lengths announced for the two identifiers are not
    compared with the data at hand. *)
Theorem parse_docket_failures (revlog : revlog_ref) (data : bytes)
  (use_pending : bool) :
  (len data < 23 -> parse_docket revlog data use_pending = Raise StructError)
  /\ (23 <= len data ->
      (exists d, parse_docket revlog data use_pending = Ok d
                 /\ _read_only d = use_pending /\ _dirty d = false
                 /\ _initial_index_end d <= _pending_index_end d
                 /\ _initial_data_end d <= _pending_data_end d)
      \/ parse_docket revlog data use_pending = Raise AssertionError).
Proof.
  unfold parse_docket. rewrite size_S_HEADER. split; intros Hl.
  - unfold unpack.
    assert (L : length (slice_to data 23) = Z.to_nat (len data)).
    { unfold slice_to. rewrite dirstate_facts.slice_short by lia. lia. }
    rewrite L.
    destruct (Nat.eqb_spec (Z.to_nat (len data)) (calcsize (format S_HEADER)))
      as [E|_]; [|reflexivity].
    cbn in E. lia.
  - assert (L : length (slice_to data 23) = calcsize (format S_HEADER)).
    { unfold slice_to. rewrite dirstate_facts.slice_short by lia.
      cbn. lia. }
    rewrite (unpack_ok _ _ L). cbn [rbind].
    cbn [format S_HEADER INDEX_HEADER app unpack_items unpack_one code_size].
    match goal with
    | |- context [RevlogDocket__init__ ?r ?u ?vh ?iu ?du ?ie ?pie ?de ?pde ?dch] =>
        destruct (RevlogDocket__init__ r u vh iu du ie pie de pde dch)
          as [d|e] eqn:Hinit
    end.
    + left. exists d. split; [reflexivity|].
      destruct (init_Ok_ordered _ _ _ _ _ _ _ _ _ _ _ Hinit)
        as (H1 & H2 & H3 & H4 & H5 & H6 & H7 & H8).
      rewrite H3, H4, H5, H6. auto.
    + right. unfold RevlogDocket__init__ in Hinit.
      repeat (match type of Hinit with
              | (if ?c then _ else _) = _ => destruct c
              end; try discriminate; try (inversion Hinit; reflexivity)).
Qed.

(** X18. A write of the pending state leaves the docket dirty, so that the
    final write that follows replaces the file again; after it the docket
    is clean, and a further write, even after the index end was assigned
    its current value, returns [False] and touches nothing. *)
Theorem pending_write_then_final_write (d : RevlogDocket) (w : world)
  (stripping : bool) (c1 c2 : bytes) :
  _dirty d = true -> _read_only d = false ->
  _serialize true d = Ok c1 -> _serialize false d = Ok c2 ->
  exists d1 w1 d2 w2,
    write true stripping (d, w) = (Ok true, (d1, w1))
    /\ files w1 !! _path d = Some c1 /\ _dirty d1 = true
    /\ write false stripping (d1, w1) = (Ok true, (d2, w2))
    /\ files w2 !! _path d = Some c2 /\ _dirty d2 = false
    /\ (forall k, k <> _path d -> files w2 !! k = files w !! k)
    /\ write false stripping (index_end_setter (index_end d2) d2, w2)
       = (Ok false, (d2, w2)).
Proof.
  intros Hd Hro Hs1 Hs2.
  assert (Hser : forall p b, _serialize p (set_dirty b d) = _serialize p d)
    by reflexivity.
  assert (Hwrite : forall pending (d0 : RevlogDocket) (w0 : world) content,
            _dirty d0 = true -> _read_only d0 = false ->
            _serialize pending d0 = Ok content ->
            write pending stripping (d0, w0)
            = (Ok true,
               (set_dirty pending d0,
                mkWorld (<[_path d0 := content]> (files w0))
                        (if stripping then backups w0
                         else backups w0 ++ [(_path d0, "store"%string)])))).
  { intros pending d0 w0 content H1 H2 H3.
    unfold write, bind, get. cbn [fst snd]. rewrite H1, H2. cbn [negb].
    destruct stripping; cbn [negb]; unfold modify, ret, lift; rewrite H3;
      reflexivity. }
  eexists _, _, _, _.
  split; [apply (Hwrite true d w c1 Hd Hro Hs1)|].
  split; [cbn [files]; apply lookup_insert_eq|].
  split; [reflexivity|].
  split.
  { apply (Hwrite false); [reflexivity|exact Hro|]. rewrite Hser. exact Hs2. }
  split; [cbn [files _path set_dirty set_index_end_dirty]; apply lookup_insert_eq|].
  split; [reflexivity|].
  split.
  { intros k Hk. cbn [files _path set_dirty set_index_end_dirty].
    rewrite !lookup_insert_ne by congruence. reflexivity. }
  unfold index_end_setter, index_end. rewrite Z.eqb_refl. cbn [negb].
  unfold write, bind, get. reflexivity.
Qed.

End docket_round_trip.

Module store_facts.
Import engine engine_facts clone_facts.
Local Open Scope string_scope.

(** *** Paths *)

Lemma length_append (s1 s2 : string) :
  String.length (s1 ++ s2) = (String.length s1 + String.length s2)%nat.
Proof.
  induction s1 as [|a s1 IH]; [reflexivity|].
  change (S (String.length (s1 ++ s2)) = S (String.length s1 + String.length s2)).
  f_equal. exact IH.
Qed.

Lemma substring_all (s : string) : substring 0 (String.length s) s = s.
Proof.
  induction s as [|a s IH]; [reflexivity|].
  change (String a (substring 0 (String.length s) s) = String a s).
  f_equal. exact IH.
Qed.

Lemma substring_append_l (s1 s2 : string) :
  substring 0 (String.length s1) (s1 ++ s2) = s1.
Proof.
  induction s1 as [|a s1 IH].
  - destruct s2; reflexivity.
  - change (String a (substring 0 (String.length s1) (s1 ++ s2)) = String a s1).
    f_equal. exact IH.
Qed.

Lemma substring_append_r (s1 s2 : string) (n : nat) :
  substring (String.length s1) n (s1 ++ s2) = substring 0 n s2.
Proof. induction s1 as [|a s1 IH]; [reflexivity|]. exact IH. Qed.

Lemma endswith_append (s p : string) : endswith (s ++ p) p = true.
Proof.
  unfold endswith. rewrite length_append.
  destruct (Nat.leb_spec (String.length p) (String.length s + String.length p));
    [|lia].
  replace (String.length s + String.length p - String.length p)%nat
    with (String.length s) by lia.
  rewrite substring_append_r, substring_all. apply String.eqb_refl.
Qed.

Lemma strip_suffix_append (s p : string) :
  strip_suffix (s ++ p) (String.length p) = s.
Proof.
  unfold strip_suffix. rewrite length_append.
  replace (String.length s + String.length p - String.length p)%nat
    with (String.length s) by lia.
  apply substring_append_l.
Qed.

Section Revlogs.
Variable changelog_changelog : vfs -> revlog.
Variable manifest_manifestrevlog : vfs -> string -> revlog.
Variable filelog_filelog : vfs -> string -> revlog.
Variable revlog_clone : clone_call -> gmap string bytes -> result (gmap string bytes).

Local Abbreviation revlogfrompath_ :=
  (_revlogfrompath changelog_changelog manifest_manifestrevlog filelog_filelog).
Local Abbreviation copyrevlog_ :=
  (_copyrevlog changelog_changelog manifest_manifestrevlog filelog_filelog).

(** X20. [_revlogfrompath] undoes the naming of the store: the changelog
    for [00changelog.i], the manifest of directory [tree] for [tree]
    followed by [00manifest.i], and the file log of [name] for
    [data/name.i], as long as that path does not itself end in
    [00manifest.i]. *)
Theorem revlogfrompath_inverts_store_names (r : repo) :
  revlogfrompath_ r "00changelog.i" = changelog_changelog (svfs r)
  /\ (forall tree,
        revlogfrompath_ r (tree ++ "00manifest.i")
        = manifest_manifestrevlog (svfs r) tree)
  /\ (forall name,
        endswith ("data/" ++ name ++ ".i") "00manifest.i" = false ->
        revlogfrompath_ r ("data/" ++ name ++ ".i")
        = filelog_filelog (svfs r) name).
Proof.
  split; [reflexivity|]. split.
  - intros tree. unfold _revlogfrompath.
    destruct (String.eqb_spec (tree ++ "00manifest.i") "00changelog.i") as [E|_].
    + exfalso.
      assert (L : String.length (tree ++ "00manifest.i") = 13%nat)
        by (rewrite E; reflexivity).
      rewrite length_append in L. cbn in L.
      assert (String.length tree = 1%nat) by lia.
      destruct tree as [|a [|b t]]; discriminate.
    + rewrite endswith_append.
      rewrite (strip_suffix_append tree "00manifest.i"). reflexivity.
  - intros name Hm. unfold _revlogfrompath.
    destruct (String.eqb_spec ("data/" ++ name ++ ".i") "00changelog.i")
      as [E|_]; [cbn in E; discriminate|].
    rewrite Hm. f_equal.
    unfold strip_both. rewrite !length_append. cbn [String.length].
    replace (5 + (String.length name + 2) - 2 - 5)%nat
      with (String.length name) by lia.
    change (substring 5 (String.length name) ("data/" ++ name ++ ".i"))
      with (substring 0 (String.length name) (name ++ ".i")).
    apply substring_append_l.
Qed.


(** *** Files the data migration does not touch *)

Lemma keeps_file_ret (k : string) {A : Type} (a : A) : keeps_file k (ret a).
Proof. intros w r w' E. inversion E. reflexivity. Qed.

Lemma keeps_file_bind (k : string) {A B : Type} (m : M world A)
  (f : A -> M world B) :
  keeps_file k m -> (forall a, keeps_file k (f a)) -> keeps_file k (bind m f).
Proof.
  intros Hm Hf w r w' E. unfold bind in E.
  destruct (m w) as [[a|e] w1] eqn:Em.
  - rewrite (Hf a _ _ _ E). exact (Hm _ _ _ Em).
  - inversion E; subst. exact (Hm _ _ _ Em).
Qed.

Lemma keeps_file_copyfile (k src dest : string) :
  k <> dest -> keeps_file k (copyfile src dest).
Proof.
  intros Hk w r w' E. unfold copyfile, bind, get in E.
  destruct (files w !! src) as [content|].
  - inversion E; subst. cbn [files]. apply lookup_insert_ne. congruence.
  - inversion E; subst. reflexivity.
Qed.

Lemma keeps_file_create_empty (k : string) (v : vfs) (name : string) :
  k <> join v name -> keeps_file k (create_empty v name).
Proof.
  intros Hk w r w' E. inversion E; subst. cbn [files].
  apply lookup_insert_ne. congruence.
Qed.

Section Untouched.
Variable k : string.
Variable dstrepo : repo.
Hypothesis clone_keeps :
  forall call fs fs', revlog_clone call fs = Ok fs' -> fs' !! k = fs !! k.
Hypothesis not_a_revlog_file :
  forall u,
    k <> join (opener (revlogfrompath_ dstrepo u))
              (indexfile (revlogfrompath_ dstrepo u))
    /\ k <> join (opener (revlogfrompath_ dstrepo u))
                 (datafile (revlogfrompath_ dstrepo u)).
Hypothesis not_a_store_file : forall p, k <> join (store_rawvfs dstrepo) p.

Lemma keeps_file_copyrevlog (oldrl : revlog) (name : string) :
  keeps_file k (copyrevlog_ dstrepo oldrl name).
Proof.
  destruct (not_a_revlog_file name) as [Hi Hd].
  unfold _copyrevlog.
  apply keeps_file_bind; [apply keeps_file_create_empty; exact Hi|]. intros _.
  apply keeps_file_bind; [apply keeps_file_copyfile; exact Hi|]. intros _.
  apply keeps_file_bind; [intros w r w' E; inversion E; reflexivity|].
  intros copydata.
  apply keeps_file_bind.
  { destruct copydata; [apply keeps_file_copyfile; exact Hd|apply keeps_file_ret]. }
  intros _.
  destruct (negb _); [|apply keeps_file_ret].
  apply keeps_file_bind; [intros w r w' E; inversion E; reflexivity|]. intros _.
  destruct copydata; [|apply keeps_file_ret].
  intros w r w' E; inversion E; reflexivity.
Qed.

Lemma keeps_file_do_clone (call : clone_call) :
  keeps_file k (do_clone revlog_clone call).
Proof.
  intros w r w' E. unfold do_clone, bind, get, lift, put in E.
  destruct (revlog_clone call (files w)) as [fs|e] eqn:Ec.
  - inversion E; subst. cbn [files]. exact (clone_keeps _ _ _ Ec).
  - inversion E; subst. reflexivity.
Qed.

Lemma keeps_file_clonerevlogs (srcrepo : repo)
  (alldatafiles : list (string * string * Z)) (deltareuse : deltareuse_mode)
  (forcedeltabothparents : bool) (revlogs : gset string) :
  keeps_file k
    (_clonerevlogs changelog_changelog manifest_manifestrevlog filelog_filelog
       revlog_clone srcrepo dstrepo alldatafiles deltareuse
       forcedeltabothparents revlogs).
Proof.
  unfold _clonerevlogs.
  destruct (_ =? 0)%Z; [apply keeps_file_ret|].
  induction alldatafiles as [|[[u enc] sz] rest IH]; [apply keeps_file_ret|].
  cbn [_clonerevlogs_loop].
  apply keeps_file_bind; [|intros _; exact IH].
  unfold _clonerevlogs_step.
  destruct (endswith u ".d"); [apply keeps_file_ret|].
  destruct (matchrevlog revlogs u);
    [apply keeps_file_do_clone|apply keeps_file_copyrevlog].
Qed.

Lemma keeps_file_copy_store_files (srcrepo : repo)
  (listing : list (string * Z * Z)) :
  keeps_file k (_copy_store_files srcrepo dstrepo listing).
Proof.
  induction listing as [|[[p kind] st] rest IH]; [apply keeps_file_ret|].
  cbn [_copy_store_files].
  apply keeps_file_bind; [|intros _; exact IH].
  destruct (negb _); [apply keeps_file_ret|].
  apply keeps_file_copyfile. apply not_a_store_file.
Qed.

(** X22. The copying of the revlogs and of the other store files writes
    only where the destination repository keeps its files: a path that is
    none of the index and data files of its revlogs, that is not a file of
    its store directory, and that the clone of a revlog does not write,
    holds after [_clonerevlogs], and after the loop over the store
    directory, what it held before, whether they end normally or raise. *)
Theorem data_migration_leaves_other_files (srcrepo : repo)
  (alldatafiles : list (string * string * Z)) (deltareuse : deltareuse_mode)
  (forcedeltabothparents : bool) (revlogs : gset string)
  (listing : list (string * Z * Z)) (w : world) :
  files (_clonerevlogs changelog_changelog manifest_manifestrevlog
           filelog_filelog revlog_clone srcrepo dstrepo alldatafiles deltareuse
           forcedeltabothparents revlogs w).2 !! k
  = files w !! k
  /\ files (_copy_store_files srcrepo dstrepo listing w).2 !! k = files w !! k.
Proof.
  split.
  - exact (keeps_file_clonerevlogs srcrepo alldatafiles deltareuse
             forcedeltabothparents revlogs w _ _ (surjective_pairing _)).
  - exact (keeps_file_copy_store_files srcrepo listing w _ _
             (surjective_pairing _)).
Qed.

End Untouched.

End Revlogs.

End store_facts.

Module inline_facts.
Import struct_facts codec_facts index_facts scan_facts parsers.
Import Py.
Local Open Scope py_scope.

Section Inline.
Context {modes : CompModes}.

(** X23. An inline index whose records and payloads follow one another up
    to the end of the data is built without error: it has one revision
    for each record, and revision [k] reads as the record at the [k]-th
    offset unpacks, revision 0 with the header masked out of its offset.
    When the records stop short of the end of the data, or run past it,
    the constructor raises [ValueError]. *)
Theorem inline_index_reads_walked_records (c : index_class) (data : bytes)
  (offs : list Z) (stop : Z) (fuel : nat) :
  is_inlined c = true ->
  inline_walk c data 0 offs stop -> (length offs < fuel)%nat ->
  (stop <> len data ->
   InlinedIndexObject__init__ fuel c data = Some (Raise ValueError))
  /\ (stop = len data ->
      exists self,
        InlinedIndexObject__init__ fuel c data = Some (Ok self)
        /\ __len__ self = len offs /\ wf_index self
        /\ forall (k : nat) (off : Z), offs !! k = Some off ->
             exists r,
               _unpack_entry c (slice data off (off + entry_size c)) = Ok r
               /\ __getitem__ self (PyInt (Z.of_nat k))
                  = Ok (if (k =? 0)%nat
                        then with_offset_flags
                               (offset_type 0 (gettype (offset_flags r))) r
                        else r)).
Proof.
  intros Hc Hw Hfuel.
  destruct (inline_init_follows_walk c data offs stop fuel Hw Hfuel) as [Hok Hbad].
  split; [exact Hbad|]. intros Hstop.
  destruct (Hok Hstop) as [Hinit Hwf]. specialize (Hwf Hc).
  set (self := mkIndex c data (len offs) [] offs None) in *.
  exists self. split; [exact Hinit|].
  assert (Hlen : __len__ self = len offs).
  { unfold __len__. cbn [_lgt _extra self]. unfold len. cbn [length]. lia. }
  split; [exact Hlen|]. split; [exact Hwf|].
  intros k off Hk.
  assert (Hklt : (k < length offs)%nat) by (eapply lookup_lt_Some; exact Hk).
  assert (Hi : 0 <= Z.of_nat k < __len__ self) by (rewrite Hlen; unfold len; lia).
  destruct (getitem_total self _ Hwf Hi) as [e He].
  destruct (getitem_Ok_inv_entry self _ e (proj1 Hi) He)
    as (_ & raw & r0 & Ed & Eu & Er).
  exists r0.
  assert (Hraw : raw = slice data off (off + entry_size c)).
  { unfold _entry_data, _calculate_index in Ed.
    change (_lgt self) with (len offs) in Ed. change (cls self) with c in Ed.
    destruct (Z.geb_spec (Z.of_nat k) (len offs)); [unfold len in *; lia|].
    rewrite Hc in Ed. change (_offsets self) with offs in Ed.
    change (_data self) with data in Ed.
    destruct (getitem_Ok offs (Z.of_nat k)) as (a & Ea & La);
      [unfold len; lia|].
    rewrite Nat2Z.id in La. rewrite Hk in La. inversion La; subst a.
    rewrite Ea in Ed. cbn [rbind] in Ed. inversion Ed. reflexivity. }
  split; [rewrite <- Hraw; exact Eu|].
  rewrite He. f_equal. rewrite Er. change (_lgt self) with (len offs).
  destruct (Z.eqb_spec (len offs) 0) as [E0|_]; [unfold len in E0; lia|].
  cbn [negb andb].
  destruct k as [|k]; reflexivity.
Qed.

End Inline.
End inline_facts.

Module more_index_examples.
Import struct_facts codec_facts index_facts nodemap_facts null_facts strip_facts
  sidedata_facts append_facts lookup_facts record_facts inline_facts
  index_examples parsers samples.

#[local] Existing Instance sample_modes.

Lemma offset_type_gettype_inverse_witness :
  0 <= 1 < 65536
  /\ gettype (offset_type 75 1) = 1
  /\ Z.shiftr (offset_type 75 1) 16 = 75.
Proof.
  assert (H : 0 <= 1 < 65536) by lia.
  split; [exact H|]. exact (offset_type_gettype_inverse 75 1 H).
Defined.

Lemma IndexObject_reads_records_witness :
  is_inlined IndexObject = false
  /\ exists self,
       IndexObject__init__ IndexObject (sample_record_v1 ++ other_record_v1)
       = Ok self
       /\ __len__ self = 2.
Proof.
  split; [reflexivity|].
  destruct (IndexObject_reads_records IndexObject
              (sample_record_v1 ++ other_record_v1) eq_refl) as [_ T].
  destruct (T eq_refl) as (self & H1 & H2 & _).
  exists self. split; [exact H1|]. rewrite H2. reflexivity.
Defined.

Lemma getitem_accepts_revisions_and_minus_one_witness :
  wf_index sample_index
  /\ __getitem__ sample_index (PyInt (-1)) = Ok null_item
  /\ __getitem__ sample_index (PyInt 2) = Raise IndexError
  /\ __getitem__ sample_index (PyInt (-2)) = Raise IndexError
  /\ __getitem__ sample_index PyNone = Raise TypeError.
Proof.
  split; [exact sample_index_wf|].
  destruct (getitem_accepts_revisions_and_minus_one sample_index sample_index_wf)
    as (T1 & _ & T3 & T4).
  split; [exact T1|]. split; [|split].
  - apply T3. right. change (__len__ sample_index) with 2. lia.
  - apply T3. left. lia.
  - apply T4. intros z. discriminate.
Defined.

Lemma append_then_read_and_resolve_witness :
  wf_index sample_index /\ nodemap_consistent sample_index
  /\ wf_entry_v1 (mkEntry 8388608 12 40 1 2 1 (-1) (replicate 20 x07) 0 0 2 2)
  /\ exists self',
       append (mkEntry 8388608 12 40 1 2 1 (-1) (replicate 20 x07) 0 0 2 2)
              sample_index = (Ok tt, self')
       /\ __len__ self' = 3
       /\ (rev (replicate 20 x07) self').1 = Ok 2.
Proof.
  assert (Hw : wf_entry_v1
                 (mkEntry 8388608 12 40 1 2 1 (-1) (replicate 20 x07) 0 0 2 2)).
  { unfold wf_entry_v1, is_Q, is_i. cbn. repeat split; lia. }
  split; [exact sample_index_wf|]. split; [exact I|]. split; [exact Hw|].
  destruct (append_then_read_and_resolve sample_index
              (mkEntry 8388608 12 40 1 2 1 (-1) (replicate 20 x07) 0 0 2 2)
              sample_index_wf I (conj Hw (conj eq_refl eq_refl)))
    as (self' & H1 & H2 & _ & _ & _ & _ & H7 & _).
  exists self'. split; [exact H1|]. split; [exact H2|exact H7].
Defined.

Lemma append_failure_leaves_node_in_cache_witness :
  (has_node sample_node sample_index).2 = cached_index
  /\ _nodemap cached_index = Some sample_nodemap
  /\ _pack_entry (cls cached_index) unpackable_entry_v1 = Raise AssertionError
  /\ exists self',
       append unpackable_entry_v1 cached_index = (Raise AssertionError, self')
       /\ __len__ self' = __len__ cached_index
       /\ (has_node (node_id unpackable_entry_v1) self').1 = Ok true.
Proof.
  assert (Hp : _pack_entry (cls cached_index) unpackable_entry_v1
               = Raise AssertionError) by reflexivity.
  assert (En : _nodemap cached_index = Some sample_nodemap) by reflexivity.
  split; [vm_compute; reflexivity|]. split; [exact En|]. split; [exact Hp|].
  destruct (append_failure_leaves_node_in_cache cached_index
              unpackable_entry_v1 sample_nodemap AssertionError En Hp)
    as (self' & H1 & _ & H3 & H4 & _).
  exists self'. split; [exact H1|]. split; [exact H3|exact H4].
Defined.

Lemma node_of_revision_resolves_to_it_witness :
  wf_index sample_index /\ nodemap_consistent sample_index
  /\ nodes_distinct sample_index /\ 0 <= 1 < __len__ sample_index
  /\ __getitem__ sample_index (PyInt 1) = Ok (with_comp_modes 2 2 other_entry_v1)
  /\ (rev other_node sample_index).1 = Ok 1.
Proof.
  assert (Hr : 0 <= 1 < __len__ sample_index)
    by (change (__len__ sample_index) with 2; lia).
  assert (He : __getitem__ sample_index (PyInt 1)
               = Ok (with_comp_modes 2 2 other_entry_v1))
    by (vm_compute; reflexivity).
  split; [exact sample_index_wf|]. split; [exact I|].
  split; [exact sample_index_distinct|]. split; [exact Hr|]. split; [exact He|].
  destruct (node_of_revision_resolves_to_it sample_index 1 _
              sample_index_wf I sample_index_distinct Hr He) as (_ & T & _).
  exact T.
Defined.

Lemma has_node_iff_null_or_stored_witness :
  wf_index sample_index /\ nodemap_consistent sample_index
  /\ exists b,
       (has_node (replicate 20 x07) sample_index).1 = Ok b
       /\ (b = true <->
           replicate 20 x07 = nullid
           \/ exists i e, 0 <= i < __len__ sample_index
                /\ __getitem__ sample_index (PyInt i) = Ok e
                /\ node_id e = replicate 20 x07).
Proof.
  split; [exact sample_index_wf|]. split; [exact I|].
  exact (has_node_iff_null_or_stored sample_index (replicate 20 x07)
           sample_index_wf I).
Defined.

Lemma entry_binary_unpacks_to_entry_witness :
  wf_index sample_index /\ 0 <= 1 < __len__ sample_index
  /\ exists e raw,
       __getitem__ sample_index (PyInt 1) = Ok e
       /\ entry_binary sample_index 1 = Ok raw
       /\ len raw = 64
       /\ _unpack_entry IndexObject raw = Ok e.
Proof.
  assert (Hr : 0 <= 1 < __len__ sample_index)
    by (change (__len__ sample_index) with 2; lia).
  split; [exact sample_index_wf|]. split; [exact Hr|].
  assert (Hne : is_v2 (cls sample_index) = true \/ 1 <> 0) by (right; lia).
  exact (entry_binary_unpacks_to_entry sample_index 1 sample_index_wf Hr Hne).
Defined.

Lemma header_and_first_record_round_trip_witness :
  wf_index sample_index /\ is_v2 (cls sample_index) = false
  /\ 0 < _lgt sample_index /\ 0 <= 1 <= 4294967295
  /\ __getitem__ sample_index (PyInt 0)
     = Ok (mkEntry 1 11 30 0 0 (-1) (-1) sample_node 0 0 2 2)
  /\ exists hb p idx,
       pack_header (cls sample_index) 1 = Ok hb
       /\ entry_binary sample_index 0 = Ok p
       /\ IndexObject__init__ IndexObject (hb ++ p) = Ok idx
       /\ __getitem__ idx (PyInt 0)
          = Ok (mkEntry 1 11 30 0 0 (-1) (-1) sample_node 0 0 2 2).
Proof.
  assert (Hl : 0 < _lgt sample_index) by (cbn; lia).
  assert (Hh : 0 <= 1 <= 4294967295) by lia.
  assert (He : __getitem__ sample_index (PyInt 0)
               = Ok (mkEntry 1 11 30 0 0 (-1) (-1) sample_node 0 0 2 2))
    by (vm_compute; reflexivity).
  split; [exact sample_index_wf|]. split; [reflexivity|]. split; [exact Hl|].
  split; [exact Hh|]. split; [exact He|].
  destruct (header_and_first_record_round_trip sample_index 1 _
              sample_index_wf eq_refl Hl Hh He)
    as (hb & p & idx & H1 & H2 & _ & _ & _ & H6 & _ & H8).
  exists hb, p, idx. auto.
Defined.

Lemma inline_index_reads_walked_records_witness :
  is_inlined InlinedIndexObject = true
  /\ inline_walk InlinedIndexObject sample_inline_data 0 [0; 67] 131
  /\ exists self,
       InlinedIndexObject__init__ 3 InlinedIndexObject sample_inline_data
       = Some (Ok self)
       /\ __len__ self = 2.
Proof.
  split; [reflexivity|]. split; [exact sample_inline_walk|].
  assert (Hf : (length [0; 67] < 3)%nat) by (cbn; lia).
  destruct (inline_index_reads_walked_records InlinedIndexObject
              sample_inline_data [0; 67] 131 3 eq_refl sample_inline_walk Hf)
    as [_ T].
  destruct (T eq_refl) as (self & H1 & H2 & _).
  exists self. split; [exact H1|exact H2].
Defined.

End more_index_examples.

Module dirstate_examples.
Import struct_facts dirstate_facts parsers samples.

Lemma sample_dmap_keys : NoDup (map fst sample_dmap).
Proof.
  cbn. repeat (apply NoDup_cons; split;
               [rewrite ?elem_of_cons, elem_of_nil; intuition discriminate|]).
  apply NoDup_nil. exact I.
Qed.

Lemma sample_dmap_packable : Forall (packable sample_copymap) sample_dmap.
Proof.
  unfold sample_dmap.
  repeat (apply Forall_cons; split;
          [unfold packable, is_i; cbn;
           repeat split; try lia;
           try (rewrite ?elem_of_cons, elem_of_nil; intuition discriminate);
           try (intros c Hc; inversion Hc; subst;
                rewrite ?elem_of_cons, elem_of_nil; intuition discriminate);
           try discriminate|]).
  apply Forall_nil. exact I.
Qed.

Lemma pack_dirstate_parse_dirstate_round_trip_witness :
  NoDup (map fst sample_dmap) /\ Forall (packable sample_copymap) sample_dmap
  /\ exists st,
       pack_dirstate sample_copymap [sample_p1; sample_p2] sample_now sample_dmap
       = (Ok st,
          [([x61], ([x6e], 33188, 5, -1));
           ([x62], ([x6e], 33188, 7, 1600000000));
           ([x63], ([x61], 0, -1, -1))])
       /\ parse_dirstate 4 [] [] st
          = Some (Ok [sample_p1; sample_p2],
                  ([([x61], ([x6e], 33188, 5, -1));
                    ([x62], ([x6e], 33188, 7, 1600000000));
                    ([x63], ([x61], 0, -1, -1))],
                   [([x62], [x61])])).
Proof.
  split; [exact sample_dmap_keys|]. split; [exact sample_dmap_packable|].
  destruct (pack_dirstate_parse_dirstate_round_trip sample_dmap sample_copymap
              sample_p1 sample_p2 sample_now sample_dmap_keys
              sample_dmap_packable eq_refl eq_refl) as (st & H1 & H2).
  exists st. split; [exact H1|].
  refine (H2 4%nat _). cbn. lia.
Defined.

Lemma pack_dirstate_invalidates_mtime_witness :
  NoDup (map fst sample_dmap)
  /\ exists st dmap',
       pack_dirstate sample_copymap [sample_p1; sample_p2] sample_now sample_dmap
       = (Ok st, dmap')
       /\ dmap' = invalidated_items sample_now sample_dmap
       /\ map fst dmap' = map fst sample_dmap.
Proof.
  split; [exact sample_dmap_keys|].
  destruct (pack_dirstate sample_copymap [sample_p1; sample_p2] sample_now
              sample_dmap) as [[st|e] dmap'] eqn:E.
  - destruct (pack_dirstate_invalidates_mtime sample_dmap dmap' sample_copymap
                [sample_p1; sample_p2] sample_now st sample_dmap_keys E)
      as (H1 & H2 & _).
    exists st, dmap'. split; [reflexivity|]. split; [exact H1|exact H2].
  - vm_compute in E. discriminate.
Defined.

Lemma parse_dirstate_negative_length_never_returns_witness :
  unpack dirstate_format (slice looping_dirstate 40 57)
  = Ok [VBytes [x6e]; VInt 0; VInt 0; VInt 0; VInt (-17)]
  /\ parse_dirstate 1000 [] [] looping_dirstate = None.
Proof.
  assert (Hu : unpack dirstate_format (slice looping_dirstate 40 57)
               = Ok [VBytes [x6e]; VInt 0; VInt 0; VInt 0; VInt (-17)])
    by (vm_compute; reflexivity).
  split; [exact Hu|].
  exact (parse_dirstate_negative_length_never_returns looping_dirstate
           [x6e] 0 0 0 Hu 1000%nat [] []).
Defined.

End dirstate_examples.

Module more_docket_examples.
Import struct_facts docket_facts docket_round_trip docket samples.
Local Open Scope string_scope.

Lemma serialize_parse_docket_round_trip_witness :
  _serialize true grown_docket = Ok grown_docket_pending
  /\ _initial_index_end grown_docket <= _index_end grown_docket
  /\ (exists d, parse_docket sample_revlog grown_docket_pending false = Ok d
                /\ index_end d = 640 /\ _read_only d = false)
  /\ (exists d, parse_docket sample_revlog grown_docket_pending true = Ok d
                /\ index_end d = 704 /\ _read_only d = true).
Proof.
  assert (Hs : _serialize true grown_docket = Ok grown_docket_pending)
    by (vm_compute; reflexivity).
  assert (Hi : _initial_index_end grown_docket <= _index_end grown_docket)
    by (cbn; lia).
  split; [exact Hs|]. split; [exact Hi|].
  destruct (serialize_parse_docket_round_trip grown_docket sample_revlog true
              grown_docket_pending Hs (fun _ => Hi))
    as (vh & iu & du & dch & _ & _ & _ & _ & T).
  split; eexists; (split; [apply T|split; reflexivity]).
Defined.

Lemma pending_docket_of_shrunk_index_unparsable_witness :
  _serialize true cut_docket = Ok cut_docket_content
  /\ _index_end cut_docket < _initial_index_end cut_docket
  /\ parse_docket sample_revlog cut_docket_content false = Raise AssertionError.
Proof.
  assert (Hs : _serialize true cut_docket = Ok cut_docket_content)
    by (vm_compute; reflexivity).
  assert (Hlt : _index_end cut_docket < _initial_index_end cut_docket)
    by (cbn; lia).
  split; [exact Hs|]. split; [exact Hlt|].
  exact (pending_docket_of_shrunk_index_unparsable cut_docket
           cut_docket_content Hs Hlt sample_revlog false).
Defined.

Lemma pending_write_then_final_write_witness :
  _dirty grown_docket = true /\ _read_only grown_docket = false
  /\ _serialize true grown_docket = Ok grown_docket_pending
  /\ _serialize false grown_docket = Ok grown_docket_final
  /\ exists d1 w1 d2 w2,
       write true false (grown_docket, empty_world) = (Ok true, (d1, w1))
       /\ files w1 !! "00changelog.i" = Some grown_docket_pending
       /\ write false false (d1, w1) = (Ok true, (d2, w2))
       /\ files w2 !! "00changelog.i" = Some grown_docket_final
       /\ _dirty d2 = false.
Proof.
  assert (H1 : _serialize true grown_docket = Ok grown_docket_pending)
    by (vm_compute; reflexivity).
  assert (H2 : _serialize false grown_docket = Ok grown_docket_final)
    by (vm_compute; reflexivity).
  split; [reflexivity|]. split; [reflexivity|]. split; [exact H1|].
  split; [exact H2|].
  destruct (pending_write_then_final_write grown_docket empty_world false
              grown_docket_pending grown_docket_final eq_refl eq_refl H1 H2)
    as (d1 & w1 & d2 & w2 & T1 & T2 & _ & T4 & T5 & T6 & _).
  exists d1, w1, d2, w2. auto.
Defined.

End more_docket_examples.

Module more_engine_examples.
Import engine engine_facts clone_facts store_facts engine_samples engine_examples.
Local Open Scope string_scope.


Lemma sample_clone_keeps (k : string) (call : clone_call)
  (fs fs' : gmap string bytes) :
  sample_clone call fs = Ok fs' -> fs' !! k = fs !! k.
Proof. unfold sample_clone. intros E. inversion E. reflexivity. Qed.

Lemma sample_source_not_a_revlog_file (u : string) :
  "src/data/a.i"
  <> join (opener (_revlogfrompath sample_changelog sample_manifest
                     (sample_filelog 2) sample_dstrepo u))
          (indexfile (_revlogfrompath sample_changelog sample_manifest
                        (sample_filelog 2) sample_dstrepo u))
  /\ "src/data/a.i"
     <> join (opener (_revlogfrompath sample_changelog sample_manifest
                        (sample_filelog 2) sample_dstrepo u))
             (datafile (_revlogfrompath sample_changelog sample_manifest
                          (sample_filelog 2) sample_dstrepo u)).
Proof.
  unfold _revlogfrompath.
  destruct (String.eqb u "00changelog.i"); [split; discriminate|].
  destruct (endswith u "00manifest.i"); split; discriminate.
Qed.

Lemma sample_source_not_a_store_file (p : string) :
  "src/data/a.i" <> join (store_rawvfs sample_dstrepo) p.
Proof. cbn. discriminate. Qed.

Lemma data_migration_leaves_other_files_witness :
  (forall call fs fs',
     sample_clone call fs = Ok fs' -> fs' !! "src/data/a.i" = fs !! "src/data/a.i")
  /\ (forall p, "src/data/a.i" <> join (store_rawvfs sample_dstrepo) p)
  /\ files (_clonerevlogs sample_changelog sample_manifest (sample_filelog 2)
              sample_clone sample_srcrepo sample_dstrepo sample_datafiles
              DELTAREUSEALWAYS false (revlogs_to_process sample_op)
              sample_store).2
       !! "src/data/a.i"
     = files sample_store !! "src/data/a.i"
  /\ files (_copy_store_files sample_srcrepo sample_dstrepo sample_readdir
              sample_store).2
       !! "src/data/a.i"
     = files sample_store !! "src/data/a.i".
Proof.
  split; [exact (sample_clone_keeps "src/data/a.i")|].
  split; [exact sample_source_not_a_store_file|].
  exact (data_migration_leaves_other_files sample_changelog sample_manifest
           (sample_filelog 2) sample_clone "src/data/a.i" sample_dstrepo
           (sample_clone_keeps "src/data/a.i") sample_source_not_a_revlog_file
           sample_source_not_a_store_file sample_srcrepo sample_datafiles
           DELTAREUSEALWAYS false (revlogs_to_process sample_op)
           sample_readdir sample_store).
Defined.

End more_engine_examples.
